(** * Contact-form backend: validation and persistence path

    A shallow embedding of [backend/server.js] (the Express handlers under
    [/api/]) together with the parts of its collaborators that the handlers
    rely on: express-validator's chain runner and the validator.js
    sanitizers, the relational engine executing the statements the server
    issues against the [contacts] table of [postgres/init.sql], and
    [res.json].  After the handlers come the server's start-up and pool,
    the sample rows and the view of [init.sql], and the form component
    ([ContactForm]) that submits to the create route.

    Conventions of the embedding:
    - a JavaScript string is a [string] whose characters are code units in
      the 8-bit range (U+0000..U+00FF);
    - numeric request inputs ([page], [limit], [:id]) are carried as the
      integer their decimal text denotes, and numbers are exact: text that
      is not an integer numeral and the rounding of doubles are outside the
      embedding, so statements about [page], [limit] and the offset are
      made for integers a double holds exactly; the engine's integer types
      have their ranges;
    - an instant is a [Z] counting microseconds since the epoch;
    - logging is left out. *)

From Stdlib Require Import ZArith List String Ascii Bool Lia.
From Stdlib Require Import Sorted Permutation DecimalString DecimalZ.
Import ListNotations.
Local Open Scope string_scope.
Local Open Scope Z_scope.

(** ** JavaScript strings *)

Module JsString.

(** [\s] of the regular-expression engine, restricted to 8-bit code units:
    TAB, LF, VT, FF, CR, SPACE and NBSP. *)
Definition is_space (a : ascii) : bool :=
  let n := nat_of_ascii a in
  ((9 <=? n) && (n <=? 13) || (n =? 32) || (n =? 160))%nat.

(** [str.replace(/^\s+/g, '')] *)
Fixpoint ltrim (s : string) : string :=
  match s with
  | EmptyString => EmptyString
  | String a s' => if is_space a then ltrim s' else s
  end.

(** validator.js [rtrim]: walk back from the end while the character is
    white space, then slice. *)
Fixpoint rtrim (s : string) : string :=
  match s with
  | EmptyString => EmptyString
  | String a s' =>
      match rtrim s' with
      | EmptyString => if is_space a then EmptyString else String a EmptyString
      | r => String a r
      end
  end.

(** validator.js [trim(str)] with no [chars] argument. *)
Definition trim (s : string) : string := rtrim (ltrim s).

Definition lower_ascii (a : ascii) : ascii :=
  let n := nat_of_ascii a in
  if ((65 <=? n) && (n <=? 90)
      || (192 <=? n) && (n <=? 222) && negb (n =? 215))%nat
  then ascii_of_nat (n + 32) else a.

(** [String.prototype.toLowerCase] *)
Fixpoint toLowerCase (s : string) : string :=
  match s with
  | EmptyString => EmptyString
  | String a s' => String (lower_ascii a) (toLowerCase s')
  end.

(** [str.split(c)] for a one-character separator. *)
Fixpoint split (c : ascii) (s : string) : list string :=
  match s with
  | EmptyString => [EmptyString]
  | String a s' =>
      match split c s' with
      | [] => [s]
      | p :: ps => if Ascii.eqb a c then EmptyString :: p :: ps
                   else String a p :: ps
      end
  end.

(** [parts.join(c)] *)
Definition join (c : ascii) (parts : list string) : string :=
  String.concat (String c EmptyString) parts.

(** [arr.indexOf(x) >= 0] *)
Definition includes (x : string) (l : list string) : bool :=
  existsb (String.eqb x) l.

Definition has_char (c : ascii) (s : string) : bool :=
  existsb (Ascii.eqb c) (list_ascii_of_string s).

(** Decimal text of an integer, and its inverse on such text
    ([String(n)], [parseInt(s)], [Number(s)] on canonical numerals). *)
Definition decimal (z : Z) : string := NilZero.string_of_int (Z.to_int z).

Definition parseInt (s : string) : option Z :=
  option_map Z.of_int (NilZero.int_of_string s).

End JsString.
Import JsString.

(** ** JSON documents produced by [res.json] *)

#[local] Set Warnings "-register-all".

Inductive json : Type :=
| JNull
| JBool (b : bool)
| JNum (z : Z)
| JStr (s : string)
| JDate (t : Z)              (* a [Date]: serialised as the ISO text of instant [t] *)
| JArr (l : list json)
| JObj (members : list (string * json)).

(** An object literal some of whose members may be [undefined]:
    [JSON.stringify] leaves those members out. *)
Fixpoint defined_members (members : list (string * option json))
  : list (string * json) :=
  match members with
  | [] => []
  | (k, Some v) :: rest => (k, v) :: defined_members rest
  | (_, None) :: rest => defined_members rest
  end.

Definition object (members : list (string * option json)) : json :=
  JObj (defined_members members).

Definition member (k : string) (j : json) : option json :=
  match j with
  | JObj ms => option_map snd (find (fun kv => String.eqb (fst kv) k) ms)
  | _ => None
  end.

Definition keys (j : json) : list string :=
  match j with
  | JObj ms => map fst ms
  | _ => []
  end.

(** What [res.status(code).json(body)] sends. *)
Record response : Type := Response { status : Z; body : json }.

(** ** express-validator: chains over request-body fields *)

Module Validator.

(** The value of a body field while a chain runs over it: absent from the
    body, a string, or the [false] that [normalizeEmail] can return. *)
Inductive field_value : Type :=
| Missing
| Text (s : string)
| False_.

(** express-validator's [toString], applied before every standard
    validator and sanitizer. *)
Definition toString (v : field_value) : string :=
  match v with
  | Missing => ""
  | Text s => s
  | False_ => "false"
  end.

(** Tables and the e-mail predicate of validator.js, whose sources are not
    part of this repository: the provider domain tables read by
    [normalizeEmail] and the predicate [isEmail]. *)
Record validator_js : Type := {
  isEmail : string -> bool;
  icloud_domains : list string;
  outlookdotcom_domains : list string;
  yahoo_domains : list string;
  yandex_domains : list string
}.

(** [isLength(str, {min, max})]; below U+0100 there are neither surrogate
    pairs nor variation selectors to discount. *)
Definition isLength (min max : nat) (s : string) : bool :=
  ((min <=? String.length s) && (String.length s <=? max))%nat.

(** [isEmpty(str)] with [ignore_whitespace: false] *)
Definition isEmpty (s : string) : bool := (String.length s =? 0)%nat.

(** [dotsReplacer] under [/\.+/g]: a lone dot goes, a run of dots stays. *)
Fixpoint remove_single_dots (after_dot : bool) (s : string) : string :=
  match s with
  | EmptyString => EmptyString
  | String a s' =>
      if Ascii.eqb a "." then
        let before_dot :=
          match s' with
          | String b _ => Ascii.eqb b "."
          | EmptyString => false
          end in
        if after_dot || before_dot
        then String a (remove_single_dots true s')
        else remove_single_dots true s'
      else String a (remove_single_dots false s')
  end.

Section Sanitizers.
Variable V : validator_js.

(** validator.js [normalizeEmail(email)] with its default options
    (the chain passes none). *)
Definition normalizeEmail (email : string) : field_value :=
  let raw_parts := split "@" email in
  let domain := toLowerCase (last raw_parts "") in
  let user := join "@" (removelast raw_parts) in
  if ((domain =? "gmail.com") || (domain =? "googlemail.com"))%string then
    let user := hd "" (split "+" user) in
    let user := remove_single_dots false user in
    if (String.length user =? 0)%nat then False_
    else Text (toLowerCase user ++ "@" ++ "gmail.com")
  else if includes domain (icloud_domains V) then
    let user := hd "" (split "+" user) in
    if (String.length user =? 0)%nat then False_
    else Text (toLowerCase user ++ "@" ++ domain)
  else if includes domain (outlookdotcom_domains V) then
    let user := hd "" (split "+" user) in
    if (String.length user =? 0)%nat then False_
    else Text (toLowerCase user ++ "@" ++ domain)
  else if includes domain (yahoo_domains V) then
    let components := split "-" user in
    let user := if (1 <? List.length components)%nat
                then join "-" (removelast components)
                else hd "" components in
    if (String.length user =? 0)%nat then False_
    else Text (toLowerCase user ++ "@" ++ domain)
  else if includes domain (yandex_domains V) then
    Text (toLowerCase user ++ "@" ++ "yandex.ru")
  else
    Text (toLowerCase user ++ "@" ++ domain).

(** The lower-cased domain [normalizeEmail] dispatches on, and whether
    one of its provider branches takes it. *)
Definition domain_of (email : string) : string :=
  toLowerCase (last (split "@" email) "").

Definition provider_domain (domain : string) : bool :=
  ((domain =? "gmail.com") || (domain =? "googlemail.com"))%string
  || includes domain (icloud_domains V)
  || includes domain (outlookdotcom_domains V)
  || includes domain (yahoo_domains V)
  || includes domain (yandex_domains V).

Inductive standard_sanitizer : Type := Trim | NormalizeEmail.
Inductive standard_validator : Type :=
| NotEmpty
| IsLength (min max : nat)
| IsEmail.

Definition run_sanitizer (s : standard_sanitizer) (v : field_value)
  : field_value :=
  match s with
  | Trim => Text (trim (toString v))
  | NormalizeEmail => normalizeEmail (toString v)
  end.

Definition run_validator (p : standard_validator) (v : field_value) : bool :=
  match p with
  | NotEmpty => negb (isEmpty (toString v))
  | IsLength min max => isLength min max (toString v)
  | IsEmail => isEmail V (toString v)
  end.

(** One link of a chain; [.withMessage(m)] sets the message of the
    validator just before it. *)
Inductive chain_item : Type :=
| sanitize (s : standard_sanitizer)
| validate (p : standard_validator) (withMessage : string).

(** [body(path)....] *)
Record validation_chain : Type :=
  body_ { chain_path : string; chain_items : list chain_item }.

(** An entry of [validationResult(req).array()]:
    [{type: 'field', value, msg, path, location: 'body'}]. *)
Record validation_error : Type := {
  value : field_value;
  msg : string;
  path : string
}.

(** Running the links in order: sanitizers replace the value, a failing
    validator records an error and the run goes on (no [.bail()]). *)
Fixpoint run_items (p : string) (items : list chain_item) (v : field_value)
  : field_value * list validation_error :=
  match items with
  | [] => (v, [])
  | sanitize s :: rest => run_items p rest (run_sanitizer s v)
  | validate q m :: rest =>
      let '(v', errs) := run_items p rest v in
      (v', if run_validator q v then errs
           else {| value := v; msg := m; path := p |} :: errs)
  end.

Definition run_chain (c : validation_chain) (v : field_value) :=
  run_items (chain_path c) (chain_items c) v.

(** [req.body] of [POST /api/contacts]. *)
Record contact_body : Type := {
  name : field_value;
  email : field_value;
  message : field_value
}.

(** The three chains of [validateContact]. *)
Definition name_chain : validation_chain :=
  body_ "name"
    [ sanitize Trim;
      validate NotEmpty "Name is required";
      validate (IsLength 2 100) "Name must be between 2 and 100 characters" ].

Definition email_chain : validation_chain :=
  body_ "email"
    [ sanitize Trim;
      validate NotEmpty "Email is required";
      validate IsEmail "Please provide a valid email address";
      sanitize NormalizeEmail ].

Definition message_chain : validation_chain :=
  body_ "message"
    [ sanitize Trim;
      validate NotEmpty "Message is required";
      validate (IsLength 10 1000)
        "Message must be between 10 and 1000 characters" ].

(** The chains run one after the other over the same request: each
    rewrites its field of [req.body] and adds its errors to the request;
    [validationResult(req).array()] lists them in that order. *)
Definition validateContact (b : contact_body)
  : contact_body * list validation_error :=
  let '(n, en) := run_chain name_chain (name b) in
  let '(e, ee) := run_chain email_chain (email b) in
  let '(m, em) := run_chain message_chain (message b) in
  ({| name := n; email := e; message := m |}, (en ++ ee ++ em)%list).

Definition validationResult (b : contact_body) : list validation_error :=
  snd (validateContact b).

Definition sanitized (b : contact_body) : contact_body :=
  fst (validateContact b).

End Sanitizers.

Definition json_of_field_value (v : field_value) : option json :=
  match v with
  | Missing => None
  | Text s => Some (JStr s)
  | False_ => Some (JBool false)
  end.

Definition json_of_error (e : validation_error) : json :=
  object [ ("type", Some (JStr "field"));
           ("value", json_of_field_value (value e));
           ("msg", Some (JStr (msg e)));
           ("path", Some (JStr (path e)));
           ("location", Some (JStr "body")) ].

(** The provider tables as validator.js 13 ships them. *)
Definition validator_13 (isEmail : string -> bool) : validator_js := {|
  isEmail := isEmail;
  icloud_domains := ["icloud.com"; "me.com"];
  outlookdotcom_domains :=
    ["hotmail.at"; "hotmail.be"; "hotmail.ca"; "hotmail.cl"; "hotmail.co.il";
     "hotmail.co.nz"; "hotmail.co.th"; "hotmail.co.uk"; "hotmail.com";
     "hotmail.com.ar"; "hotmail.com.au"; "hotmail.com.br"; "hotmail.com.gr";
     "hotmail.com.mx"; "hotmail.com.pe"; "hotmail.com.tr"; "hotmail.com.vn";
     "hotmail.cz"; "hotmail.de"; "hotmail.dk"; "hotmail.es"; "hotmail.fr";
     "hotmail.hu"; "hotmail.id"; "hotmail.ie"; "hotmail.in"; "hotmail.it";
     "hotmail.jp"; "hotmail.kr"; "hotmail.lv"; "hotmail.my"; "hotmail.ph";
     "hotmail.pt"; "hotmail.sa"; "hotmail.sg"; "hotmail.sk"; "live.be";
     "live.co.uk"; "live.com"; "live.com.ar"; "live.com.mx"; "live.de";
     "live.es"; "live.eu"; "live.fr"; "live.it"; "live.nl"; "msn.com";
     "outlook.at"; "outlook.be"; "outlook.cl"; "outlook.co.il";
     "outlook.co.nz"; "outlook.co.th"; "outlook.com"; "outlook.com.ar";
     "outlook.com.au"; "outlook.com.br"; "outlook.com.gr"; "outlook.com.pe";
     "outlook.com.tr"; "outlook.com.vn"; "outlook.cz"; "outlook.de";
     "outlook.dk"; "outlook.es"; "outlook.fr"; "outlook.hu"; "outlook.id";
     "outlook.ie"; "outlook.in"; "outlook.it"; "outlook.jp"; "outlook.kr";
     "outlook.lv"; "outlook.my"; "outlook.ph"; "outlook.pt"; "outlook.sa";
     "outlook.sg"; "outlook.sk"; "passport.com"];
  yahoo_domains :=
    ["rocketmail.com"; "yahoo.ca"; "yahoo.co.uk"; "yahoo.com"; "yahoo.de";
     "yahoo.fr"; "yahoo.in"; "yahoo.it"; "ymail.com"];
  yandex_domains :=
    ["yandex.ru"; "yandex.ua"; "yandex.kz"; "yandex.com"; "yandex.by"; "ya.ru"]
|}.

(** The form component's own check before it submits ([validateField]):
    [/^[^\s@]+@[^\s@]+\.[^\s@]+$/]. *)
Definition emailRegex_test (s : string) : bool :=
  match split "@" s with
  | [local; domain] =>
      negb (isEmpty local)
      && negb (existsb is_space (list_ascii_of_string s))
      && existsb (Ascii.eqb ".")
                 (removelast (tl (list_ascii_of_string domain)))
  | _ => false
  end.

(** An instance on which requests can be evaluated: the tables of
    validator.js 13, with the form component's pattern in the place of
    [isEmail]. *)
Definition example_validator : validator_js := validator_13 emailRegex_test.

(** *** validator.js [isEmail] and [isFQDN] with their default options

    Read on 8-bit code units: of the ranges the patterns name above
    U+007F only U+00A0/U+00A1 to U+00FF remain. *)

Definition code (a : ascii) : nat := nat_of_ascii a.

Definition between (lo hi : nat) (a : ascii) : bool :=
  ((lo <=? code a) && (code a <=? hi))%nat.

(** [[a-z]] under the [i] flag, and [\d]. *)
Definition is_letter (a : ascii) : bool := between 65 90 a || between 97 122 a.
Definition is_digit (a : ascii) : bool := between 48 57 a.

Definition all_chars (p : ascii -> bool) (s : string) : bool :=
  forallb p (list_ascii_of_string s).

(** [isByteLength]: the length of the UTF-8 encoding. *)
Definition byte_length (s : string) : nat :=
  list_sum (map (fun a => if (code a <? 128)%nat then 1%nat else 2%nat)
                (list_ascii_of_string s)).

(** The pattern of the top-level domain: two or more letters (or code
    units from U+00A1 on, U+00A9 left out), or [xn] and two or more of
    [[a-z0-9-]]. *)
Definition tld_char (a : ascii) : bool :=
  is_letter a || between 161 168 a || between 170 255 a.

Definition is_tld (s : string) : bool :=
  ((2 <=? String.length s)%nat && all_chars tld_char s)
  || match s with
     | String x (String n rest) =>
         ((code x =? 120) || (code x =? 88))%nat
         && ((code n =? 110) || (code n =? 78))%nat
         && (2 <=? String.length rest)%nat
         && all_chars (fun a => is_letter a || is_digit a || (code a =? 45)%nat)
                      rest
     | _ => false
     end.

(** A label of the domain: at most 63 code units of [[a-z0-9-]] or from
    U+00A1 on, no hyphen at either end, no underscore. *)
Definition label_char (a : ascii) : bool :=
  is_letter a || is_digit a || (code a =? 45)%nat || between 161 255 a.

Definition is_label (s : string) : bool :=
  (String.length s <=? 63)%nat
  && negb (isEmpty s)
  && all_chars label_char s
  && negb (match s with
           | String a _ => (code a =? 45)%nat
           | EmptyString => false
           end)
  && negb (match rev (list_ascii_of_string s) with
           | a :: _ => (code a =? 45)%nat
           | [] => false
           end).

(** [isFQDN(str, {require_tld: true, allow_underscores: false})] *)
Definition isFQDN (str : string) : bool :=
  let parts := split "." str in
  (2 <=? List.length parts)%nat
  && is_tld (last parts "")
  && forallb is_label parts.

(** The pattern of an unquoted local part, between its dots. *)
Definition user_char (a : ascii) : bool :=
  is_letter a || is_digit a
  || has_char a "!#$%&'*+-/=?^_`{|}~"
  || between 161 255 a.

Definition is_user_part (s : string) : bool :=
  negb (isEmpty s) && all_chars user_char s.

(** The pattern of a quoted local part, read between its first and its
    last code unit: any code unit but U+0000, the quote, the backslash
    and U+0080 to U+009F, or a backslash and any code unit but U+0000,
    LF and U+0080 to U+009F. *)
Definition quoted_char (a : ascii) : bool :=
  negb ((code a =? 0) || (code a =? 34) || (code a =? 92))%nat
  && negb (between 128 159 a).

Definition escaped_char (a : ascii) : bool :=
  negb ((code a =? 0) || (code a =? 10))%nat && negb (between 128 159 a).

Fixpoint is_quoted (s : string) : bool :=
  match s with
  | EmptyString => true
  | String a s' =>
      if (code a =? 92)%nat then
        match s' with
        | String b s'' => escaped_char b && is_quoted s''
        | EmptyString => false
        end
      else quoted_char a && is_quoted s'
  end.

(** [user.slice(1, user.length - 1)] *)
Definition inner (user : string) : string :=
  match user with
  | String _ rest =>
      string_of_list_ascii (removelast (list_ascii_of_string rest))
  | EmptyString => EmptyString
  end.

(** [isEmail(str)] *)
Definition isEmail_defaults (str : string) : bool :=
  if (254 <? String.length str)%nat then false
  else
    let parts := split "@" str in
    let domain := last parts "" in
    let user := join "@" (removelast parts) in
    if ((64 <? byte_length user) || (254 <? byte_length domain))%nat then false
    else if negb (isFQDN domain) then false
    else
      match user with
      | String a _ =>
          if (code a =? 34)%nat then is_quoted (inner user)
          else forallb is_user_part (split "." user)
      | EmptyString => false
      end.

(** validator.js 13 as the server loads it. *)
Definition validator_js_13 : validator_js := validator_13 isEmail_defaults.

End Validator.
Import Validator.

(** ** The relational store: the [contacts] table and the statements the
       server issues against it *)

Module Pg.

(** A statement parameter as node-pg puts it on the wire: text, the
    decimal text of a number, or NULL (for [undefined]). *)
Inductive param : Type :=
| PText (s : string)
| PInt (z : Z)
| PNull.

(** What a rejected [pool.query] promise carries: [error.code] (the
    SQLSTATE, when the engine produced the error) and [error.message]. *)
Record pg_error : Type := { code : option string; error_message : string }.

(** How [await pool.query(text, params)] completes. *)
Inductive outcome : Type :=
| Rows (rows : list json)
| Rejected (e : pg_error).

Definition sqlstate (c m : string) : outcome :=
  Rejected {| code := Some c; error_message := m |}.

(** *** Schema, from [CREATE TABLE IF NOT EXISTS contacts] *)

Inductive sql_type : Type :=
| SERIAL | VARCHAR (n : nat) | TEXT | INET | TIMESTAMPTZ.

Inductive column_constraint : Type :=
| PRIMARY_KEY | NOT_NULL | UNIQUE | DEFAULT_CURRENT_TIMESTAMP.

Record column_def : Type := {
  column_name : string;
  column_type : sql_type;
  constraints : list column_constraint
}.

Definition contacts_columns : list column_def :=
  [ {| column_name := "id"; column_type := SERIAL;
       constraints := [PRIMARY_KEY] |};
    {| column_name := "name"; column_type := VARCHAR 100;
       constraints := [NOT_NULL] |};
    {| column_name := "email"; column_type := VARCHAR 100;
       constraints := [NOT_NULL] |};
    {| column_name := "message"; column_type := TEXT;
       constraints := [NOT_NULL] |};
    {| column_name := "ip_address"; column_type := INET;
       constraints := [] |};
    {| column_name := "user_agent"; column_type := TEXT;
       constraints := [] |};
    {| column_name := "created_at"; column_type := TIMESTAMPTZ;
       constraints := [DEFAULT_CURRENT_TIMESTAMP] |};
    {| column_name := "updated_at"; column_type := TIMESTAMPTZ;
       constraints := [DEFAULT_CURRENT_TIMESTAMP] |} ].

(** [CREATE INDEX IF NOT EXISTS ... ON contacts(...)]; neither is declared
    [UNIQUE]. *)
Record index_def : Type := {
  index_name : string;
  index_column : string;
  index_unique : bool
}.

Definition contacts_indexes : list index_def :=
  [ {| index_name := "idx_contacts_email"; index_column := "email";
       index_unique := false |};
    {| index_name := "idx_contacts_created_at"; index_column := "created_at";
       index_unique := false |} ].

Definition is_uniqueness (c : column_constraint) : bool :=
  match c with
  | PRIMARY_KEY | UNIQUE => true
  | _ => false
  end.

Definition is_not_null (c : column_constraint) : bool :=
  match c with
  | PRIMARY_KEY | NOT_NULL => true
  | _ => false
  end.

(** The columns on which the engine enforces uniqueness. *)
Definition unique_columns : list string :=
  (map column_name
       (filter (fun c => existsb is_uniqueness (constraints c)) contacts_columns)
   ++ map index_column (filter index_unique contacts_indexes))%list.

(** *** Rows and table state *)

Record row : Type := {
  id : Z;
  name : string;
  email : string;
  message : string;
  ip_address : option string;
  user_agent : option string;
  created_at : Z;
  updated_at : Z
}.

Inductive datum : Type :=
| DInt (z : Z)
| DText (s : string)
| DTime (t : Z)
| DNull.

Definition nullable (o : option string) : datum :=
  match o with
  | Some s => DText s
  | None => DNull
  end.

Definition cell (c : string) (r : row) : datum :=
  if (c =? "id")%string then DInt (id r)
  else if (c =? "name")%string then DText (name r)
  else if (c =? "email")%string then DText (email r)
  else if (c =? "message")%string then DText (message r)
  else if (c =? "ip_address")%string then nullable (ip_address r)
  else if (c =? "user_agent")%string then nullable (user_agent r)
  else if (c =? "created_at")%string then DTime (created_at r)
  else if (c =? "updated_at")%string then DTime (updated_at r)
  else DNull.

(** SQL [=] as a uniqueness check sees it: NULL equals nothing. *)
Definition same_datum (a b : datum) : bool :=
  match a, b with
  | DInt x, DInt y => x =? y
  | DText x, DText y => (x =? y)%string
  | DTime x, DTime y => x =? y
  | _, _ => false
  end.

(** The table in heap order and the last value handed out by
    [contacts_id_seq]. *)
Record database : Type := {
  contacts : list row;
  contacts_id_seq : Z
}.

(** How a value reaches the client through node-pg's type parsers. *)
Definition json_of_datum (d : datum) : json :=
  match d with
  | DInt z => JNum z
  | DText s => JStr s
  | DTime t => JDate t
  | DNull => JNull
  end.

(** [SELECT c1, c2, ...] / [RETURNING c1, c2, ...] of one row. *)
Definition project (cols : list string) (r : row) : json :=
  JObj (map (fun c => (c, json_of_datum (cell c r))) cols).

(** [int8] reaches the client as decimal text. *)
Definition bigint (n : nat) : json := JStr (decimal (Z.of_nat n)).

(** *** Statement texts *)

Definition insert_contact_sql : string :=
  "INSERT INTO contacts (name, email, message, ip_address, user_agent) 
       VALUES ($1, $2, $3, $4::inet, $5) 
       RETURNING id, name, email, created_at".

Definition select_contacts_sql : string :=
  "SELECT id, name, email, created_at FROM contacts".

Definition count_contacts_sql : string :=
  "SELECT COUNT(*) FROM contacts".

Definition delete_contact_sql : string :=
  "DELETE FROM contacts WHERE id = $1 RETURNING id, email".

Definition metrics_sql : string :=
  "
      SELECT 
        COUNT(*) as total_contacts,
        COUNT(DISTINCT email) as unique_emails,
        DATE(created_at) as date,
        COUNT(*) as daily_count
      FROM contacts
      WHERE created_at >= CURRENT_DATE - INTERVAL '30 days'
      GROUP BY DATE(created_at)
      ORDER BY date DESC
    ".

(** *** Reading the statements *)

Inductive predicate : Type :=
| EmailEq (n : nat)          (* email = $n *)
| CreatedGe (n : nat)        (* created_at >= $n *)
| CreatedLe (n : nat).       (* created_at <= $n *)

Inductive statement : Type :=
| InsertContact
| SelectContacts (where_ : list predicate) (limit offset : nat)
| CountContacts (where_ : list predicate)
| DeleteContact
| SelectMetrics.

Fixpoint strip_prefix (p s : string) : option string :=
  match p, s with
  | EmptyString, _ => Some s
  | String a p', String b s' =>
      if Ascii.eqb a b then strip_prefix p' s' else None
  | String _ _, EmptyString => None
  end.

Definition digit (a : ascii) : option nat :=
  let n := nat_of_ascii a in
  if ((48 <=? n) && (n <=? 57))%nat then Some (n - 48)%nat else None.

Fixpoint digits (acc : nat) (s : string) : nat * string :=
  match s with
  | EmptyString => (acc, EmptyString)
  | String a s' =>
      match digit a with
      | Some d => digits (10 * acc + d) s'
      | None => (acc, s)
      end
  end.

(** [$n] *)
Definition placeholder (s : string) : option (nat * string) :=
  match s with
  | String "$" (String a _ as r) =>
      match digit a with
      | Some _ =>
          let '(n, rest) := digits 0 r in
          if (n =? 0)%nat then None else Some (n, rest)
      | None => None
      end
  | _ => None
  end.

Definition parse_predicate (s : string) : option (predicate * string) :=
  match strip_prefix "email = " s with
  | Some r => option_map (fun nr => (EmailEq (fst nr), snd nr)) (placeholder r)
  | None =>
  match strip_prefix "created_at >= " s with
  | Some r => option_map (fun nr => (CreatedGe (fst nr), snd nr)) (placeholder r)
  | None =>
  match strip_prefix "created_at <= " s with
  | Some r => option_map (fun nr => (CreatedLe (fst nr), snd nr)) (placeholder r)
  | None => None
  end end end.

Fixpoint parse_conjunction (fuel : nat) (s : string)
  : option (list predicate * string) :=
  match fuel with
  | O => None
  | S fuel' =>
      match parse_predicate s with
      | None => None
      | Some (p, r) =>
          match strip_prefix " AND " r with
          | Some r' =>
              option_map (fun psr => (p :: fst psr, snd psr))
                         (parse_conjunction fuel' r')
          | None => Some ([p], r)
          end
      end
  end.

Definition parse_where (s : string) : option (list predicate * string) :=
  match strip_prefix " WHERE " s with
  | Some r => parse_conjunction (String.length r) r
  | None => Some ([], s)
  end.

Definition parse_select_contacts (text : string) : option statement :=
  match strip_prefix select_contacts_sql text with
  | None => None
  | Some r =>
  match parse_where r with
  | None => None
  | Some (ps, r) =>
  match strip_prefix " ORDER BY created_at DESC LIMIT " r with
  | None => None
  | Some r =>
  match placeholder r with
  | None => None
  | Some (l, r) =>
  match strip_prefix " OFFSET " r with
  | None => None
  | Some r =>
  match placeholder r with
  | Some (o, EmptyString) => Some (SelectContacts ps l o)
  | _ => None
  end end end end end end.

Definition parse_count_contacts (text : string) : option statement :=
  match strip_prefix count_contacts_sql text with
  | None => None
  | Some r =>
  match parse_where r with
  | Some (ps, EmptyString) => Some (CountContacts ps)
  | _ => None
  end end.

Definition parse (text : string) : option statement :=
  if (text =? insert_contact_sql)%string then Some InsertContact
  else if (text =? delete_contact_sql)%string then Some DeleteContact
  else if (text =? metrics_sql)%string then Some SelectMetrics
  else match parse_select_contacts text with
       | Some st => Some st
       | None => parse_count_contacts text
       end.

Definition predicate_placeholder (p : predicate) : nat :=
  match p with
  | EmailEq n | CreatedGe n | CreatedLe n => n
  end.

(** The number of parameters the statement must be bound with. *)
Definition arity (st : statement) : nat :=
  match st with
  | InsertContact => 5
  | SelectContacts ps l o =>
      fold_right Nat.max (Nat.max l o) (map predicate_placeholder ps)
  | CountContacts ps => fold_right Nat.max 0%nat (map predicate_placeholder ps)
  | DeleteContact => 1
  | SelectMetrics => 0
  end.

(** *** Executing the statements *)

(** What the session and the client contribute: the engine's reading of
    timestamp text ([timestamptz_in], none when the text is not a
    timestamp) and of inet text; the session time zone as an offset from
    UTC in microseconds; the order the executor gives to rows with equal
    sort keys, as a rank per row that may differ with the instant, the
    parameters and the rows at hand; and node-pg's reading of a [date],
    the instant of midnight of that day in the zone of the server
    process. *)
Record session : Type := {
  timestamptz_in : string -> option Z;
  inet_in : string -> bool;
  utc_offset : Z;
  tie_rank : Z -> list param -> list row -> row -> Z;
  local_midnight : Z -> Z
}.

Definition day : Z := 86400000000.

Fixpoint insert_desc {A : Type} (key : A -> Z) (x : A) (l : list A) : list A :=
  match l with
  | [] => [x]
  | y :: l' => if key y <? key x then x :: l else y :: insert_desc key x l'
  end.

(** Sorting by [key], largest first, by insertion from the end of the
    list: elements with equal keys come out in the reverse of their order
    in [l]. *)
Definition order_by_desc {A : Type} (key : A -> Z) (l : list A) : list A :=
  fold_right (insert_desc key) [] l.

(** [ORDER BY created_at DESC]: rows with equal [created_at] in the order
    of their ranks, which the engine leaves open. *)
Definition by_created_at_desc (rank : row -> Z) (rows : list row) : list row :=
  order_by_desc created_at (order_by_desc rank rows).

Definition text_in (p : param) : option string :=
  match p with
  | PText s => Some s
  | PInt z => Some (decimal z)
  | PNull => None
  end.

Definition dquote : string := String (ascii_of_nat 34) EmptyString.

(** U+0000, which the engine takes in no text. *)
Definition has_nul (s : string) : bool := has_char Ascii.zero s.

Definition nul_param (p : param) : bool :=
  match p with
  | PText s => has_nul s
  | _ => false
  end.

Definition invalid_byte_sequence : outcome :=
  sqlstate "22021"
    ("invalid byte sequence for encoding " ++ dquote ++ "UTF8" ++ dquote
     ++ ": 0x00").

Definition invalid_integer : outcome :=
  sqlstate "22P02" "invalid input syntax for type bigint".

Definition out_of_range (type : string) (z : Z) : outcome :=
  sqlstate "22003"
    ("value " ++ dquote ++ decimal z ++ dquote
     ++ " is out of range for type " ++ type).

(** Reading a parameter of an integer type with the given bounds: NULL
    ([inl None]), the integer, or the error the engine raises. *)
Definition integer_in (type : string) (lo hi : Z) (p : param)
  : option Z + outcome :=
  match p with
  | PNull => inl None
  | PInt z =>
      if (lo <=? z) && (z <=? hi) then inl (Some z)
      else inr (out_of_range type z)
  | PText s =>
      if has_nul s then inr invalid_byte_sequence
      else match parseInt s with
           | Some z =>
               if (lo <=? z) && (z <=? hi) then inl (Some z)
               else inr (out_of_range type z)
           | None => inr invalid_integer
           end
  end.

(** [integer], the type of [id], and [bigint], the type of LIMIT and
    OFFSET. *)
Definition int4_in : param -> option Z + outcome :=
  integer_in "integer" (-2147483648) 2147483647.

Definition int8_in : param -> option Z + outcome :=
  integer_in "bigint" (-9223372036854775808) 9223372036854775807.

(** [nextval('contacts_id_seq')]: the sequence of a [SERIAL] column hands
    out the integers from 1 to 2147483647, each once. *)
Definition nextval (db : database) : option Z :=
  let n := contacts_id_seq db + 1 in
  if (1 <=? n) && (n <=? 2147483647) then Some n else None.

Definition sequence_exhausted : outcome :=
  sqlstate "2200H"
    ("nextval: reached maximum value of sequence " ++ dquote
     ++ "contacts_id_seq" ++ dquote ++ " (2147483647)").

Definition insert_columns : list string :=
  ["name"; "email"; "message"; "ip_address"; "user_agent"].

Definition assigned (params : list param) (c : string) : option param :=
  option_map snd
    (find (fun cp => (fst cp =? c)%string) (combine insert_columns params)).

Definition violates_not_null (params : list param) : bool :=
  existsb (fun c =>
             existsb is_not_null (constraints c)
             && match assigned params (column_name c) with
                | Some PNull => true
                | _ => false
                end)
          contacts_columns.

Definition violates_length (params : list param) : bool :=
  existsb (fun c =>
             match column_type c, assigned params (column_name c) with
             | VARCHAR n, Some p =>
                 match text_in p with
                 | Some s => (n <? String.length s)%nat
                 | None => false
                 end
             | _, _ => false
             end)
          contacts_columns.

Definition violates_unique (rows : list row) (new : row) : bool :=
  existsb (fun c => existsb (fun r => same_datum (cell c r) (cell c new)) rows)
          unique_columns.

Definition text_or_empty (p : param) : string :=
  match text_in p with
  | Some s => s
  | None => EmptyString
  end.

Section Exec.
Variable ses : session.
Variable now : Z.            (* CURRENT_TIMESTAMP of the statement *)

(** [DATE(t)] in the session time zone, as a day number. *)
Definition DATE (t : Z) : Z := (t + utc_offset ses) / day.

Definition CURRENT_DATE : Z := DATE now.

(** Reading the five parameters of the insert in their order (text
    without U+0000, an address the engine reads as inet): the error of
    the first one the engine refuses. *)
Definition insert_refused (params : list param) : option outcome :=
  let p i := nth i params PNull in
  if nul_param (p 0%nat) || nul_param (p 1%nat) || nul_param (p 2%nat)
     || nul_param (p 3%nat) then
    Some invalid_byte_sequence
  else if match text_in (p 3%nat) with
          | Some a => negb (inet_in ses a)
          | None => false
          end then
    Some (sqlstate "22P02" "invalid input syntax for type inet")
  else if nul_param (p 4%nat) then Some invalid_byte_sequence
  else None.

(** The insert.  Its uniqueness branch needs a stored id that the
    sequence has not handed out yet; the sequence value the engine has
    consumed by then is not recorded. *)
Definition exec_insert (db : database) (params : list param)
  : outcome * database :=
  match params with
  | [p1; p2; p3; p4; p5] =>
      match insert_refused params with
      | Some e => (e, db)
      | None =>
      if violates_not_null params then
        (sqlstate "23502" "null value violates not-null constraint", db)
      else if violates_length params then
        (sqlstate "22001" "value too long for type character varying(100)", db)
      else
        match nextval db with
        | None => (sequence_exhausted, db)
        | Some i =>
            let new := {| id := i;
                          name := text_or_empty p1;
                          email := text_or_empty p2;
                          message := text_or_empty p3;
                          ip_address := text_in p4;
                          user_agent := text_in p5;
                          created_at := now;
                          updated_at := now |} in
            if violates_unique (contacts db) new then
              (sqlstate "23505"
                 "duplicate key value violates unique constraint", db)
            else
              (Rows [project ["id"; "name"; "email"; "created_at"] new],
               {| contacts := (contacts db ++ [new])%list;
                  contacts_id_seq := i |})
        end
      end
  | _ => (sqlstate "08P01" "bind message supplies the wrong number of parameters", db)
  end.

Definition bind_timestamp (o : option param) (cmp : Z -> Z -> bool)
  : (row -> bool) + outcome :=
  match o with
  | Some p =>
      match text_in p with
      | Some s =>
          if has_nul s then inr invalid_byte_sequence
          else
            match timestamptz_in ses s with
            | Some t => inl (fun r => cmp (created_at r) t)
            | None =>
                inr (sqlstate "22007"
                       "invalid input syntax for type timestamp with time zone")
            end
      | None => inl (fun _ => false)
      end
  | None => inl (fun _ => false)
  end.

Definition bind_predicate (params : list param) (p : predicate)
  : (row -> bool) + outcome :=
  match p with
  | EmailEq n =>
      match nth_error params (n - 1) with
      | Some q =>
          match text_in q with
          | Some s =>
              if has_nul s then inr invalid_byte_sequence
              else inl (fun r => (email r =? s)%string)
          | None => inl (fun _ => false)
          end
      | None => inl (fun _ => false)
      end
  | CreatedGe n => bind_timestamp (nth_error params (n - 1)) Z.geb
  | CreatedLe n => bind_timestamp (nth_error params (n - 1)) Z.leb
  end.

Fixpoint bind_where (params : list param) (ps : list predicate)
  : (row -> bool) + outcome :=
  match ps with
  | [] => inl (fun _ => true)
  | p :: ps' =>
      match bind_predicate params p with
      | inr e => inr e
      | inl f =>
          match bind_where params ps' with
          | inr e => inr e
          | inl g => inl (fun r => f r && g r)
          end
      end
  end.

(** The row statement: the filter parameters are read first, then the
    limit and the offset; NULL for either means none.  When it runs,
    the offset is looked at before the limit. *)
Definition exec_select_contacts (db : database) (ps : list predicate)
  (l o : nat) (params : list param) : outcome :=
  match bind_where params ps with
  | inr e => e
  | inl f =>
      match option_map int8_in (nth_error params (l - 1)) with
      | None => invalid_integer
      | Some (inr e) => e
      | Some (inl lim) =>
      match option_map int8_in (nth_error params (o - 1)) with
      | None => invalid_integer
      | Some (inr e) => e
      | Some (inl off) =>
          let candidates := filter f (contacts db) in
          let matching :=
            by_created_at_desc (tie_rank ses now params candidates) candidates in
          match
            match off with
            | Some off =>
                if off <? 0
                then inr (sqlstate "2201X" "OFFSET must not be negative")
                else inl (skipn (Z.to_nat off) matching)
            | None => inl matching
            end
          with
          | inr e => e
          | inl rest =>
              match lim with
              | Some lim =>
                  if lim <? 0
                  then sqlstate "2201W" "LIMIT must not be negative"
                  else Rows (map (project ["id"; "name"; "email"; "created_at"])
                                 (firstn (Z.to_nat lim) rest))
              | None =>
                  Rows (map (project ["id"; "name"; "email"; "created_at"]) rest)
              end
          end
      end end
  end.

Definition exec_count_contacts (db : database) (ps : list predicate)
  (params : list param) : outcome :=
  match bind_where params ps with
  | inr e => e
  | inl f =>
      Rows [JObj [("count", bigint (List.length (filter f (contacts db))))]]
  end.

Definition exec_delete (db : database) (params : list param)
  : outcome * database :=
  match option_map int4_in (nth_error params 0) with
  | Some (inl (Some i)) =>
      (Rows (map (project ["id"; "email"])
                 (filter (fun r => id r =? i) (contacts db))),
       {| contacts := filter (fun r => negb (id r =? i)) (contacts db);
          contacts_id_seq := contacts_id_seq db |})
  | Some (inl None) => (Rows [], db)
  | Some (inr e) => (e, db)
  | None => (invalid_integer, db)
  end.

(** One group of the metrics statement. *)
Record metrics_row : Type := {
  total_contacts : nat;
  unique_emails : nat;
  date : Z;
  daily_count : nat
}.

(** [WHERE created_at >= CURRENT_DATE - INTERVAL '30 days']: the right
    side is midnight, session time, thirty days before today. *)
Definition recent (r : row) : bool :=
  created_at r >=? (CURRENT_DATE - 30) * day - utc_offset ses.

Definition metrics_groups (rows : list row) : list metrics_row :=
  let selected := filter recent rows in
  let dates :=
    order_by_desc (fun d => d)
                  (nodup Z.eq_dec (map (fun r => DATE (created_at r)) selected)) in
  map (fun d =>
         let group := filter (fun r => DATE (created_at r) =? d) selected in
         {| total_contacts := List.length group;
            unique_emails :=
              List.length (nodup string_dec (map email group));
            date := d;
            daily_count := List.length group |})
      dates.

Definition json_of_metrics_row (m : metrics_row) : json :=
  JObj [ ("total_contacts", bigint (total_contacts m));
         ("unique_emails", bigint (unique_emails m));
         ("date", JDate (local_midnight ses (date m)));
         ("daily_count", bigint (daily_count m)) ].

Definition exec (db : database) (st : statement) (params : list param)
  : outcome * database :=
  match st with
  | InsertContact => exec_insert db params
  | SelectContacts ps l o => (exec_select_contacts db ps l o params, db)
  | CountContacts ps => (exec_count_contacts db ps params, db)
  | DeleteContact => exec_delete db params
  | SelectMetrics =>
      (Rows (map json_of_metrics_row (metrics_groups (contacts db))), db)
  end.

(** [pool.query(text, params)] against the table. *)
Definition query (db : database) (text : string) (params : list param)
  : outcome * database :=
  match parse text with
  | None => (sqlstate "42601" "syntax error", db)
  | Some st =>
      if (List.length params =? arity st)%nat then exec db st params
      else (sqlstate "08P01"
              "bind message supplies the wrong number of parameters", db)
  end.

End Exec.

End Pg.

(** ** The Express handlers of [server.js] *)

Module Server.
Import Pg.

(** [process.env], as far as the handlers read it. *)
Record process_env : Type := {
  NODE_ENV : option string;
  ADMIN_API_KEY : option string
}.

(** [a === b] on values that are a string or [undefined]. *)
Definition strict_eq (a b : option string) : bool :=
  match a, b with
  | Some x, Some y => (x =? y)%string
  | None, None => true
  | _, _ => false
  end.

(** Truthiness of a query-string value: [undefined] and the empty string
    are falsy. *)
Definition truthy (o : option string) : bool :=
  match o with
  | Some (String _ _) => true
  | _ => false
  end.

(** A number in a JSON body; NaN and the infinities are written [null]. *)
Definition number (o : option Z) : json :=
  match o with
  | Some z => JNum z
  | None => JNull
  end.

(** [Number(x)] / [parseInt(x)] of a value read from a result row. *)
Definition to_number (x : option json) : option Z :=
  match x with
  | Some (JNum z) => Some z
  | Some (JStr s) => parseInt s
  | _ => None
  end.

(** [Math.ceil(a / b)] on integers; dividing by zero leaves no finite
    number. *)
Definition ceil_div (a : option Z) (b : Z) : option Z :=
  match a with
  | Some a => if b =? 0 then None else Some (- ((- a) / b))
  | None => None
  end.

(** node-pg's [prepareValue] on a request-body field. *)
Definition prepare_field (v : field_value) : param :=
  match v with
  | Text s => PText s
  | False_ => PText "false"
  | Missing => PNull
  end.

Definition prepare_optional (o : option string) : param :=
  match o with
  | Some s => PText s
  | None => PNull
  end.

(** [POST /api/contacts] *)
Module Post.
Record request : Type := {
  body : contact_body;
  ip : option string;               (* req.ip *)
  user_agent : option string        (* req.get('User-Agent') *)
}.
End Post.

(** [GET /api/contacts]: [req.query] *)
Module Query.
Record request : Type := {
  page : option Z;
  limit : option Z;
  email : option string;
  startDate : option string;
  endDate : option string
}.
End Query.

(** [DELETE /api/contacts/:id] *)
Module Delete.
Record request : Type := {
  id : Z;                           (* req.params.id *)
  x_api_key : option string         (* req.get('X-API-Key') *)
}.
End Delete.

(** The two statements of the list handler and their parameters. *)
Record list_statements : Type := {
  query : string;
  params : list param;
  countQuery : string;
  countParams : list param;           (* params.slice(0, paramCount) *)
  paramCount : nat
}.

(** One [if (filter) { paramCount++; conditions.push(...); params.push(...) }]. *)
Definition push_filter (lhs : string) (v : option string)
  (st : list string * list param * nat) : list string * list param * nat :=
  let '(conditions, params, paramCount) := st in
  if truthy v then
    let paramCount := S paramCount in
    let condition := lhs ++ "$" ++ decimal (Z.of_nat paramCount) in
    ((conditions ++ [condition])%list,
     (params ++ [prepare_optional v])%list,
     paramCount)
  else st.

Definition page_of (q : Query.request) : Z :=
  match Query.page q with Some p => p | None => 1 end.

Definition limit_of (q : Query.request) : Z :=
  match Query.limit q with Some l => l | None => 10 end.

Definition build_list_statements (q : Query.request) : list_statements :=
  let page := page_of q in
  let limit := limit_of q in
  let offset := (page - 1) * limit in
  let query := select_contacts_sql in
  let countQuery := count_contacts_sql in
  let st := ([], [], O) in
  let st := push_filter "email = " (Query.email q) st in
  let st := push_filter "created_at >= " (Query.startDate q) st in
  let st := push_filter "created_at <= " (Query.endDate q) st in
  let '(conditions, params, paramCount) := st in
  let '(query, countQuery) :=
    if (0 <? List.length conditions)%nat then
      let whereClause := " WHERE " ++ String.concat " AND " conditions in
      (query ++ whereClause, countQuery ++ whereClause)
    else (query, countQuery) in
  let query :=
    query ++ " ORDER BY created_at DESC LIMIT $"
          ++ decimal (Z.of_nat (paramCount + 1))
          ++ " OFFSET $" ++ decimal (Z.of_nat (paramCount + 2)) in
  let params := (params ++ [PInt limit; PInt offset])%list in
  {| query := query;
     params := params;
     countQuery := countQuery;
     countParams := firstn paramCount params;
     paramCount := paramCount |}.

Section Handlers.
Variable V : validator_js.
Variable env : process_env.
(** The pool: some store, and what [pool.query] does to it. *)
Variable store : Type.
Variable pool : store -> string -> list param -> outcome * store.

(** The store together with the statements sent to it so far. *)
Record world : Type := {
  db : store;
  issued : list (string * list param)
}.

Definition M (A : Type) : Type := world -> A * world.
Definition ret {A : Type} (a : A) : M A := fun w => (a, w).
Definition bind {A B : Type} (m : M A) (k : A -> M B) : M B :=
  fun w => let '(a, w') := m w in k a w'.

Notation "x <- m ;; k" := (bind m (fun x => k))
  (at level 61, m at next level, right associativity).

Definition pool_query (text : string) (ps : list param) : M outcome :=
  fun w =>
    let '(o, s) := pool (db w) text ps in
    (o, {| db := s; issued := (issued w ++ [(text, ps)])%list |}).

(** [process.env.NODE_ENV === 'development' ? error.message : undefined] *)
Definition details (e : pg_error) : option json :=
  if strict_eq (NODE_ENV env) (Some "development")
  then Some (JStr (error_message e)) else None.

Definition failure (what : string) (e : pg_error) : response :=
  Response 500 (object [ ("error", Some (JStr what)); ("details", details e) ]).

(** [[name, email, message, ipAddress, userAgent]], read from the body
    the chains have rewritten. *)
Definition insert_params (req : Post.request) : list param :=
  let b := sanitized V (Post.body req) in
  [ prepare_field (Validator.name b);
    prepare_field (Validator.email b);
    prepare_field (Validator.message b);
    prepare_optional (Post.ip req);
    prepare_optional (Post.user_agent req) ].

(** [app.post('/api/contacts', validateContact, async (req, res) => ...)] *)
Definition post_contacts (req : Post.request) : M response :=
  let errors := validationResult V (Post.body req) in
  match errors with
  | _ :: _ =>
      ret (Response 400
             (object [ ("error", Some (JStr "Validation failed"));
                       ("details", Some (JArr (map json_of_error errors))) ]))
  | [] =>
      result <- pool_query insert_contact_sql (insert_params req) ;;
      match result with
      | Rows rows =>
          ret (Response 201
                 (object [ ("success", Some (JBool true));
                           ("message", Some (JStr "Contact saved successfully"));
                           ("data", nth_error rows 0) ]))
      | Rejected error =>
          if strict_eq (code error) (Some "23505") then
            ret (Response 409
                   (object [ ("error", Some (JStr "Duplicate submission detected")) ]))
          else ret (failure "Failed to save contact" error)
      end
  end.

(** [app.get('/api/contacts', ...)] *)
Definition get_contacts (q : Query.request) : M response :=
  let s := build_list_statements q in
  result <- pool_query (query s) (params s) ;;
  countResult <- pool_query (countQuery s) (countParams s) ;;
  match result, countResult with
  | Rejected error, _ => ret (failure "Failed to fetch contacts" error)
  | _, Rejected error => ret (failure "Failed to fetch contacts" error)
  | Rows rows, Rows countRows =>
      match nth_error countRows 0 with
      | None =>
          ret (failure "Failed to fetch contacts"
                 {| code := None;
                    error_message :=
                      "Cannot read properties of undefined (reading 'count')" |})
      | Some first =>
          let count := member "count" first in
          ret (Response 200
                 (object
                    [ ("success", Some (JBool true));
                      ("data", Some (JArr rows));
                      ("pagination",
                       Some (object
                               [ ("page", Some (number (Some (page_of q))));
                                 ("limit", Some (number (Some (limit_of q))));
                                 ("total", Some (number (to_number count)));
                                 ("totalPages",
                                  Some (number (ceil_div (to_number count)
                                                         (limit_of q)))) ])) ]))
      end
  end.

(** [app.delete('/api/contacts/:id', ...)] *)
Definition delete_contact (req : Delete.request) : M response :=
  let apiKey := Delete.x_api_key req in
  if strict_eq (NODE_ENV env) (Some "production")
     && negb (strict_eq apiKey (ADMIN_API_KEY env))
  then ret (Response 401 (object [ ("error", Some (JStr "Unauthorized")) ]))
  else
    result <- pool_query delete_contact_sql [PInt (Delete.id req)] ;;
    match result with
    | Rows [] =>
        ret (Response 404 (object [ ("error", Some (JStr "Contact not found")) ]))
    | Rows (first :: _) =>
        ret (Response 200
               (object [ ("success", Some (JBool true));
                         ("message", Some (JStr "Contact deleted successfully"));
                         ("data", Some first) ]))
    | Rejected error => ret (failure "Failed to delete contact" error)
    end.

(** [app.get('/api/metrics', ...)] *)
Definition get_metrics : M response :=
  result <- pool_query metrics_sql [] ;;
  match result with
  | Rows rows =>
      ret (Response 200
             (object [ ("success", Some (JBool true));
                       ("data", Some (JArr rows)) ]))
  | Rejected error => ret (failure "Failed to fetch metrics" error)
  end.

End Handlers.

Arguments db {store} _.
Arguments issued {store} _.

(** A fresh world around a store: nothing sent yet. *)
Definition fresh {store : Type} (s : store) : world store :=
  {| db := s; issued := [] |}.

End Server.

(** ** The list request, as its contract reads it *)

Module ListSpec.
Import Pg Server.

(** The value of a filter, when the request carries it. *)
Definition present (v : option string) : list param :=
  if truthy v then [prepare_optional v] else [].

(** The filter parameters: the values of the filters the request carries,
    in the order [email], [startDate], [endDate]. *)
Definition filter_parameters (q : Query.request) : list param :=
  (present (Query.email q) ++ present (Query.startDate q)
   ++ present (Query.endDate q))%list.

(** A filter the engine takes as text: no filter, or text without
    U+0000. *)
Definition clean (v : option string) : bool :=
  match v with
  | Some (String _ _ as s) => negb (has_nul s)
  | _ => true
  end.

(** A date filter the engine can read as a timestamp (or no filter). *)
Definition readable (ses : session) (v : option string) : bool :=
  match v with
  | Some (String _ _ as s) =>
      negb (has_nul s)
      && match timestamptz_in ses s with
         | Some _ => true
         | None => false
         end
  | _ => true
  end.

(** Whether a stored row passes the filters: [email] by exact match,
    [startDate] and [endDate] as inclusive bounds on [created_at]. *)
Definition matches (ses : session) (q : Query.request) (r : row) : bool :=
  match Query.email q with
  | Some (String _ _ as e) => (Pg.email r =? e)%string
  | _ => true
  end
  && match Query.startDate q with
     | Some (String _ _ as s) =>
         match timestamptz_in ses s with
         | Some t => Pg.created_at r >=? t
         | None => false
         end
     | _ => true
     end
  && match Query.endDate q with
     | Some (String _ _ as s) =>
         match timestamptz_in ses s with
         | Some t => Pg.created_at r <=? t
         | None => false
         end
     | _ => true
     end.

(** The WHERE clause of the request: one predicate per filter carried,
    numbered in the order they are pushed. *)
Definition where_of (q : Query.request) : list predicate :=
  let n1 := if truthy (Query.email q) then 1%nat else 0%nat in
  let n2 := (n1 + if truthy (Query.startDate q) then 1 else 0)%nat in
  let n3 := (n2 + if truthy (Query.endDate q) then 1 else 0)%nat in
  ((if truthy (Query.email q) then [EmailEq n1] else [])
   ++ (if truthy (Query.startDate q) then [CreatedGe n2] else [])
   ++ (if truthy (Query.endDate q) then [CreatedLe n3] else []))%list.

(** Newest first. *)
Definition newest_first (a b : row) : Prop :=
  Pg.created_at a >= Pg.created_at b.

End ListSpec.

(** ** Deleting and creating, as their contracts read them *)

Module StoreSpec.
Import Pg Server.

(** The caller may delete: outside production anyone, in production the
    caller whose [X-API-Key] is the configured admin key. *)
Definition authorized (env : process_env) (req : Delete.request) : Prop :=
  NODE_ENV env = Some "production" ->
  Delete.x_api_key req = ADMIN_API_KEY env.

(** Every stored id was handed out by the sequence. *)
Definition serial_ids (db : database) : Prop :=
  Forall (fun r => Pg.id r <= contacts_id_seq db) (contacts db).

(** The row an accepted insert adds. *)
Definition inserted (now : Z) (db : database) (ps : list param) : row :=
  {| Pg.id := contacts_id_seq db + 1;
     Pg.name := text_or_empty (nth 0 ps PNull);
     Pg.email := text_or_empty (nth 1 ps PNull);
     Pg.message := text_or_empty (nth 2 ps PNull);
     ip_address := text_in (nth 3 ps PNull);
     user_agent := text_in (nth 4 ps PNull);
     created_at := now;
     updated_at := now |}.

(** The id of the row a response carries in [data]. *)
Definition data_id (r : response) : option json :=
  match member "data" (body r) with
  | Some d => member "id" d
  | None => None
  end.

End StoreSpec.

(** ** Concrete requests and stores *)

Module Examples.
Import Pg Server.

(** A session and a server process in UTC: it reads no text as a
    timestamp and only the loopback address as inet, and returns rows of
    equal [created_at] in heap order. *)
Definition utc : session :=
  {| timestamptz_in := fun _ => None;
     inet_in := fun a => (a =? "127.0.0.1")%string;
     utc_offset := 0;
     tie_rank := fun _ _ _ _ => 0;
     local_midnight := fun d => d * day |}.

Definition production : process_env :=
  {| NODE_ENV := Some "production"; ADMIN_API_KEY := Some "s3cret" |}.

Definition development : process_env :=
  {| NODE_ENV := Some "development"; ADMIN_API_KEY := None |}.

Definition empty_db : database := {| contacts := []; contacts_id_seq := 0 |}.

Definition submit (b : contact_body) : Post.request :=
  {| Post.body := b; Post.ip := Some "127.0.0.1"; Post.user_agent := None |}.

Definition foo_example : contact_body :=
  {| Validator.name := Text "Jo";
     Validator.email := Text "  Foo@EXAMPLE.com ";
     Validator.message := Text "0123456789" |}.

Definition gmail_alias : contact_body :=
  {| Validator.name := Text "Jo";
     Validator.email := Text "a.b+c@gmail.com";
     Validator.message := Text "0123456789" |}.

(** An address of the shape local@domain.tld with a one-letter
    top-level domain. *)
Definition one_letter_tld : contact_body :=
  {| Validator.name := Text "Jo";
     Validator.email := Text "a@b.c";
     Validator.message := Text "0123456789" |}.

Definition short_name : contact_body :=
  {| Validator.name := Text "J";
     Validator.email := Text "a@b.co";
     Validator.message := Text "0123456789" |}.

(** A pool whose every statement is rejected with the same error. *)
Definition rejecting (e : pg_error) (s : unit) (_ : string) (_ : list param)
  : outcome * unit := (Rejected e, s).

Definition unique_violation : pg_error :=
  {| code := Some "23505";
     error_message := "duplicate key value violates unique constraint" |}.

Definition connection_refused : pg_error :=
  {| code := Some "ECONNREFUSED"; error_message := "connect ECONNREFUSED" |}.

Definition stored (i : Z) : row :=
  {| id := i; name := "Jo"; email := "jo@example.com";
     message := "0123456789"; ip_address := None; user_agent := None;
     created_at := 1000 * i; updated_at := 1000 * i |}.

(** Twelve rows, created one after the other. *)
Definition twelve_rows : database :=
  {| contacts := map stored [1; 2; 3; 4; 5; 6; 7; 8; 9; 10; 11; 12];
     contacts_id_seq := 12 |}.

Definition delete_without_key (i : Z) : Delete.request :=
  {| Delete.id := i; Delete.x_api_key := None |}.

Definition delete_as_admin (i : Z) : Delete.request :=
  {| Delete.id := i; Delete.x_api_key := Some "s3cret" |}.

(** Two rows created a day apart. *)
Definition two_days : database :=
  {| contacts :=
       [ {| id := 1; name := "Jo"; email := "jo@example.com";
            message := "0123456789"; ip_address := None; user_agent := None;
            created_at := 1000; updated_at := 1000 |};
         {| id := 2; name := "Jo"; email := "jo@example.com";
            message := "0123456789"; ip_address := None; user_agent := None;
            created_at := day + 1000; updated_at := day + 1000 |} ];
     contacts_id_seq := 2 |}.

Definition page_two : Query.request :=
  {| Query.page := Some 2; Query.limit := Some 10; Query.email := None;
     Query.startDate := None; Query.endDate := None |}.

End Examples.

(** ** The remaining statements of [server.js] *)

Module Store.
Import Pg.

Definition select_contact_sql : string :=
  "SELECT id, name, email, message, created_at FROM contacts WHERE id = $1".

Definition select_one_sql : string := "SELECT 1".

Definition exec_select_contact (db : database) (params : list param)
  : outcome :=
  match option_map int4_in (nth_error params 0) with
  | Some (inl (Some i)) =>
      Rows (map (project ["id"; "name"; "email"; "message"; "created_at"])
                (filter (fun r => Pg.id r =? i) (contacts db)))
  | Some (inl None) => Rows []
  | Some (inr e) => e
  | None => invalid_integer
  end.

Definition wrong_arity : outcome :=
  sqlstate "08P01" "bind message supplies the wrong number of parameters".

(** [pool.query(text, params)] for every statement the handlers send:
    the two above, and the ones [Pg.query] reads. *)
Definition query (ses : session) (now : Z) (db : database) (text : string)
  (params : list param) : outcome * database :=
  if (text =? select_contact_sql)%string then
    (if (List.length params =? 1)%nat then exec_select_contact db params
     else wrong_arity, db)
  else if (text =? select_one_sql)%string then
    (if (List.length params =? 0)%nat then Rows [JObj [("?column?", JNum 1)]]
     else wrong_arity, db)
  else Pg.query ses now db text params.

End Store.

(** ** The remaining handlers, and the routes together *)

Module Api.
Import Pg Server.

Section Handlers.
Variable V : validator_js.
Variable env : process_env.
Variable store : Type.
Variable pool : store -> string -> list param -> outcome * store.

Notation "x <- m ;; k" := (bind store m (fun x => k))
  (at level 61, m at next level, right associativity).

(** [app.get('/api/contacts/:id', ...)] *)
Definition get_contact (id : Z) : M store response :=
  result <- pool_query store pool Store.select_contact_sql [PInt id] ;;
  match result with
  | Rows [] =>
      ret store
        (Response 404 (object [ ("error", Some (JStr "Contact not found")) ]))
  | Rows (first :: _) =>
      ret store
        (Response 200 (object [ ("success", Some (JBool true));
                                ("data", Some first) ]))
  | Rejected error => ret store (failure env "Failed to fetch contact" error)
  end.

(** What the health check reads from the process: the instant of
    [new Date()] and the number [process.uptime()] returns. *)
Record vitals : Type := { timestamp : Z; uptime : json }.

(** [app.get('/api/health', ...)] *)
Definition get_health (v : vitals) : M store response :=
  result <- pool_query store pool Store.select_one_sql [] ;;
  match result with
  | Rows _ =>
      ret store
        (Response 200
           (object [ ("status", Some (JStr "healthy"));
                     ("timestamp", Some (JDate (timestamp v)));
                     ("service", Some (JStr "contact-form-api"));
                     ("uptime", Some (uptime v));
                     ("checks",
                      Some (object [ ("database", Some (JStr "healthy")) ])) ]))
  | Rejected error =>
      ret store
        (Response 503
           (object [ ("status", Some (JStr "unhealthy"));
                     ("timestamp", Some (JDate (timestamp v)));
                     ("service", Some (JStr "contact-form-api"));
                     ("uptime", Some (uptime v));
                     ("checks",
                      Some (object [ ("database", Some (JStr "unhealthy")) ]));
                     ("databaseError", Some (JStr (error_message error))) ]))
  end.

(** A request, by the route it matched. *)
Inductive request : Type :=
| POST_contacts (r : Post.request)
| GET_contacts (q : Query.request)
| GET_contact (id : Z)
| DELETE_contact (d : Delete.request)
| GET_health (v : vitals)
| GET_metrics.

Definition handle (req : request) : M store response :=
  match req with
  | POST_contacts r => post_contacts V env store pool r
  | GET_contacts q => get_contacts env store pool q
  | GET_contact id => get_contact id
  | DELETE_contact d => delete_contact env store pool d
  | GET_health v => get_health v
  | GET_metrics => get_metrics env store pool
  end.

End Handlers.

(** Requests served one after the other against the table, each at its
    own instant. *)
Fixpoint serve (V : validator_js) (env : process_env) (ses : session)
  (arrivals : list (Z * request)) (w : world database)
  : list response * world database :=
  match arrivals with
  | [] => ([], w)
  | (now, req) :: rest =>
      let '(r, w1) := handle V env database (Store.query ses now) req w in
      let '(rs, w2) := serve V env ses rest w1 in
      (r :: rs, w2)
  end.

(** The ids of the rows a sequence of responses reports created. *)
Fixpoint created_ids (rs : list response) : list Z :=
  match rs with
  | [] => []
  | r :: rest =>
      match status r =? 201, StoreSpec.data_id r with
      | true, Some (JNum i) => i :: created_ids rest
      | _, _ => created_ids rest
      end
  end.

End Api.

(** ** Start-up and the pool *)

Module Startup.
Import Pg.

Definition create_table_sql : string :=
  "
      CREATE TABLE IF NOT EXISTS contacts (
        id SERIAL PRIMARY KEY,
        name VARCHAR(100) NOT NULL,
        email VARCHAR(100) NOT NULL,
        message TEXT NOT NULL,
        ip_address INET,
        user_agent TEXT,
        created_at TIMESTAMP WITH TIME ZONE DEFAULT CURRENT_TIMESTAMP,
        updated_at TIMESTAMP WITH TIME ZONE DEFAULT CURRENT_TIMESTAMP
      )
    ".

Definition create_email_index_sql : string :=
  "
      CREATE INDEX IF NOT EXISTS idx_contacts_email 
      ON contacts(email)
    ".

Definition create_created_at_index_sql : string :=
  "
      CREATE INDEX IF NOT EXISTS idx_contacts_created_at 
      ON contacts(created_at DESC)
    ".

(** How [startServer] ends: the server listens, or the process exits. *)
Inductive started : Type :=
| Listening
| Exit (code : Z).

Section StartServer.
Variable store : Type.
(** [pool.connect()]: the error it rejects with, if it does. *)
Variable connect : store -> option pg_error.
Variable pool : store -> string -> list param -> outcome * store.

Notation "x <- m ;; k" := (Server.bind store m (fun x => k))
  (at level 61, m at next level, right associativity).

(** [initializeDatabase]: the three statements in turn; the first
    rejection is thrown on and the statements after it are not sent. *)
Definition initializeDatabase : Server.M store (option pg_error) :=
  r1 <- Server.pool_query store pool create_table_sql [] ;;
  match r1 with
  | Rejected e => Server.ret store (Some e)
  | Rows _ =>
      r2 <- Server.pool_query store pool create_email_index_sql [] ;;
      match r2 with
      | Rejected e => Server.ret store (Some e)
      | Rows _ =>
          r3 <- Server.pool_query store pool create_created_at_index_sql [] ;;
          match r3 with
          | Rejected e => Server.ret store (Some e)
          | Rows _ => Server.ret store None
          end
      end
  end.

(** [startServer]: [testConnection], then [initializeDatabase], then
    [app.listen]; [process.exit(1)] when either fails. *)
Definition startServer : Server.M store started :=
  fun w =>
    match connect (Server.db w) with
    | Some _ => (Exit 1, w)
    | None =>
        let '(thrown, w') := initializeDatabase w in
        match thrown with
        | Some _ => (Exit 1, w')
        | None => (Listening, w')
        end
    end.

End StartServer.

(** [createPool] and its [pool.on('error', ...)] handler: the retry
    counter, the pools created so far and the reconnect timers pending. *)
Record pools : Type := {
  retries : nat;
  created : nat;
  pending : nat
}.

Definition maxRetries : nat := 5.

(** [createPool()] *)
Definition createPool (p : pools) : pools :=
  {| retries := retries p; created := S (created p); pending := pending p |}.

(** The module's first [createPool()] call. *)
Definition loaded : pools :=
  createPool {| retries := 0; created := 0; pending := 0 |}.

Inductive event : Type :=
| idle_client_error                (* some pool emits 'error' *)
| timeout_elapsed.                 (* a [setTimeout(createPool, 5000)] is due *)

Definition step (p : pools) (e : event) : pools :=
  match e with
  | idle_client_error =>
      if (retries p <? maxRetries)%nat then
        {| retries := S (retries p); created := created p;
           pending := S (pending p) |}
      else p
  | timeout_elapsed =>
      match pending p with
      | O => p
      | S n =>
          createPool {| retries := retries p; created := created p;
                        pending := n |}
      end
  end.

Definition run (events : list event) (p : pools) : pools :=
  fold_left step events p.

End Startup.

(** ** [postgres/init.sql]: the sample rows and the reporting view *)

Module InitSql.
Import Pg.

(** [INSERT INTO contacts (name, email, message) VALUES ... ON CONFLICT DO
    NOTHING], one [VALUES] row: the row takes the next id, and is left
    out when it would break a uniqueness constraint; there is no row to
    form when the sequence has no next value. *)
Definition insert_or_skip (now : Z) (db : database)
  (v : string * string * string) : option database :=
  let '(n, e, m) := v in
  match nextval db with
  | None => None
  | Some i =>
      let new := {| id := i;
                    name := n; email := e; message := m;
                    ip_address := None; user_agent := None;
                    created_at := now; updated_at := now |} in
      Some {| contacts := if violates_unique (contacts db) new then contacts db
                          else (contacts db ++ [new])%list;
              contacts_id_seq := i |}
  end.

(** The rows in turn: the table with all of them taken ([inl]), or as it
    is when the sequence runs out ([inr]). *)
Fixpoint insert_all (now : Z) (vs : list (string * string * string))
  (db : database) : database + database :=
  match vs with
  | [] => inl db
  | v :: rest =>
      match insert_or_skip now db v with
      | Some db' => insert_all now rest db'
      | None => inr db
      end
  end.

Definition sample_values : list (string * string * string) :=
  [ ("John Doe", "john@example.com", "This is a test message from Docker");
    ("Jane Smith", "jane@example.com",
     "Another test message for the contact form") ].

Definition fits (v : string * string * string) : bool :=
  let '(n, e, m) := v in
  negb (violates_length [PText n; PText e; PText m; PNull; PNull]).

(** The sample-data statement as a whole: when it fails no row of it
    stays, but the sequence values it took are gone. *)
Definition insert_samples (now : Z) (db : database) : outcome * database :=
  if forallb fits sample_values
  then match insert_all now sample_values db with
       | inl db' => (Rows [], db')
       | inr db' =>
           (sequence_exhausted,
            {| contacts := contacts db;
               contacts_id_seq := contacts_id_seq db' |})
       end
  else (sqlstate "22001" "value too long for type character varying(100)", db).

(** A row of the view [contacts_summary]. *)
Record summary_row : Type := {
  date : Z;
  total_contacts : nat;
  unique_emails : nat
}.

(** [SELECT DATE(created_at) as date, COUNT( * ) as total_contacts,
    COUNT(DISTINCT email) as unique_emails FROM contacts
    GROUP BY DATE(created_at) ORDER BY date DESC] *)
Definition contacts_summary (ses : session) (rows : list row)
  : list summary_row :=
  let dates :=
    order_by_desc (fun d => d)
                  (nodup Z.eq_dec (map (fun r => DATE ses (created_at r)) rows)) in
  map (fun d =>
         let group := filter (fun r => DATE ses (created_at r) =? d) rows in
         {| date := d;
            total_contacts := List.length group;
            unique_emails := List.length (nodup string_dec (map Pg.email group)) |})
      dates.

(** The columns the view shares with a metrics row. *)
Definition summary_of (m : metrics_row) : summary_row :=
  {| date := Pg.date m;
     total_contacts := Pg.total_contacts m;
     unique_emails := Pg.unique_emails m |}.

End InitSql.

(** ** The form component ([ContactForm]) *)

Module Form.

(** An input of the form, as [validateField] reads it. *)
Record field : Type := { id : string; type : string; value : string }.

(** What [validateField] returns and leaves on the page for the field:
    its custom validity, the text of its error element and its border
    colour. *)
Record verdict : Type := {
  valid : bool;
  customValidity : string;
  errorText : string;
  borderColor : string
}.

(** [setCustomValidity(m); showError(field, errorElement, m); return false] *)
Definition showError (m : string) : verdict :=
  {| valid := false; customValidity := m; errorText := m;
     borderColor := "#dc3545" |}.

(** [clearError(field, errorElement); return true], after
    [setCustomValidity('')]. *)
Definition clearError : verdict :=
  {| valid := true; customValidity := ""; errorText := ""; borderColor := "" |}.

(** [validateField(field)]; [String.prototype.trim] strips, among 8-bit
    code units, the same characters as [trim]. *)
Definition validateField (f : field) : verdict :=
  if (trim (value f) =? "")%string then showError "This field is required"
  else if (type f =? "email")%string && negb (emailRegex_test (value f))
  then showError "Please enter a valid email address"
  else if (id f =? "name")%string && (String.length (value f) <? 2)%nat
  then showError "Name must be at least 2 characters"
  else if (id f =? "message-input")%string
          && (String.length (value f) <? 10)%nat
  then showError "Message must be at least 10 characters"
  else clearError.

(** The values typed into the three inputs; also [formData]. *)
Record inputs : Type := { name : string; email : string; message : string }.

Definition nameInput (i : inputs) : field :=
  {| id := "name"; type := "text"; value := name i |}.
Definition emailInput (i : inputs) : field :=
  {| id := "email"; type := "email"; value := email i |}.
Definition messageInput (i : inputs) : field :=
  {| id := "message-input"; type := "textarea"; value := message i |}.

(** The message element above the form. *)
Record banner : Type := {
  textContent : string;
  className : string;
  display : string
}.

Inductive timer : Type :=
| reset_success                   (* setState({ success: false }), 5 s *)
| hide_error (text : string).     (* hide the message if still [text], 10 s *)

(** The component: its inputs and what it shows, its [state], and what it
    has sent, dispatched and scheduled so far. *)
Record component : Type := {
  values : inputs;
  nameError : verdict;
  emailError : verdict;
  messageError : verdict;
  charCount : string;
  messageEl : banner;
  submitting : bool;
  success : bool;
  buttonDisabled : bool;
  buttonHTML : string;
  fetched : list (string * inputs);     (* url and JSON body of each fetch *)
  dispatched : list inputs;             (* detail of each contact-submitted *)
  timers : list timer
}.

Definition quote : string := String (ascii_of_nat 34) EmptyString.

(** [setState(newState)] for the two flags the component changes, with the
    [updateButton()] it ends in. *)
Definition setState (submitting' success' : bool) (c : component) : component :=
  {| values := values c;
     nameError := nameError c; emailError := emailError c;
     messageError := messageError c;
     charCount := charCount c;
     messageEl := messageEl c;
     submitting := submitting';
     success := success';
     buttonDisabled := submitting';
     buttonHTML :=
       if submitting'
       then "<span class=" ++ quote ++ "loading" ++ quote ++ "></span> Sending..."
       else "Send Message";
     fetched := fetched c; dispatched := dispatched c; timers := timers c |}.

(** [showMessage(text, type)] *)
Definition showMessage (text type : string) (c : component) : component :=
  {| values := values c;
     nameError := nameError c; emailError := emailError c;
     messageError := messageError c;
     charCount := charCount c;
     messageEl := {| textContent := text;
                     className := "message " ++ type;
                     display := if (text =? "")%string then "none" else "block" |};
     submitting := submitting c; success := success c;
     buttonDisabled := buttonDisabled c; buttonHTML := buttonHTML c;
     fetched := fetched c; dispatched := dispatched c;
     timers := if (type =? "error")%string
               then (timers c ++ [hide_error text])%list else timers c |}.

(** [validateForm()]: the three fields are all validated before the
    results are combined. *)
Definition validateForm (c : component) : bool * component :=
  let n := validateField (nameInput (values c)) in
  let e := validateField (emailInput (values c)) in
  let m := validateField (messageInput (values c)) in
  (valid n && valid e && valid m,
   {| values := values c;
      nameError := n; emailError := e; messageError := m;
      charCount := charCount c; messageEl := messageEl c;
      submitting := submitting c; success := success c;
      buttonDisabled := buttonDisabled c; buttonHTML := buttonHTML c;
      fetched := fetched c; dispatched := dispatched c; timers := timers c |}).

(** How the [fetch] of [handleSubmit] and the [response.json()] after it
    turn out. *)
Inductive reply : Type :=
| rejected (message : string)            (* fetch rejects *)
| unparsed (ok : bool) (message : string) (* response.json() rejects *)
| parsed (ok : bool) (data : json).

(** What the script engine contributes: the ISO text of an instant and the
    message of the TypeError raised by reading a property of [null]. *)
Record engine : Type := {
  toISOString : Z -> string;
  null_property_message : string
}.

Section Submit.
Variable js : engine.

(** Truthiness of a parsed value ([None] is [undefined]). *)
Definition truthy (x : option json) : bool :=
  match x with
  | None | Some JNull => false
  | Some (JBool b) => b
  | Some (JNum z) => negb (z =? 0)
  | Some (JStr s) => negb (s =? "")%string
  | Some (JDate _) | Some (JArr _) | Some (JObj _) => true
  end.

(** [String(x)], which [new Error(x)] takes as its message. *)
Fixpoint to_string (x : json) : string :=
  match x with
  | JNull => "null"
  | JBool true => "true"
  | JBool false => "false"
  | JNum z => decimal z
  | JStr s => s
  | JDate t => toISOString js t
  | JArr l =>
      String.concat ","
        (map (fun e => match e with
                       | JNull => EmptyString
                       | _ => to_string e
                       end) l)
  | JObj _ => "[object Object]"
  end.

Definition first_char (s : string) : option json :=
  match s with
  | EmptyString => None
  | String a _ => Some (JStr (String a EmptyString))
  end.

(** [x?.[0]] *)
Definition first_of (x : option json) : option json :=
  match x with
  | Some (JArr l) => nth_error l 0
  | Some (JObj _ as o) => member "0" o
  | Some (JStr s) => first_char s
  | Some (JDate t) => first_char (toISOString js t)
  | _ => None
  end.

(** [x?.msg] *)
Definition msg_of (x : option json) : option json :=
  match x with
  | Some (JObj _ as o) => member "msg" o
  | _ => None
  end.

(** The message of the error thrown for a reply that is not ok:
    [data.error || data.details?.[0]?.msg || 'Failed to send message'],
    or the TypeError of reading [data.error] when [data] is [null]. *)
Definition thrown_message (data : json) : string :=
  match data with
  | JNull => null_property_message js
  | _ =>
      let error := member "error" data in
      if truthy error
      then match error with Some x => to_string x | None => EmptyString end
      else
        let m := msg_of (first_of (member "details" data)) in
        if truthy m
        then match m with Some x => to_string x | None => EmptyString end
        else "Failed to send message"
  end.

(** [catch (error)]: [showMessage(error.message || '...', 'error')] *)
Definition caught (message : string) (c : component) : component :=
  showMessage (if (message =? "")%string
               then "Something went wrong. Please try again later."
               else message)
              "error" c.

(** [form.reset()] and the counter set back to ['0']. *)
Definition reset (c : component) : component :=
  {| values := {| name := ""; email := ""; message := "" |};
     nameError := nameError c; emailError := emailError c;
     messageError := messageError c;
     charCount := "0";
     messageEl := messageEl c;
     submitting := submitting c; success := success c;
     buttonDisabled := buttonDisabled c; buttonHTML := buttonHTML c;
     fetched := fetched c; dispatched := dispatched c; timers := timers c |}.

Definition succeeded (formData : inputs) (c : component) : component :=
  let c := showMessage "Thank you! Your message has been sent successfully."
                       "success" c in
  let c := reset c in
  let c := setState (submitting c) true c in
  {| values := values c;
     nameError := nameError c; emailError := emailError c;
     messageError := messageError c;
     charCount := charCount c; messageEl := messageEl c;
     submitting := submitting c; success := success c;
     buttonDisabled := buttonDisabled c; buttonHTML := buttonHTML c;
     fetched := fetched c;
     dispatched := (dispatched c ++ [formData])%list;
     timers := (timers c ++ [reset_success])%list |}.

(** [handleSubmit()] up to its [fetch]: [None] when it returns at once,
    else the component while the request is under way. *)
Definition handleSubmit_begin (apiUrl : option string) (c : component)
  : component * bool :=
  let '(ok, c) := validateForm c in
  if negb ok || submitting c then (c, false)
  else
    let c := setState true (success c) c in
    let c := showMessage "" "" c in
    let url := if Server.truthy apiUrl
               then match apiUrl with Some u => u | None => EmptyString end
               else "/api/contacts" in
    ({| values := values c;
        nameError := nameError c; emailError := emailError c;
        messageError := messageError c;
        charCount := charCount c; messageEl := messageEl c;
        submitting := submitting c; success := success c;
        buttonDisabled := buttonDisabled c; buttonHTML := buttonHTML c;
        fetched := (fetched c ++ [(url, values c)])%list;
        dispatched := dispatched c; timers := timers c |},
     true).

(** [handleSubmit()] from the reply on: [try], [catch] and [finally].
    [formData] is what was read from the inputs before the [fetch]. *)
Definition handleSubmit_end (formData : inputs) (r : reply) (c : component)
  : component :=
  let c :=
    match r with
    | rejected m => caught m c
    | unparsed _ m => caught m c
    | parsed true _ => succeeded formData c
    | parsed false data => caught (thrown_message data) c
    end in
  setState false (success c) c.

(** A timer comes due. *)
Definition elapsed (t : timer) (c : component) : component :=
  match t with
  | reset_success => setState (submitting c) false c
  | hide_error text =>
      if (textContent (messageEl c) =? text)%string
      then showMessage "" "" c else c
  end.

End Submit.

(** The body of the request, as the backend's body parser hands it on. *)
Definition to_body (i : inputs) : contact_body :=
  {| Validator.name := Text (name i);
     Validator.email := Text (email i);
     Validator.message := Text (message i) |}.

(** The reply the form reads from a response of the backend. *)
Definition of_response (r : response) : reply :=
  parsed ((200 <=? status r) && (status r <=? 299)) (body r).

End Form.

(** ** What the table holds, as the handlers leave it *)

Module TableSpec.
Import Pg Server.

(** A row as a create leaves it: name and message trimmed and within the
    validator's bounds, e-mail within its column, never updated. *)
Definition as_created (r : row) : Prop :=
  trim (Pg.name r) = Pg.name r
  /\ (2 <= String.length (Pg.name r) <= 100)%nat
  /\ trim (Pg.message r) = Pg.message r
  /\ (10 <= String.length (Pg.message r) <= 1000)%nat
  /\ (String.length (Pg.email r) <= 100)%nat
  /\ updated_at r = created_at r.

(** Ids are distinct and all behind the sequence. *)
Definition distinct_ids (db : database) : Prop :=
  StoreSpec.serial_ids db /\ NoDup (map Pg.id (contacts db)).

(** The request does not delete row [i]. *)
Definition spares (i : Z) (req : Api.request) : Prop :=
  match req with
  | Api.DELETE_contact d => Delete.id d <> i
  | _ => True
  end.

(** The request reads only. *)
Definition reads_only (req : Api.request) : bool :=
  match req with
  | Api.GET_contacts _ | Api.GET_contact _ | Api.GET_health _
  | Api.GET_metrics => true
  | _ => false
  end.

(** An integer a double holds exactly. *)
Definition safe (z : Z) : Prop :=
  - 9007199254740991 <= z <= 9007199254740991.

(** The page, the limit and the offset of the request are such integers. *)
Definition exact (q : Query.request) : Prop :=
  safe (page_of q) /\ safe (limit_of q)
  /\ safe ((page_of q - 1) * limit_of q).

(** The filters of the request are ones the engine reads. *)
Definition legible (ses : session) (q : Query.request) : Prop :=
  ListSpec.clean (Query.email q) = true
  /\ ListSpec.readable ses (Query.startDate q) = true
  /\ ListSpec.readable ses (Query.endDate q) = true.

(** The list request is one the engine accepts. *)
Definition acceptable (ses : session) (q : Query.request) : Prop :=
  0 <= limit_of q
  /\ 0 <= (page_of q - 1) * limit_of q
  /\ legible ses q.

(** An id the [id] column can hold. *)
Definition int4 (i : Z) : Prop := -2147483648 <= i <= 2147483647.

(** The sequence has a next value. *)
Definition has_next (db : database) : Prop :=
  0 <= contacts_id_seq db < 2147483647.

(** The values of a create are ones the engine reads: no text holds
    U+0000, and the caller's address is one it reads as inet. *)
Definition bindable (ses : session) (V : validator_js) (req : Post.request)
  : Prop :=
  let b := sanitized V (Post.body req) in
  has_nul (toString (Validator.name b)) = false
  /\ has_nul (toString (Validator.email b)) = false
  /\ has_nul (toString (Validator.message b)) = false
  /\ match Post.ip req with
     | Some a => has_nul a = false /\ inet_in ses a = true
     | None => True
     end
  /\ match Post.user_agent req with
     | Some u => has_nul u = false
     | None => True
     end.

(** No two of the rows were created at the same instant. *)
Definition no_ties (rows : list row) : Prop :=
  NoDup (map created_at rows).

(** The same request for another page. *)
Definition at_page (q : Query.request) (p : Z) : Query.request :=
  {| Query.page := Some p; Query.limit := Query.limit q;
     Query.email := Query.email q; Query.startDate := Query.startDate q;
     Query.endDate := Query.endDate q |}.

(** The rows of page [p] of a list cut in pages of [l] rows. *)
Definition chunk {A : Type} (l p : Z) (rows : list A) : list A :=
  firstn (Z.to_nat l) (skipn (Z.to_nat ((p - 1) * l)) rows).

(** A request that carries the filters marked, with a fixed value each. *)
Definition specimen (c : bool * bool * bool) : Query.request :=
  let '(e, s, d) := c in
  {| Query.page := None; Query.limit := None;
     Query.email := if e then Some "x" else None;
     Query.startDate := if s then Some "x" else None;
     Query.endDate := if d then Some "x" else None |}.

(** Which filters a list request carries. *)
Definition carried (q : Query.request) : bool * bool * bool :=
  (truthy (Query.email q), truthy (Query.startDate q),
   truthy (Query.endDate q)).

End TableSpec.

(** ** The validator, as its contract reads it *)

Module ValidatorSpec.

(** Only white space. *)
Definition blank (s : string) : Prop :=
  Forall (fun a => is_space a = true) (list_ascii_of_string s).

(** [t] is [s] without the white space at its two ends. *)
Definition trimmed (s t : string) : Prop :=
  (exists l r, s = l ++ t ++ r /\ blank l /\ blank r)
  /\ match list_ascii_of_string t with
     | a :: _ => is_space a = false
     | [] => True
     end
  /\ match rev (list_ascii_of_string t) with
     | a :: _ => is_space a = false
     | [] => True
     end.

(** Text with neither white space nor [@] in it, and not empty. *)
Definition plain (s : string) : Prop :=
  s <> ""
  /\ Forall (fun a => is_space a = false /\ a <> "@"%char)
            (list_ascii_of_string s).

(** The shape [local@domain.tld]: no white space, a single [@], and a dot
    in the domain. *)
Definition email_shape (s : string) : Prop :=
  exists local domain tld,
    s = local ++ "@" ++ domain ++ "." ++ tld
    /\ plain local /\ plain domain /\ plain tld.

End ValidatorSpec.

(** ** Start-up, as its contract reads it *)

Module StartupSpec.
Import Pg.

Section Answers.
Variable store : Type.
Variable pool : store -> string -> list param -> outcome * store.

(** The store after the statements were sent to it one after the
    other. *)
Definition after (texts : list string) (s : store) : store :=
  fold_left (fun s text => snd (pool s text [])) texts s.

(** How many of the statements are sent when each waits for the one
    before it and a rejection ends the run: those up to the first one
    rejected, that one included. *)
Fixpoint sent (texts : list string) (s : store) : nat :=
  match texts with
  | [] => 0%nat
  | text :: rest =>
      match pool s text [] with
      | (Rows _, s') => S (sent rest s')
      | (Rejected _, _) => 1%nat
      end
  end.

(** Whether every statement is accepted. *)
Fixpoint all_accepted (texts : list string) (s : store) : bool :=
  match texts with
  | [] => true
  | text :: rest =>
      match pool s text [] with
      | (Rows _, s') => all_accepted rest s'
      | (Rejected _, _) => false
      end
  end.

End Answers.

End StartupSpec.

(** ** More concrete requests *)

Module Cases.
Import Pg Server.

(** A gmail address that is all sub-address. *)
Definition only_subaddress : contact_body :=
  {| Validator.name := Text "Jo";
     Validator.email := Text "+x@gmail.com";
     Validator.message := Text "0123456789" |}.

Definition sixty : string :=
  "aaaaaaaaaaaaaaaaaaaaaaaaaaaaaaaaaaaaaaaaaaaaaaaaaaaaaaaaaaaa".

(** An address of 133 characters. *)
Definition long_address : contact_body :=
  {| Validator.name := Text "Jo";
     Validator.email := Text (sixty ++ "@" ++ sixty ++ ".example.com");
     Validator.message := Text "0123456789" |}.

Definition vitals : Api.vitals :=
  {| Api.timestamp := 0; Api.uptime := JNum 12 |}.

(** A morning of requests: two creates, a delete of the first row by the
    admin, a third create, and reads in between. *)
Definition morning : list (Z * Api.request) :=
  [ (10, Api.POST_contacts (Examples.submit Examples.foo_example));
    (20, Api.GET_metrics);
    (30, Api.POST_contacts (Examples.submit Examples.gmail_alias));
    (40, Api.DELETE_contact (Examples.delete_as_admin 1));
    (50, Api.GET_contact 1);
    (60, Api.POST_contacts (Examples.submit Examples.foo_example));
    (70, Api.GET_contacts Examples.page_two) ].

Definition first_page (limit : Z) : Query.request :=
  {| Query.page := None; Query.limit := Some limit; Query.email := None;
     Query.startDate := None; Query.endDate := None |}.

Definition since (s : string) : Query.request :=
  {| Query.page := None; Query.limit := None; Query.email := None;
     Query.startDate := Some s; Query.endDate := None |}.

(** An empty table whose sequence has one value left. *)
Definition one_id_left : database :=
  {| contacts := []; contacts_id_seq := 2147483646 |}.

(** Production with no admin key configured. *)
Definition production_without_key : process_env :=
  {| NODE_ENV := Some "production"; ADMIN_API_KEY := None |}.

(** A store that takes every statement and returns no row, and one
    that can be reached. *)
Definition accepting (s : unit) (_ : string) (_ : list param)
  : outcome * unit := (Rows [], s).

(** A store that takes every statement but the one of the given text. *)
Definition refusing (text0 : string) (s : unit) (text : string)
  (_ : list param) : outcome * unit :=
  if (text =? text0)%string
  then (Rejected Examples.connection_refused, s)
  else (Rows [], s).

Definition reachable (_ : unit) : option pg_error := None.

Definition unreachable (_ : unit) : option pg_error :=
  Some Examples.connection_refused.

End Cases.

(** * Properties *)

(** ** Strings *)

Section StringFacts.

Lemma toLowerCase_app (a b : string) :
  toLowerCase (a ++ b) = toLowerCase a ++ toLowerCase b.
Proof.
  induction a as [|c a IH]; simpl; [reflexivity | now rewrite IH].
Qed.

Lemma append_assoc (a b c : string) : (a ++ b) ++ c = a ++ (b ++ c).
Proof.
  induction a as [|x a IH]; simpl; [reflexivity | now rewrite IH].
Qed.

Lemma split_not_nil (c : ascii) (s : string) : split c s <> [].
Proof.
  destruct s as [|a s]; simpl; [discriminate|].
  destruct (split c s); [discriminate|].
  destruct (Ascii.eqb a c); discriminate.
Qed.

Lemma join_split (c : ascii) (s : string) : join c (split c s) = s.
Proof.
  unfold join. induction s as [|a s IH]; simpl; [reflexivity|].
  destruct (split c s) as [|p ps] eqn:E.
  - now destruct (split_not_nil c s).
  - destruct (Ascii.eqb_spec a c) as [->|_].
    + change (String.concat (String c "") ("" :: p :: ps))
        with (String c (String.concat (String c "") (p :: ps))).
      now rewrite IH.
    + destruct ps; rewrite <- IH; reflexivity.
Qed.

Lemma join_last (c : ascii) (l : list string) :
  removelast l <> [] ->
  join c l = join c (removelast l) ++ String c (last l "").
Proof.
  unfold join. induction l as [|x l IH]; [now intros []|].
  destruct l as [|y l]; [now intros []|]. intros _.
  destruct l as [|z l]; [reflexivity|].
  change (removelast (x :: y :: z :: l)) with (x :: removelast (y :: z :: l)).
  change (last (x :: y :: z :: l) "") with (last (y :: z :: l) "").
  change (String.concat (String c "") (x :: y :: z :: l))
    with (x ++ String c "" ++ String.concat (String c "") (y :: z :: l)).
  rewrite IH by discriminate.
  change (removelast (y :: z :: l)) with (y :: removelast (z :: l)).
  change (String.concat (String c "") (x :: y :: removelast (z :: l)))
    with (x ++ String c "" ++ String.concat (String c "") (y :: removelast (z :: l))).
  now rewrite !append_assoc.
Qed.

Lemma split_has_char (c : ascii) (s : string) :
  has_char c s = true -> removelast (split c s) <> [].
Proof.
  unfold has_char. induction s as [|a s IH]; simpl; [discriminate|].
  destruct (split c s) as [|p ps] eqn:E; [now destruct (split_not_nil c s)|].
  rewrite Ascii.eqb_sym.
  destruct (Ascii.eqb a c); simpl.
  - intros _. discriminate.
  - intros H. specialize (IH H). destruct ps; [now destruct IH | discriminate].
Qed.

(** Text that contains the separator is its last field put back after the
    fields before it. *)
Lemma split_last_field (c : ascii) (s : string) :
  has_char c s = true ->
  join c (removelast (split c s)) ++ String c (last (split c s) "") = s.
Proof.
  intros H. rewrite <- join_last by now apply split_has_char.
  apply join_split.
Qed.

Lemma ltrim_starts (s : string) :
  match ltrim s with
  | EmptyString => True
  | String a _ => is_space a = false
  end.
Proof.
  induction s as [|a s IH]; simpl; [exact I|].
  destruct (is_space a) eqn:E; [exact IH | exact E].
Qed.

Lemma ltrim_fixed (a : ascii) (s : string) :
  is_space a = false -> ltrim (String a s) = String a s.
Proof. intros H. simpl. now rewrite H. Qed.

Lemma rtrim_idempotent (s : string) : rtrim (rtrim s) = rtrim s.
Proof.
  induction s as [|a s IH]; simpl; [reflexivity|].
  destruct (rtrim s) as [|b r] eqn:E.
  - destruct (is_space a) eqn:Ha; simpl; [reflexivity | now rewrite Ha].
  - change (rtrim (String a (String b r)))
      with (match rtrim (String b r) with
            | EmptyString => if is_space a then EmptyString else String a EmptyString
            | r' => String a r'
            end).
    rewrite IH. reflexivity.
Qed.

Lemma rtrim_keeps_head (a : ascii) (s : string) :
  is_space a = false -> exists r, rtrim (String a s) = String a r.
Proof.
  intros H. simpl. destruct (rtrim s); [rewrite H|]; eauto.
Qed.

(** Trimming twice is trimming once. *)
Lemma trim_idempotent (s : string) : trim (trim s) = trim s.
Proof.
  unfold trim. pose proof (ltrim_starts s) as H.
  destruct (ltrim s) as [|a t] eqn:E; [reflexivity|].
  destruct (rtrim_keeps_head a t H) as [r Hr].
  rewrite Hr, (ltrim_fixed a r H), <- Hr. apply rtrim_idempotent.
Qed.

Lemma list_ascii_app (a b : string) :
  list_ascii_of_string (a ++ b)
  = (list_ascii_of_string a ++ list_ascii_of_string b)%list.
Proof.
  induction a as [|x a IH]; cbn; [reflexivity | now rewrite IH].
Qed.

Lemma append_empty_r (s : string) : s ++ "" = s.
Proof. induction s as [|a s IH]; cbn; [reflexivity | now rewrite IH]. Qed.

(** What [ltrim] removes is white space. *)
Lemma ltrim_prefix (s : string) :
  exists l, s = l ++ ltrim s /\ ValidatorSpec.blank l.
Proof.
  induction s as [|a s (l & Hl & Hb)].
  - exists "". split; [reflexivity | constructor].
  - cbn [ltrim]. destruct (is_space a) eqn:E.
    + exists (String a l). split; [cbn; now rewrite <- Hl|].
      constructor; assumption.
    + exists "". split; [reflexivity | constructor].
Qed.

(** What [rtrim] removes is white space. *)
Lemma rtrim_suffix (s : string) :
  exists r, s = rtrim s ++ r /\ ValidatorSpec.blank r.
Proof.
  induction s as [|a s (r & Hr & Hb)].
  - exists "". split; [reflexivity | constructor].
  - cbn [rtrim]. destruct (rtrim s) as [|b t] eqn:E.
    + destruct (is_space a) eqn:Ha.
      * exists (String a s). split; [reflexivity|].
        cbn in Hr. subst r. constructor; assumption.
      * exists r. split; [cbn; now rewrite Hr at 1|]. exact Hb.
    + exists r. split; [|exact Hb].
      cbn. now rewrite Hr at 1.
Qed.

(** [rtrim] ends on a character that is not white space. *)
Lemma rtrim_ends (s : string) :
  match rev (list_ascii_of_string (rtrim s)) with
  | a :: _ => is_space a = false
  | [] => True
  end.
Proof.
  induction s as [|a s IH]; [exact I|].
  cbn [rtrim]. destruct (rtrim s) as [|b t] eqn:E.
  - destruct (is_space a) eqn:Ha; [exact I | exact Ha].
  - change (list_ascii_of_string (String a (String b t)))
      with (a :: list_ascii_of_string (String b t)).
    cbn [rev].
    destruct (rev (list_ascii_of_string (String b t))) as [|c l] eqn:Er.
    + apply (f_equal (@List.length ascii)) in Er.
      rewrite length_rev in Er. discriminate Er.
    + exact IH.
Qed.

(** [trim] does what its contract says. *)
Lemma trim_trimmed (s : string) : ValidatorSpec.trimmed s (trim s).
Proof.
  unfold ValidatorSpec.trimmed, trim. repeat split.
  - destruct (ltrim_prefix s) as (l & Hl & Hbl).
    destruct (rtrim_suffix (ltrim s)) as (r & Hr & Hbr).
    exists l, r. split; [|split; assumption].
    now rewrite <- Hr.
  - pose proof (ltrim_starts s) as H.
    destruct (ltrim s) as [|a t]; [exact I|].
    destruct (rtrim_keeps_head a t H) as [r ->]. exact H.
  - apply rtrim_ends.
Qed.

End StringFacts.

(** ** The validator *)

Section ValidatorFacts.
Variable V : validator_js.

Lemma run_name_chain (v : field_value) :
  run_chain V name_chain v =
    (Text (trim (toString v)),
     (if negb (isEmpty (trim (toString v))) then []
      else [{| value := Text (trim (toString v));
               msg := "Name is required"; path := "name" |}])
     ++ (if isLength 2 100 (trim (toString v)) then []
         else [{| value := Text (trim (toString v));
                  msg := "Name must be between 2 and 100 characters";
                  path := "name" |}]))%list.
Proof.
  unfold run_chain; cbn -[trim isLength isEmpty].
  destruct (isEmpty _), (isLength _ _ _); reflexivity.
Qed.

Lemma run_email_chain (v : field_value) :
  run_chain V email_chain v =
    (normalizeEmail V (trim (toString v)),
     (if negb (isEmpty (trim (toString v))) then []
      else [{| value := Text (trim (toString v));
               msg := "Email is required"; path := "email" |}])
     ++ (if isEmail V (trim (toString v)) then []
         else [{| value := Text (trim (toString v));
                  msg := "Please provide a valid email address";
                  path := "email" |}]))%list.
Proof.
  unfold run_chain; cbn -[trim isLength isEmpty normalizeEmail].
  destruct (isEmpty _), (isEmail _ _); reflexivity.
Qed.

Lemma run_message_chain (v : field_value) :
  run_chain V message_chain v =
    (Text (trim (toString v)),
     (if negb (isEmpty (trim (toString v))) then []
      else [{| value := Text (trim (toString v));
               msg := "Message is required"; path := "message" |}])
     ++ (if isLength 10 1000 (trim (toString v)) then []
         else [{| value := Text (trim (toString v));
                  msg := "Message must be between 10 and 1000 characters";
                  path := "message" |}]))%list.
Proof.
  unfold run_chain; cbn -[trim isLength isEmpty].
  destruct (isEmpty _), (isLength _ _ _); reflexivity.
Qed.

Lemma validationResult_chains (b : contact_body) :
  validationResult V b =
    (snd (run_chain V name_chain (Validator.name b))
     ++ snd (run_chain V email_chain (Validator.email b))
     ++ snd (run_chain V message_chain (Validator.message b)))%list.
Proof.
  unfold validationResult, validateContact.
  destruct (run_chain V name_chain _), (run_chain V email_chain _),
    (run_chain V message_chain _); reflexivity.
Qed.

Lemma sanitized_email (b : contact_body) :
  Validator.email (sanitized V b) =
    normalizeEmail V (trim (toString (Validator.email b))).
Proof.
  unfold sanitized, validateContact.
  rewrite run_name_chain, run_email_chain, run_message_chain. reflexivity.
Qed.

Lemma normalizeEmail_plain (e : string) :
  has_char "@" e = true ->
  provider_domain V (domain_of e) = false ->
  normalizeEmail V e = Text (toLowerCase e).
Proof.
  intros Hat Hp. unfold provider_domain, domain_of in Hp.
  repeat (apply orb_false_elim in Hp; destruct Hp as [Hp ?]).
  unfold normalizeEmail. cbv zeta.
  repeat match goal with H : _ = false |- _ => rewrite H; clear H end.
  cbn [orb]. f_equal.
  transitivity (toLowerCase (join "@" (removelast (split "@" e))
                             ++ String "@" (last (split "@" e) ""))).
  - rewrite toLowerCase_app. reflexivity.
  - now rewrite split_last_field.
Qed.

Lemma isLength_spec (lo hi : nat) (s : string) :
  isLength lo hi s = true <-> (lo <= String.length s <= hi)%nat.
Proof.
  unfold isLength. rewrite andb_true_iff, !Nat.leb_le. tauto.
Qed.

End ValidatorFacts.

(** C1 (as amended).  The e-mail chain leaves [normalizeEmail(trim(input))]
    in the body.  Whenever the trimmed input contains an [@] and its
    lower-cased domain is none of the provider domains that [normalizeEmail]
    rewrites (gmail.com, googlemail.com and the icloud, outlook, yahoo and
    yandex tables), that is exactly [lowercase(trim(input))]; so
    ["  Foo@EXAMPLE.com "] becomes ["foo@example.com"].  For an address at
    gmail.com or googlemail.com the local part is cut at its first [+], its
    lone dots are removed, it is lower-cased and the domain becomes
    gmail.com; when nothing is left of the local part the field becomes
    [false]. *)
Theorem email_normalization (V : validator_js) (b : contact_body) :
  let e := trim (toString (Validator.email b)) in
  Validator.email (sanitized V b) = normalizeEmail V e
  /\ (has_char "@" e = true ->
      provider_domain V (domain_of e) = false ->
      Validator.email (sanitized V b) = Text (toLowerCase e))
  /\ (domain_of e = "gmail.com" \/ domain_of e = "googlemail.com" ->
      let local := join "@" (removelast (split "@" e)) in
      let kept := remove_single_dots false (hd "" (split "+" local)) in
      Validator.email (sanitized V b)
      = if (String.length kept =? 0)%nat then False_
        else Text (toLowerCase kept ++ "@gmail.com")).
Proof.
  intros e. split; [|split].
  - apply sanitized_email.
  - intros Hat Hp. rewrite sanitized_email. now apply normalizeEmail_plain.
  - intros Hd local kept. rewrite sanitized_email. fold e.
    unfold normalizeEmail. fold (domain_of e).
    assert (Hg : ((domain_of e =? "gmail.com")
                  || (domain_of e =? "googlemail.com"))%string = true).
    { destruct Hd as [-> | ->]; reflexivity. }
    rewrite Hg. reflexivity.
Qed.

Lemma email_normalization_foo_example :
  has_char "@" (trim "  Foo@EXAMPLE.com ") = true
  /\ provider_domain example_validator (domain_of (trim "  Foo@EXAMPLE.com ")) = false
  /\ Validator.email (sanitized example_validator Examples.foo_example)
     = Text "foo@example.com"
  /\ domain_of (trim (toString (Validator.email Examples.gmail_alias)))
     = "gmail.com"
  /\ Validator.email (sanitized example_validator Examples.gmail_alias)
     = Text "ab@gmail.com".
Proof.
  split; [reflexivity|]. split; [reflexivity|].
  split;
    [exact (proj1 (proj2 (email_normalization example_validator
                            Examples.foo_example))
              eq_refl eq_refl)|].
  split; [reflexivity|].
  exact (proj2 (proj2 (email_normalization example_validator Examples.gmail_alias))
           (or_introl eq_refl)).
Defined.

(** What becomes of gmail addresses: the sub-address goes, lone dots go, a
    run of dots stays, capitals are lowered, googlemail.com becomes
    gmail.com, and a local part that is all sub-address leaves [false]. *)
Example gmail_addresses_normalized :
  map (fun a =>
         Validator.email
           (sanitized example_validator
              {| Validator.name := Text "Jo"; Validator.email := Text a;
                 Validator.message := Text "0123456789" |}))
      [ "a.b+c@gmail.com"; " A.B.C@GoogleMail.com "; "a..b.c@gmail.com";
        "+x@gmail.com"; "a.b+c@example.com" ]
  = [ Text "ab@gmail.com"; Text "abc@gmail.com"; Text "a..bc@gmail.com";
      False_; Text "a.b+c@example.com" ].
Proof. vm_compute. reflexivity. Qed.

(** C1 as the spec words it fails on a gmail address: [normalizeEmail]
    drops the sub-address and the lone dot, which trimming and lower-casing
    alone would keep. *)
Lemma email_normalization_gmail_alias :
  Validator.email (sanitized example_validator Examples.gmail_alias)
  = Text "ab@gmail.com"
  /\ Validator.email (sanitized example_validator Examples.gmail_alias)
     <> Text (toLowerCase
                (trim (toString (Validator.email Examples.gmail_alias)))).
Proof.
  split; [reflexivity|]. vm_compute. intros H. discriminate H.
Qed.

Section CreateFacts.
Import Pg Server.
Variable V : validator_js.

Lemma isEmpty_false (s : string) : isEmpty s = false <-> s <> "".
Proof.
  unfold isEmpty. destruct s; simpl; split; congruence.
Qed.

Lemma isLength_not_empty (lo hi : nat) (s : string) :
  (0 < lo)%nat -> isLength lo hi s = true -> isEmpty s = false.
Proof.
  intros Hlo H. apply isLength_spec in H. apply isEmpty_false.
  intros ->. simpl in H. lia.
Qed.

Lemma strict_eq_spec (a b : option string) : strict_eq a b = true <-> a = b.
Proof.
  destruct a as [x|], b as [y|]; simpl; try (split; congruence).
  rewrite String.eqb_eq. split; congruence.
Qed.

Lemma strict_eq_false (a b : option string) : strict_eq a b = false <-> a <> b.
Proof.
  rewrite <- strict_eq_spec. destruct (strict_eq a b); split; congruence.
Qed.

(** Every error entry carries the trimmed text it was checked on. *)
Lemma validationResult_values (b : contact_body) :
  Forall (fun e => exists s, value e = Text s) (validationResult V b).
Proof.
  rewrite validationResult_chains, run_name_chain, run_email_chain,
    run_message_chain. cbn [snd].
  repeat (apply Forall_app; split);
    match goal with
    | |- Forall _ (if ?c then _ else _) =>
        destruct c; repeat constructor; cbn [value]; eauto
    end.
Qed.

End CreateFacts.

(** C3 (as amended).  The chains work on the trimmed fields: the text of
    each field without the white space at its two ends.  [validateContact]
    reports no error exactly when the trimmed name has 2 to 100 characters,
    the trimmed message has 10 to 1000, and the trimmed e-mail is not empty
    and passes validator.js's [isEmail].  The three chains all run, each on
    its own field, and every failed check adds its entry: the report is the
    entries of the name, of the e-mail and of the message, in that order. *)
Theorem validate_no_errors_iff (V : validator_js) (b : contact_body) :
  let n := trim (toString (Validator.name b)) in
  let e := trim (toString (Validator.email b)) in
  let m := trim (toString (Validator.message b)) in
  let entry v text field := {| value := Text v; msg := text; path := field |} in
  ValidatorSpec.trimmed (toString (Validator.name b)) n
  /\ ValidatorSpec.trimmed (toString (Validator.email b)) e
  /\ ValidatorSpec.trimmed (toString (Validator.message b)) m
  /\ (validationResult V b = [] <->
       (2 <= String.length n <= 100)%nat
       /\ (10 <= String.length m <= 1000)%nat
       /\ (e <> "" /\ isEmail V e = true))
  /\ validationResult V b =
       ((if (n =? "")%string then [entry n "Name is required" "name"] else [])
        ++ (if ((2 <=? String.length n) && (String.length n <=? 100))%nat then []
            else [entry n "Name must be between 2 and 100 characters" "name"])
        ++ (if (e =? "")%string then [entry e "Email is required" "email"] else [])
        ++ (if isEmail V e then []
            else [entry e "Please provide a valid email address" "email"])
        ++ (if (m =? "")%string then [entry m "Message is required" "message"]
            else [])
        ++ (if ((10 <=? String.length m) && (String.length m <=? 1000))%nat then []
            else [entry m "Message must be between 10 and 1000 characters"
                    "message"]))%list.
Proof.
  intros n e m entry.
  split; [apply trim_trimmed|]. split; [apply trim_trimmed|].
  split; [apply trim_trimmed|].
  assert (Hempty : forall s, (s =? "")%string = isEmpty s)
    by (intros [|? ?]; reflexivity).
  assert (Hlist : validationResult V b =
       ((if (n =? "")%string then [entry n "Name is required" "name"] else [])
        ++ (if ((2 <=? String.length n) && (String.length n <=? 100))%nat then []
            else [entry n "Name must be between 2 and 100 characters" "name"])
        ++ (if (e =? "")%string then [entry e "Email is required" "email"] else [])
        ++ (if isEmail V e then []
            else [entry e "Please provide a valid email address" "email"])
        ++ (if (m =? "")%string then [entry m "Message is required" "message"]
            else [])
        ++ (if ((10 <=? String.length m) && (String.length m <=? 1000))%nat then []
            else [entry m "Message must be between 10 and 1000 characters"
                    "message"]))%list).
  { rewrite validationResult_chains, run_name_chain, run_email_chain,
      run_message_chain. cbn [snd]. fold n e m.
    rewrite !Hempty. unfold isLength, entry.
    destruct (isEmpty n), (isEmpty e), (isEmpty m); cbn [negb];
      rewrite <- ?app_assoc; reflexivity. }
  split; [|exact Hlist].
  rewrite Hlist, !Hempty. clear Hlist.
  change ((2 <=? String.length n) && (String.length n <=? 100))%nat
    with (isLength 2 100 n).
  change ((10 <=? String.length m) && (String.length m <=? 1000))%nat
    with (isLength 10 1000 m).
  rewrite <- !isLength_spec, <- isEmpty_false.
  pose proof (isLength_not_empty 2 100 n) as Hn.
  pose proof (isLength_not_empty 10 1000 m) as Hm.
  destruct (isLength 2 100 n), (isLength 10 1000 m), (isEmail V e), (isEmpty e),
    (isEmpty n), (isEmpty m); cbn [negb app];
    (split; [intros H; try discriminate H | intros (H1 & H2 & H3 & H4)]);
    try discriminate; try reflexivity; auto;
    try (specialize (Hn ltac:(lia) eq_refl); discriminate Hn);
    try (specialize (Hm ltac:(lia) eq_refl); discriminate Hm).
Qed.

(** C3 as the spec words it fails on [a@b.c]: the address has the shape
    local@domain.tld, name and message are within their bounds, and
    validation reports it, because [isEmail] takes no top-level domain of
    one letter. *)
Lemma validate_refuses_one_letter_tld :
  ValidatorSpec.email_shape
    (trim (toString (Validator.email Examples.one_letter_tld)))
  /\ (2 <= String.length (trim (toString (Validator.name Examples.one_letter_tld)))
       <= 100)%nat
  /\ (10 <= String.length
              (trim (toString (Validator.message Examples.one_letter_tld)))
       <= 1000)%nat
  /\ map msg (validationResult validator_js_13 Examples.one_letter_tld)
     = ["Please provide a valid email address"].
Proof.
  split; [|split; [change (2 <= 2 <= 100)%nat; lia
                   | split; [change (10 <= 10 <= 1000)%nat; lia
                            | vm_compute; reflexivity]]].
  exists "a", "b", "c". split; [reflexivity|].
  repeat split; try discriminate;
    repeat constructor; try reflexivity; intros H; discriminate H.
Qed.

(** An address [isEmail] takes without its having that shape: a quoted
    local part may hold white space. *)
Example validate_accepts_quoted_space :
  validationResult validator_js_13
    {| Validator.name := Text "Jo";
       Validator.email := Text (Pg.dquote ++ "a b" ++ Pg.dquote ++ "@example.com");
       Validator.message := Text "0123456789" |} = [].
Proof. vm_compute. reflexivity. Qed.

(** C4 (as amended).  When validation reports at least one error the
    response is 400 with body
    [{error: "Validation failed", details: [...]}], nothing is sent to the
    store, and [details] lists the errors in the order they were reported,
    each an object with the members [type], [value], [msg], [path] and
    [location]. *)
Theorem validation_failure_response (V : validator_js) (env : Server.process_env)
  (store : Type) (pool : store -> string -> list Pg.param -> Pg.outcome * store)
  (req : Server.Post.request) (w : Server.world store) :
  validationResult V (Server.Post.body req) <> [] ->
  Server.post_contacts V env store pool req w =
    (Response 400
       (JObj [ ("error", JStr "Validation failed");
               ("details",
                JArr (map json_of_error
                          (validationResult V (Server.Post.body req)))) ]),
     w)
  /\ Forall (fun entry => keys entry = ["type"; "value"; "msg"; "path"; "location"])
            (map json_of_error (validationResult V (Server.Post.body req))).
Proof.
  intros Herr. split.
  - unfold Server.post_contacts.
    destruct (validationResult V (Server.Post.body req)); [congruence|].
    reflexivity.
  - apply Forall_map.
    eapply Forall_impl; [|apply validationResult_values].
    intros err [s Hs]. unfold json_of_error. rewrite Hs. reflexivity.
Qed.

Lemma validation_failure_short_name :
  validationResult example_validator
    (Server.Post.body (Examples.submit Examples.short_name)) <> []
  /\ Server.post_contacts example_validator Examples.production _
       (Pg.query Examples.utc 0) (Examples.submit Examples.short_name)
       (Server.fresh Examples.empty_db)
     = (Response 400
          (JObj [ ("error", JStr "Validation failed");
                  ("details",
                   JArr [ JObj [ ("type", JStr "field");
                                 ("value", JStr "J");
                                 ("msg", JStr "Name must be between 2 and 100 characters");
                                 ("path", JStr "name");
                                 ("location", JStr "body") ] ]) ]),
        Server.fresh Examples.empty_db).
Proof.
  assert (H : validationResult example_validator
                (Server.Post.body (Examples.submit Examples.short_name)) <> [])
    by (vm_compute; discriminate).
  split; [exact H|].
  exact (proj1 (validation_failure_response example_validator Examples.production _
                  (Pg.query Examples.utc 0) (Examples.submit Examples.short_name)
                  (Server.fresh Examples.empty_db) H)).
Defined.

(** C4 as the spec words it fails on the shape of an entry: the entry for a
    one-letter name has no [field], [rule] or [message] member. *)
Lemma validation_failure_entry_shape :
  exists entry,
    member "details"
      (body (fst (Server.post_contacts example_validator Examples.production _
                    (Pg.query Examples.utc 0)
                    (Examples.submit Examples.short_name)
                    (Server.fresh Examples.empty_db))))
    = Some (JArr [entry])
    /\ keys entry = ["type"; "value"; "msg"; "path"; "location"]
    /\ keys entry <> ["field"; "rule"; "message"]
    /\ member "rule" entry = None.
Proof.
  eexists. split; [reflexivity|]. split; [reflexivity|].
  split; [intros H; discriminate H | reflexivity].
Qed.

(** C5.  When the insert of a valid submission is rejected by the store:
    a uniqueness violation (SQLSTATE 23505) gives 409; any other error
    gives 500, whose body carries [details] (the error's message) when
    [NODE_ENV] is [development] and has no [details] member otherwise. *)
Theorem create_store_failure (V : validator_js) (env : Server.process_env)
  (store : Type) (pool : store -> string -> list Pg.param -> Pg.outcome * store)
  (req : Server.Post.request) (w : Server.world store) (e : Pg.pg_error) :
  validationResult V (Server.Post.body req) = [] ->
  fst (pool (Server.db w) Pg.insert_contact_sql (Server.insert_params V req))
    = Pg.Rejected e ->
  let r := fst (Server.post_contacts V env store pool req w) in
  (Pg.code e = Some "23505" -> status r = 409)
  /\ (Pg.code e <> Some "23505" ->
      status r = 500
      /\ (Server.NODE_ENV env = Some "development" ->
          member "details" (body r) = Some (JStr (Pg.error_message e)))
      /\ (Server.NODE_ENV env <> Some "development" ->
          member "details" (body r) = None)).
Proof.
  intros Hok Hrej r. subst r.
  unfold Server.post_contacts. rewrite Hok.
  unfold Server.bind, Server.pool_query.
  destruct (pool _ _ _) as [o s]. cbn [fst] in Hrej. subst o.
  destruct (Server.strict_eq (Pg.code e) (Some "23505")) eqn:Hc.
  - apply strict_eq_spec in Hc. split; [reflexivity | congruence].
  - apply strict_eq_false in Hc. split; [congruence|]. intros _.
    unfold Server.ret, Server.failure, Server.details. cbn [fst status body].
    split; [reflexivity|].
    destruct (Server.strict_eq (Server.NODE_ENV env) (Some "development")) eqn:Hd.
    + apply strict_eq_spec in Hd. split; [reflexivity | congruence].
    + apply strict_eq_false in Hd. split; [congruence | reflexivity].
Qed.

Lemma create_store_failure_conflict :
  validationResult example_validator
    (Server.Post.body (Examples.submit Examples.foo_example)) = []
  /\ fst (Examples.rejecting Examples.unique_violation tt Pg.insert_contact_sql
            (Server.insert_params example_validator
               (Examples.submit Examples.foo_example)))
     = Pg.Rejected Examples.unique_violation
  /\ status (fst (Server.post_contacts example_validator Examples.production unit
                    (Examples.rejecting Examples.unique_violation)
                    (Examples.submit Examples.foo_example) (Server.fresh tt)))
     = 409.
Proof.
  split; [reflexivity|]. split; [reflexivity|].
  exact (proj1 (create_store_failure example_validator Examples.production unit
                  (Examples.rejecting Examples.unique_violation)
                  (Examples.submit Examples.foo_example) (Server.fresh tt)
                  Examples.unique_violation eq_refl eq_refl)
               eq_refl).
Defined.

(** A refused connection: the message is shown in development and left out
    in production. *)
Example create_store_failure_details :
  fst (Server.post_contacts example_validator Examples.development unit
         (Examples.rejecting Examples.connection_refused)
         (Examples.submit Examples.foo_example) (Server.fresh tt))
  = Response 500 (JObj [ ("error", JStr "Failed to save contact");
                         ("details", JStr "connect ECONNREFUSED") ])
  /\ fst (Server.post_contacts example_validator Examples.production unit
            (Examples.rejecting Examples.connection_refused)
            (Examples.submit Examples.foo_example) (Server.fresh tt))
     = Response 500 (JObj [ ("error", JStr "Failed to save contact") ]).
Proof. split; reflexivity. Qed.

(** ** Listing *)

Section NumberFacts.

Lemma parseInt_decimal (z : Z) : parseInt (decimal z) = Some z.
Proof.
  unfold parseInt, decimal.
  rewrite NilZero.isi.
  - cbn [option_map]. now rewrite DecimalZ.of_to.
  - destruct z; cbn; try discriminate.
    intros [= H]. now apply DecimalPos.Unsigned.to_uint_nonnil in H.
  - destruct z; cbn; try discriminate.
    intros [= H]. now apply DecimalPos.Unsigned.to_uint_nonnil in H.
Qed.

(** [Math.ceil(a / b)] for a positive divisor. *)
Lemma ceil_div_spec (a b : Z) :
  0 < b ->
  exists c, Server.ceil_div (Some a) b = Some c /\ (c - 1) * b < a <= c * b.
Proof.
  intros Hb. unfold Server.ceil_div.
  destruct (Z.eqb_spec b 0); [lia|].
  eexists; split; [reflexivity|].
  pose proof (Z.div_mod (- a) b ltac:(lia)).
  pose proof (Z.mod_pos_bound (- a) b Hb). nia.
Qed.

End NumberFacts.

Section OrderFacts.
Context {A : Type} (key : A -> Z).

Local Abbreviation desc := (fun a b : A => key a >= key b).

Lemma insert_desc_In (x y : A) (l : list A) :
  In y (Pg.insert_desc key x l) <-> y = x \/ In y l.
Proof.
  induction l as [|z l IH]; simpl; [intuition congruence|].
  destruct (key z <? key x); simpl; [intuition congruence|].
  rewrite IH. intuition congruence.
Qed.

Lemma insert_desc_sorted (x : A) (l : list A) :
  StronglySorted desc l -> StronglySorted desc (Pg.insert_desc key x l).
Proof.
  induction 1 as [|z l Hs IH Hz]; simpl; [repeat constructor|].
  destruct (Z.ltb_spec (key z) (key x)).
  - constructor; [now constructor|].
    constructor; [lia|].
    eapply Forall_impl; [|exact Hz]. cbv beta. intros; lia.
  - constructor; [exact IH|].
    apply Forall_forall. intros y Hy. apply insert_desc_In in Hy.
    destruct Hy as [->|Hy]; [lia|].
    rewrite Forall_forall in Hz. now apply Hz.
Qed.

Lemma order_by_desc_sorted (l : list A) :
  StronglySorted desc (Pg.order_by_desc key l).
Proof.
  induction l; simpl; [constructor | now apply insert_desc_sorted].
Qed.

Lemma insert_desc_length (x : A) (l : list A) :
  List.length (Pg.insert_desc key x l) = S (List.length l).
Proof.
  induction l as [|z l IH]; simpl; [reflexivity|].
  destruct (key z <? key x); simpl; congruence.
Qed.

Lemma order_by_desc_length (l : list A) :
  List.length (Pg.order_by_desc key l) = List.length l.
Proof.
  induction l; simpl; [reflexivity|].
  now rewrite insert_desc_length, IHl.
Qed.

Lemma order_by_desc_In (x : A) (l : list A) :
  In x (Pg.order_by_desc key l) <-> In x l.
Proof.
  induction l; simpl; [tauto|].
  rewrite insert_desc_In, IHl. intuition congruence.
Qed.

Lemma insert_desc_perm (x : A) (l : list A) :
  Permutation (Pg.insert_desc key x l) (x :: l).
Proof.
  induction l as [|y l IH]; simpl; [reflexivity|].
  destruct (key y <? key x); [reflexivity|].
  rewrite IH. apply perm_swap.
Qed.

Lemma order_by_desc_perm (l : list A) :
  Permutation (Pg.order_by_desc key l) l.
Proof.
  induction l as [|x l IH]; simpl; [reflexivity|].
  rewrite insert_desc_perm. now constructor.
Qed.

(** Among lists sorted on distinct keys a permutation is an equality. *)
Lemma sorted_perm_unique (l l' : list A) :
  StronglySorted desc l -> StronglySorted desc l' ->
  NoDup (map key l) -> Permutation l l' -> l = l'.
Proof.
  intros Hs. revert l'.
  induction Hs as [|x l Hs IH Hx]; intros l' Hs' Hnd Hp.
  - now apply Permutation_nil in Hp.
  - destruct Hs' as [|y l' Hs' Hy].
    + symmetry in Hp. now apply Permutation_nil in Hp.
    + inversion Hnd as [|? ? Hnotin Hnd']; subst.
      assert (Hxy : x = y).
      { assert (Hinx : In x (y :: l')).
        { eapply Permutation_in; [exact Hp | now left]. }
        assert (Hiny : In y (x :: l)).
        { eapply Permutation_in; [symmetry; exact Hp | now left]. }
        destruct Hinx as [->|Hinx]; [reflexivity|].
        destruct Hiny as [->|Hiny]; [reflexivity|].
        rewrite Forall_forall in Hx, Hy.
        specialize (Hx y Hiny). specialize (Hy x Hinx). cbv beta in Hx, Hy.
        exfalso. apply Hnotin.
        replace (key x) with (key y) by lia. now apply in_map. }
      subst y. f_equal. apply IH; [exact Hs' | exact Hnd'|].
      now apply Permutation_cons_inv in Hp.
Qed.

Lemma sorted_skipn (R : A -> A -> Prop) (n : nat) (l : list A) :
  StronglySorted R l -> StronglySorted R (skipn n l).
Proof.
  revert l. induction n; intros l H; [exact H|].
  destruct H; simpl; [constructor | auto].
Qed.

Lemma sorted_firstn (R : A -> A -> Prop) (n : nat) (l : list A) :
  StronglySorted R l -> StronglySorted R (firstn n l).
Proof.
  revert l. induction n; intros l H; [constructor|].
  destruct H as [|x l Hs Hx]; simpl; constructor; auto.
  rewrite Forall_forall in *. intros y Hy. apply Hx.
  rewrite <- (firstn_skipn n l). apply in_or_app. now left.
Qed.

End OrderFacts.

Section NewestFirst.
Import Pg.

(** Whatever the ranks, the rows come out newest first, each once. *)
Lemma by_created_at_desc_sorted (rank : row -> Z) (rows : list row) :
  StronglySorted ListSpec.newest_first (by_created_at_desc rank rows).
Proof.
  unfold by_created_at_desc. apply (order_by_desc_sorted created_at).
Qed.

Lemma by_created_at_desc_perm (rank : row -> Z) (rows : list row) :
  Permutation (by_created_at_desc rank rows) rows.
Proof.
  unfold by_created_at_desc.
  now rewrite !order_by_desc_perm.
Qed.

Lemma by_created_at_desc_length (rank : row -> Z) (rows : list row) :
  List.length (by_created_at_desc rank rows) = List.length rows.
Proof.
  apply Permutation_length, by_created_at_desc_perm.
Qed.

(** Without rows of equal [created_at] the ranks do not matter. *)
Lemma by_created_at_desc_no_ties (rank rank' : row -> Z) (rows : list row) :
  TableSpec.no_ties rows ->
  by_created_at_desc rank rows = by_created_at_desc rank' rows.
Proof.
  intros Hnd.
  apply (sorted_perm_unique created_at);
    try apply by_created_at_desc_sorted.
  - eapply Permutation_NoDup; [|exact Hnd].
    apply Permutation_map. symmetry. apply by_created_at_desc_perm.
  - now rewrite !by_created_at_desc_perm.
Qed.

End NewestFirst.

Section ListFacts.
Import Pg Server ListSpec.

Ltac filter_cases q :=
  destruct q as [page limit [[|? ?]|] [[|? ?]|] [[|? ?]|]].

Lemma build_params (q : Query.request) :
  let s := build_list_statements q in
  params s = (filter_parameters q
              ++ [PInt (limit_of q); PInt ((page_of q - 1) * limit_of q)])%list
  /\ countParams s = filter_parameters q
  /\ paramCount s = List.length (filter_parameters q).
Proof.
  filter_cases q; repeat split; reflexivity.
Qed.

Lemma build_parse (q : Query.request) :
  let s := build_list_statements q in
  parse (Server.query s)
    = Some (SelectContacts (where_of q) (paramCount s + 1) (paramCount s + 2))
  /\ parse (countQuery s) = Some (CountContacts (where_of q)).
Proof.
  filter_cases q; split; vm_compute; reflexivity.
Qed.

Lemma count_arity (q : Query.request) :
  arity (CountContacts (where_of q)) = List.length (filter_parameters q).
Proof.
  filter_cases q; reflexivity.
Qed.

Variable ses : session.
Variable now : Z.

Lemma select_arity (q : Query.request) :
  arity (SelectContacts (where_of q)
           (List.length (filter_parameters q) + 1)
           (List.length (filter_parameters q) + 2))
  = (List.length (filter_parameters q) + 2)%nat.
Proof.
  filter_cases q; reflexivity.
Qed.

(** What the engine makes of the filters of a legible request. *)
Lemma bind_where_legible (q : Query.request) (rest : list param) :
  TableSpec.legible ses q ->
  exists f,
    bind_where ses (filter_parameters q ++ rest)%list (where_of q) = inl f
    /\ forall r, f r = matches ses q r.
Proof.
  intros (Hc & Hsd & Hed). revert Hc Hsd Hed.
  filter_cases q;
    cbv beta iota zeta delta
      [clean readable where_of filter_parameters present truthy
         prepare_optional app bind_where bind_predicate bind_timestamp
         nth_error Nat.sub Nat.add text_in option_map matches
         Query.email Query.startDate Query.endDate].
  all: repeat match goal with
         | |- context [has_nul ?s] => destruct (has_nul s); cbn [negb andb]
         | |- context [timestamptz_in ses ?s] =>
             destruct (timestamptz_in ses s)
         end;
    intros Hc Hsd Hed; try discriminate.
  all: eexists; split; [reflexivity|]; intros r; cbv beta;
    rewrite ?andb_true_r; try reflexivity; try apply andb_assoc.
Qed.

Lemma int8_in_range (z : Z) :
  -9223372036854775808 <= z <= 9223372036854775807 ->
  int8_in (PInt z) = inl (Some z).
Proof.
  intros H. unfold int8_in, integer_in.
  destruct (Z.leb_spec (-9223372036854775808) z); [|lia].
  destruct (Z.leb_spec z 9223372036854775807); [reflexivity | lia].
Qed.

Lemma int8_out_of_range (z : Z) :
  9223372036854775807 < z ->
  int8_in (PInt z) = inr (out_of_range "bigint" z).
Proof.
  intros H. unfold int8_in, integer_in.
  destruct (Z.leb_spec z 9223372036854775807); [lia|].
  now rewrite andb_false_r.
Qed.

Lemma nth_error_limit (fp : list param) (a b : param) :
  nth_error (fp ++ [a; b]) (List.length fp + 1 - 1) = Some a
  /\ nth_error (fp ++ [a; b]) (List.length fp + 2 - 1) = Some b.
Proof.
  split.
  - replace (List.length fp + 1 - 1)%nat with (List.length fp + 0)%nat by lia.
    now rewrite nth_error_app2, Nat.add_comm, Nat.add_sub by lia.
  - replace (List.length fp + 2 - 1)%nat with (List.length fp + 1)%nat by lia.
    now rewrite nth_error_app2, Nat.add_comm, Nat.add_sub by lia.
Qed.

(** The row statement as the engine reads it. *)
Lemma select_exec (db : database) (q : Query.request) :
  let s := build_list_statements q in
  Pg.query ses now db (Server.query s) (params s) =
    (exec_select_contacts ses now db (where_of q)
       (List.length (filter_parameters q) + 1)
       (List.length (filter_parameters q) + 2)
       (filter_parameters q
        ++ [PInt (limit_of q); PInt ((page_of q - 1) * limit_of q)]),
     db).
Proof.
  intros s.
  destruct (build_parse q) as [Hp _].
  destruct (build_params q) as (Hps & _ & Hpc).
  unfold Pg.query. fold s in Hp, Hps, Hpc. rewrite Hp, Hps, Hpc.
  rewrite select_arity, length_app, Nat.eqb_refl. reflexivity.
Qed.

(** The row statement of an acceptable request returns the matching rows,
    newest first, cut to the page. *)
Lemma select_outcome (db : database) (q : Query.request) :
  TableSpec.legible ses q ->
  0 <= limit_of q <= 9223372036854775807 ->
  0 <= (page_of q - 1) * limit_of q <= 9223372036854775807 ->
  let s := build_list_statements q in
  let matching := filter (matches ses q) (contacts db) in
  Pg.query ses now db (Server.query s) (params s) =
    (Rows (map (project ["id"; "name"; "email"; "created_at"])
               (firstn (Z.to_nat (limit_of q))
                  (skipn (Z.to_nat ((page_of q - 1) * limit_of q))
                     (by_created_at_desc
                        (tie_rank ses now (params s) matching) matching)))),
     db).
Proof.
  intros Hleg Hl Ho s matching.
  unfold s at 1 2. rewrite select_exec.
  destruct (build_params q) as (Hps & _ & _). fold s in Hps.
  rewrite Hps. unfold exec_select_contacts.
  destruct (bind_where_legible q
              [PInt (limit_of q); PInt ((page_of q - 1) * limit_of q)] Hleg)
    as (f & -> & Hf).
  destruct (nth_error_limit (filter_parameters q) (PInt (limit_of q))
              (PInt ((page_of q - 1) * limit_of q))) as [-> ->].
  cbn [option_map].
  rewrite !int8_in_range by lia.
  destruct (Z.ltb_spec (limit_of q) 0); [lia|].
  destruct (Z.ltb_spec ((page_of q - 1) * limit_of q) 0); [lia|].
  rewrite (filter_ext f (matches ses q) Hf). reflexivity.
Qed.

(** The count statement of a legible request counts the matching rows. *)
Lemma count_outcome (db : database) (q : Query.request) :
  TableSpec.legible ses q ->
  let s := build_list_statements q in
  Pg.query ses now db (countQuery s) (countParams s) =
    (Rows [JObj [("count",
                  bigint (List.length (filter (matches ses q) (contacts db))))]],
     db).
Proof.
  intros Hleg s.
  destruct (build_parse q) as [_ Hp].
  destruct (build_params q) as (_ & Hps & _).
  unfold Pg.query. fold s in Hp, Hps. rewrite Hp, Hps, count_arity.
  rewrite Nat.eqb_refl. cbn [exec]. unfold exec_count_contacts.
  destruct (bind_where_legible q [] Hleg) as (f & Hb & Hf).
  rewrite app_nil_r in Hb. rewrite Hb.
  now rewrite (filter_ext f (matches ses q) Hf).
Qed.

Lemma count_reads_back (n : nat) :
  to_number (member "count" (JObj [("count", bigint n)])) = Some (Z.of_nat n).
Proof.
  cbn. apply parseInt_decimal.
Qed.

End ListFacts.

(** C2.  Whatever filters a list request carries, the count statement is
    sent with exactly the filter parameters: the first [paramCount]
    parameters, as many as its text has placeholders, each the text of a
    filter.  The limit and the offset follow them in the row statement's
    list only. *)
Theorem count_query_parameters (env : Server.process_env) (store : Type)
  (pool : store -> string -> list Pg.param -> Pg.outcome * store)
  (q : Server.Query.request) (w : Server.world store) :
  let s := Server.build_list_statements q in
  Server.countParams s = ListSpec.filter_parameters q
  /\ Server.countParams s = firstn (Server.paramCount s) (Server.params s)
  /\ List.length (Server.countParams s) = Server.paramCount s
  /\ Server.params s =
       (Server.countParams s
        ++ [Pg.PInt (Server.limit_of q);
            Pg.PInt ((Server.page_of q - 1) * Server.limit_of q)])%list
  /\ Server.issued (snd (Server.get_contacts env store pool q w)) =
       (Server.issued w
        ++ [(Server.query s, Server.params s);
            (Server.countQuery s, Server.countParams s)])%list
  /\ option_map Pg.arity (Pg.parse (Server.countQuery s))
     = Some (List.length (Server.countParams s))
  /\ Forall (fun p => exists v, p = Pg.PText v) (Server.countParams s).
Proof.
  intros s.
  destruct (build_params q) as (Hps & Hcs & Hpc). fold s in Hps, Hcs, Hpc.
  destruct (build_parse q) as [_ Hparse]. fold s in Hparse.
  repeat split.
  - exact Hcs.
  - rewrite Hcs, Hps, Hpc. now rewrite firstn_app, firstn_all, Nat.sub_diag, app_nil_r.
  - now rewrite Hcs, Hpc.
  - now rewrite Hps, Hcs.
  - unfold Server.get_contacts, Server.bind, Server.pool_query. fold s.
    destruct (pool (Server.db w) _ _) as [r1 s1]. cbn [Server.db Server.issued].
    destruct (pool s1 _ _) as [r2 s2].
    destruct r1, r2; try destruct (nth_error _ _);
      cbn [snd Server.ret Server.issued]; now rewrite <- app_assoc.
  - rewrite Hparse, Hcs. cbn [option_map]. now rewrite count_arity.
  - rewrite Hcs. clear.
    destruct q as [page limit [[|? ?]|] [[|? ?]|] [[|? ?]|]];
      repeat constructor; eexists; reflexivity.
Qed.

(** C6 (as amended).  [page] defaults to 1 and [limit] to 10, and the limit
    is passed on as given, however large.  For a request whose page, limit
    and offset [(page - 1) * limit] are integers a double holds exactly,
    with a limit and an offset that are not negative and filters the engine
    reads, the response is 200; [total] counts the rows that pass the
    filters; [totalPages] is [ceil(total / limit)] for a positive limit and
    [null] for the limit 0; the rows are the rows that pass the filters,
    ordered by [created_at] descending (rows of equal [created_at] in an
    order the engine chooses), after skipping the offset and cut to the
    limit.  The table is left as it was. *)
Theorem list_pagination (ses : Pg.session) (now : Z) (env : Server.process_env)
  (q : Server.Query.request) (w : Server.world Pg.database) :
  let page := match Server.Query.page q with Some p => p | None => 1 end in
  let limit := match Server.Query.limit q with Some l => l | None => 10 end in
  let offset := (page - 1) * limit in
  let matching := filter (ListSpec.matches ses q) (Pg.contacts (Server.db w)) in
  let total := Z.of_nat (List.length matching) in
  let shown r :=
    JObj [ ("id", JNum (Pg.id r)); ("name", JStr (Pg.name r));
           ("email", JStr (Pg.email r));
           ("created_at", JDate (Pg.created_at r)) ] in
  TableSpec.safe page -> TableSpec.safe limit -> TableSpec.safe offset ->
  TableSpec.legible ses q ->
  0 <= limit -> 0 <= offset ->
  exists (sorted : list Pg.row) (totalPages : json),
    Permutation sorted matching
    /\ StronglySorted ListSpec.newest_first sorted
    /\ fst (Server.get_contacts env _ (Pg.query ses now) q w) =
         Response 200
           (JObj [ ("success", JBool true);
                   ("data",
                    JArr (map shown
                            (firstn (Z.to_nat limit)
                               (skipn (Z.to_nat offset) sorted))));
                   ("pagination",
                    JObj [ ("page", JNum page);
                           ("limit", JNum limit);
                           ("total", JNum total);
                           ("totalPages", totalPages) ]) ])
    /\ (limit = 0 -> totalPages = JNull)
    /\ (0 < limit ->
        exists c, totalPages = JNum c /\ (c - 1) * limit < total <= c * limit)
    /\ Server.db (snd (Server.get_contacts env _ (Pg.query ses now) q w))
       = Server.db w.
Proof.
  intros page limit offset matching total shown Hsp Hsl Hso Hleg Hl Ho.
  change page with (Server.page_of q) in *.
  change limit with (Server.limit_of q) in *.
  fold page limit in offset. unfold TableSpec.safe in Hsp, Hsl, Hso.
  set (s := Server.build_list_statements q).
  exists (Pg.by_created_at_desc
            (Pg.tie_rank ses now (Server.params s) matching) matching),
         (Server.number (Server.ceil_div (Some total) limit)).
  pose proof (select_outcome ses now (Server.db w) q Hleg
                ltac:(fold limit; lia) ltac:(fold page limit offset; lia))
    as Hsel.
  pose proof (count_outcome ses now (Server.db w) q Hleg) as Hcnt.
  cbv zeta in Hsel, Hcnt. fold s matching page limit offset in Hsel, Hcnt.
  split; [apply by_created_at_desc_perm|].
  split; [apply by_created_at_desc_sorted|].
  unfold Server.get_contacts, Server.bind, Server.pool_query. fold s.
  rewrite Hsel. cbn [Server.db]. rewrite Hcnt.
  cbn [nth_error fst snd Server.ret Server.db].
  rewrite count_reads_back. fold matching total limit page.
  split.
  { cbn [object defined_members Server.number].
    rewrite map_ext with (g := shown) by reflexivity. reflexivity. }
  split.
  { intros H0. unfold Server.ceil_div.
    destruct (Z.eqb_spec limit 0); [reflexivity | contradiction]. }
  split; [|reflexivity].
  intros Hpos. destruct (ceil_div_spec total limit Hpos) as (c & -> & Hc).
  exists c. split; [reflexivity | exact Hc].
Qed.

Lemma list_pagination_page_two :
  TableSpec.safe 2 /\ TableSpec.safe 10
  /\ TableSpec.legible Examples.utc Examples.page_two
  /\ exists sorted,
       Permutation sorted (Pg.contacts Examples.twelve_rows)
       /\ StronglySorted ListSpec.newest_first sorted
       /\ member "pagination"
            (body (fst (Server.get_contacts Examples.production _
                          (Pg.query Examples.utc 0) Examples.page_two
                          (Server.fresh Examples.twelve_rows))))
          = Some (JObj [ ("page", JNum 2); ("limit", JNum 10);
                         ("total", JNum 12); ("totalPages", JNum 2) ])
       /\ member "data"
            (body (fst (Server.get_contacts Examples.production _
                          (Pg.query Examples.utc 0) Examples.page_two
                          (Server.fresh Examples.twelve_rows))))
          = Some (JArr (map (fun r =>
                               JObj [ ("id", JNum (Pg.id r));
                                      ("name", JStr (Pg.name r));
                                      ("email", JStr (Pg.email r));
                                      ("created_at", JDate (Pg.created_at r)) ])
                            (skipn 10 sorted))).
Proof.
  assert (H2 : TableSpec.safe 2) by (unfold TableSpec.safe; lia).
  assert (H10 : TableSpec.safe 10) by (unfold TableSpec.safe; lia).
  assert (Hleg : TableSpec.legible Examples.utc Examples.page_two)
    by (repeat split).
  assert (Hpos : 0 <= 10) by lia.
  split; [exact H2|]. split; [exact H10|]. split; [exact Hleg|].
  destruct (list_pagination Examples.utc 0 Examples.production
              Examples.page_two (Server.fresh Examples.twelve_rows)
              H2 H10 H10 Hleg Hpos Hpos)
    as (sorted & totalPages & Hperm & Hsorted & Hresp & _ & Htp & _).
  exists sorted. split; [exact Hperm|]. split; [exact Hsorted|].
  rewrite Hresp.
  assert (H0 : 0 < 10) by lia.
  destruct (Htp H0) as (c & -> & Hc).
  assert (c = 2) as -> by (cbn in Hc; lia).
  split; [reflexivity|].
  cbn [body member find fst snd String.eqb Ascii.eqb Bool.eqb option_map].
  assert (Hlen : List.length sorted = 12%nat)
    by (rewrite (Permutation_length Hperm); reflexivity).
  change (Z.to_nat 10) with 10%nat.
  rewrite firstn_all2; [reflexivity|].
  rewrite length_skipn, Hlen. apply Nat.leb_le. reflexivity.
Defined.

(** The twelve rows, ten to a page: page 2 holds the two oldest. *)
Example list_page_two_of_twelve :
  fst (Server.get_contacts Examples.production _ (Pg.query Examples.utc 0)
         Examples.page_two (Server.fresh Examples.twelve_rows))
  = Response 200
      (JObj [ ("success", JBool true);
              ("data",
               JArr [ JObj [ ("id", JNum 2); ("name", JStr "Jo");
                             ("email", JStr "jo@example.com");
                             ("created_at", JDate 2000) ];
                      JObj [ ("id", JNum 1); ("name", JStr "Jo");
                             ("email", JStr "jo@example.com");
                             ("created_at", JDate 1000) ] ]);
              ("pagination",
               JObj [ ("page", JNum 2); ("limit", JNum 10);
                      ("total", JNum 12); ("totalPages", JNum 2) ]) ]).
Proof. vm_compute. reflexivity. Qed.

(** The limit is the caller's: five to a page gives three pages, and fifty
    gives all twelve rows at once. *)
Example list_limits_of_twelve :
  member "pagination"
    (body (fst (Server.get_contacts Examples.production _
                  (Pg.query Examples.utc 0) (Cases.first_page 5)
                  (Server.fresh Examples.twelve_rows))))
  = Some (JObj [ ("page", JNum 1); ("limit", JNum 5);
                 ("total", JNum 12); ("totalPages", JNum 3) ])
  /\ option_map (fun d => match d with JArr l => List.length l | _ => 0%nat end)
       (member "data"
          (body (fst (Server.get_contacts Examples.production _
                        (Pg.query Examples.utc 0) (Cases.first_page 50)
                        (Server.fresh Examples.twelve_rows)))))
     = Some 12%nat.
Proof. split; vm_compute; reflexivity. Qed.

(** C6 as the spec words it fails for the limit 0: the response is 200 and
    its [totalPages] is [null], not a number. *)
Lemma list_pagination_limit_zero :
  fst (Server.get_contacts Examples.production _ (Pg.query Examples.utc 0)
         (Cases.first_page 0) (Server.fresh Examples.twelve_rows))
  = Response 200
      (JObj [ ("success", JBool true);
              ("data", JArr []);
              ("pagination",
               JObj [ ("page", JNum 1); ("limit", JNum 0);
                      ("total", JNum 12); ("totalPages", JNull) ]) ])
  /\ forall c : Z,
       option_map (member "totalPages")
         (member "pagination"
            (body (fst (Server.get_contacts Examples.production _
                          (Pg.query Examples.utc 0) (Cases.first_page 0)
                          (Server.fresh Examples.twelve_rows)))))
       <> Some (Some (JNum c)).
Proof.
  split; [vm_compute; reflexivity|].
  intros c. vm_compute. intros H. discriminate H.
Qed.

(** ** Deleting *)

Section DeleteFacts.
Import Pg Server StoreSpec.
Variable ses : session.
Variable now : Z.

Lemma parse_delete : parse delete_contact_sql = Some DeleteContact.
Proof. vm_compute. reflexivity. Qed.

Lemma int4_in_range (i : Z) :
  TableSpec.int4 i -> int4_in (PInt i) = inl (Some i).
Proof.
  unfold TableSpec.int4, int4_in, integer_in. intros H.
  destruct (Z.leb_spec (-2147483648) i); [|lia].
  destruct (Z.leb_spec i 2147483647); [reflexivity | lia].
Qed.

Lemma int4_out_of_range (i : Z) :
  ~ TableSpec.int4 i -> int4_in (PInt i) = inr (out_of_range "integer" i).
Proof.
  unfold TableSpec.int4, int4_in, integer_in. intros H.
  destruct (Z.leb_spec (-2147483648) i); [|reflexivity].
  destruct (Z.leb_spec i 2147483647); [lia | reflexivity].
Qed.

Lemma int4_cases (i : Z) :
  (TableSpec.int4 i /\ int4_in (PInt i) = inl (Some i))
  \/ (~ TableSpec.int4 i /\ int4_in (PInt i) = inr (out_of_range "integer" i)).
Proof.
  destruct (Z_le_dec (-2147483648) i) as [H1|H1];
    [destruct (Z_le_dec i 2147483647) as [H2|H2]|].
  - left. split; [split; assumption | apply int4_in_range; split; assumption].
  - right. assert (H : ~ TableSpec.int4 i) by (unfold TableSpec.int4; lia).
    split; [exact H | now apply int4_out_of_range].
  - right. assert (H : ~ TableSpec.int4 i) by (unfold TableSpec.int4; lia).
    split; [exact H | now apply int4_out_of_range].
Qed.

Lemma delete_exec (db : database) (i : Z) :
  Pg.query ses now db delete_contact_sql [PInt i] =
    match int4_in (PInt i) with
    | inl (Some i) =>
        (Rows (map (project ["id"; "email"])
                   (filter (fun r => Pg.id r =? i) (contacts db))),
         {| contacts := filter (fun r => negb (Pg.id r =? i)) (contacts db);
            contacts_id_seq := contacts_id_seq db |})
    | inl None => (Rows [], db)
    | inr e => (e, db)
    end.
Proof.
  unfold Pg.query. rewrite parse_delete. reflexivity.
Qed.

Lemma delete_outcome (db : database) (i : Z) :
  TableSpec.int4 i ->
  Pg.query ses now db delete_contact_sql [PInt i] =
    (Rows (map (project ["id"; "email"])
               (filter (fun r => Pg.id r =? i) (contacts db))),
     {| contacts := filter (fun r => negb (Pg.id r =? i)) (contacts db);
        contacts_id_seq := contacts_id_seq db |}).
Proof.
  intros H. now rewrite delete_exec, int4_in_range.
Qed.

Lemma delete_refused (db : database) (i : Z) :
  ~ TableSpec.int4 i ->
  Pg.query ses now db delete_contact_sql [PInt i]
  = (out_of_range "integer" i, db).
Proof.
  intros H. now rewrite delete_exec, int4_out_of_range.
Qed.

Lemma filter_none {A : Type} (f : A -> bool) (l : list A) :
  (forall x, In x l -> f x = false) -> filter f l = [].
Proof.
  induction l as [|x l IH]; intros H; simpl; [reflexivity|].
  rewrite (H x) by now left. apply IH. intros y Hy. apply H. now right.
Qed.

Lemma filter_all {A : Type} (f : A -> bool) (l : list A) :
  (forall x, In x l -> f x = true) -> filter f l = l.
Proof.
  induction l as [|x l IH]; intros H; simpl; [reflexivity|].
  rewrite (H x) by now left. f_equal. apply IH. intros y Hy. apply H. now right.
Qed.

Lemma filter_find {A : Type} (f : A -> bool) (l : list A) (x : A) :
  find f l = Some x -> exists rest, filter f l = x :: rest.
Proof.
  induction l as [|y l IH]; simpl; [discriminate|].
  destruct (f y); [intros [= ->]; eauto | exact IH].
Qed.

Lemma authorized_passes (env : process_env) (req : Delete.request) :
  authorized env req ->
  strict_eq (NODE_ENV env) (Some "production")
  && negb (strict_eq (Delete.x_api_key req) (ADMIN_API_KEY env)) = false.
Proof.
  intros H. destruct (strict_eq (NODE_ENV env) _) eqn:E; [|reflexivity].
  apply strict_eq_spec in E. apply H in E.
  apply strict_eq_spec in E. now rewrite E.
Qed.

(** An authorized delete of an id that no row has. *)
Lemma delete_missing (env : process_env) (req : Delete.request)
  (w : world database) :
  authorized env req ->
  TableSpec.int4 (Delete.id req) ->
  (forall r, In r (contacts (db w)) -> Pg.id r <> Delete.id req) ->
  fst (delete_contact env _ (Pg.query ses now) req w)
    = Response 404 (JObj [("error", JStr "Contact not found")])
  /\ db (snd (delete_contact env _ (Pg.query ses now) req w)) = db w.
Proof.
  intros Ha Hin Hno.
  unfold delete_contact. rewrite (authorized_passes env req Ha).
  unfold bind, pool_query. rewrite delete_outcome by exact Hin.
  rewrite filter_none, filter_all.
  - destruct (db w); split; reflexivity.
  - intros r Hr. apply negb_true_iff, Z.eqb_neq. now apply Hno.
  - intros r Hr. apply Z.eqb_neq. now apply Hno.
Qed.

End DeleteFacts.

(** C7.  In production, a delete whose [X-API-Key] is not the configured
    admin key is answered 401 and leaves the world as it was: the stored
    rows are unchanged and no statement has been sent. *)
Theorem delete_unauthorized (env : Server.process_env) (store : Type)
  (pool : store -> string -> list Pg.param -> Pg.outcome * store)
  (req : Server.Delete.request) (w : Server.world store) :
  Server.NODE_ENV env = Some "production" ->
  Server.Delete.x_api_key req <> Server.ADMIN_API_KEY env ->
  Server.delete_contact env store pool req w =
    (Response 401 (JObj [("error", JStr "Unauthorized")]), w).
Proof.
  intros Hprod Hkey. unfold Server.delete_contact.
  apply strict_eq_spec in Hprod. apply strict_eq_false in Hkey.
  now rewrite Hprod, Hkey.
Qed.

Lemma delete_unauthorized_without_key :
  Server.NODE_ENV Examples.production = Some "production"
  /\ Server.Delete.x_api_key (Examples.delete_without_key 3)
     <> Server.ADMIN_API_KEY Examples.production
  /\ Server.delete_contact Examples.production _ (Pg.query Examples.utc 0)
       (Examples.delete_without_key 3) (Server.fresh Examples.twelve_rows)
     = (Response 401 (JObj [("error", JStr "Unauthorized")]),
        Server.fresh Examples.twelve_rows).
Proof.
  split; [reflexivity|].
  assert (H : Server.Delete.x_api_key (Examples.delete_without_key 3)
              <> Server.ADMIN_API_KEY Examples.production)
    by (intros H; discriminate H).
  split; [exact H|].
  exact (delete_unauthorized Examples.production _ (Pg.query Examples.utc 0)
           (Examples.delete_without_key 3) (Server.fresh Examples.twelve_rows)
           eq_refl H).
Defined.

(** C8 (as amended).  For an authorized delete of an id that the [id]
    column can hold (an integer of 32 bits): when no stored row has the
    id, the response is 404 and the table is unchanged; when a row has it,
    the response is 200 with the [{id, email}] of that row, the row is
    gone, and a second delete of the same id is answered 404.  An id
    outside that range is answered 500 [Failed to delete contact], and the
    table is unchanged. *)
Theorem delete_by_id (ses : Pg.session) (now now' : Z) (env : Server.process_env)
  (req : Server.Delete.request) (w : Server.world Pg.database) :
  StoreSpec.authorized env req ->
  let first := Server.delete_contact env _ (Pg.query ses now) req w in
  let second := Server.delete_contact env _ (Pg.query ses now') req (snd first) in
  (-2147483648 <= Server.Delete.id req <= 2147483647 ->
   ((forall r, In r (Pg.contacts (Server.db w)) ->
               Pg.id r <> Server.Delete.id req) ->
    fst first = Response 404 (JObj [("error", JStr "Contact not found")])
    /\ Server.db (snd first) = Server.db w)
   /\ (forall r,
         find (fun r => Pg.id r =? Server.Delete.id req)
              (Pg.contacts (Server.db w))
           = Some r ->
         fst first =
           Response 200
             (JObj [ ("success", JBool true);
                     ("message", JStr "Contact deleted successfully");
                     ("data", JObj [ ("id", JNum (Server.Delete.id req));
                                     ("email", JStr (Pg.email r)) ]) ])
         /\ Pg.contacts (Server.db (snd first)) =
              filter (fun r => negb (Pg.id r =? Server.Delete.id req))
                     (Pg.contacts (Server.db w))
         /\ fst second
            = Response 404 (JObj [("error", JStr "Contact not found")])))
  /\ (~ -2147483648 <= Server.Delete.id req <= 2147483647 ->
      status (fst first) = 500
      /\ member "error" (body (fst first))
         = Some (JStr "Failed to delete contact")
      /\ Server.db (snd first) = Server.db w).
Proof.
  intros Ha first second. split.
  2:{ intros Hout. unfold first, Server.delete_contact.
      rewrite (authorized_passes env req Ha).
      unfold Server.bind, Server.pool_query.
      rewrite delete_refused by exact Hout.
      unfold Pg.out_of_range, Pg.sqlstate, Server.ret, Server.failure.
      cbn [fst snd status body Server.db].
      destruct (Server.details env _); repeat split. }
  intros Hin. split.
  - intros Hno. now apply delete_missing.
  - intros r Hfind.
    assert (Hgone : forall x, In x (Pg.contacts (Server.db (snd first))) ->
                              Pg.id x <> Server.Delete.id req).
    { unfold first, Server.delete_contact.
      rewrite (authorized_passes env req Ha).
      unfold Server.bind, Server.pool_query. rewrite delete_outcome by exact Hin.
      destruct (map _ _); cbn [snd Server.ret Server.db Pg.contacts];
        intros x Hx; apply filter_In in Hx; destruct Hx as [_ Hx];
        apply negb_true_iff, Z.eqb_neq in Hx; auto. }
    assert (Hid : Pg.id r = Server.Delete.id req).
    { apply find_some in Hfind. destruct Hfind as [_ Hfind].
      now apply Z.eqb_eq in Hfind. }
    destruct (filter_find _ _ _ Hfind) as [rest Hrest].
    repeat split.
    + unfold first, Server.delete_contact.
      rewrite (authorized_passes env req Ha).
      unfold Server.bind, Server.pool_query.
      rewrite delete_outcome by exact Hin. rewrite Hrest.
      rewrite <- Hid. reflexivity.
    + unfold first, Server.delete_contact.
      rewrite (authorized_passes env req Ha).
      unfold Server.bind, Server.pool_query.
      rewrite delete_outcome by exact Hin. rewrite Hrest.
      reflexivity.
    + apply (delete_missing ses now' env req (snd first) Ha Hin).
      intros x Hx. now apply Hgone.
Qed.

Lemma delete_by_id_twice :
  StoreSpec.authorized Examples.production (Examples.delete_as_admin 3)
  /\ fst (Server.delete_contact Examples.production _ (Pg.query Examples.utc 0)
            (Examples.delete_as_admin 3) (Server.fresh Examples.twelve_rows))
     = Response 200
         (JObj [ ("success", JBool true);
                 ("message", JStr "Contact deleted successfully");
                 ("data", JObj [ ("id", JNum 3);
                                 ("email", JStr "jo@example.com") ]) ])
  /\ fst (Server.delete_contact Examples.production _ (Pg.query Examples.utc 1)
            (Examples.delete_as_admin 3)
            (snd (Server.delete_contact Examples.production _
                    (Pg.query Examples.utc 0) (Examples.delete_as_admin 3)
                    (Server.fresh Examples.twelve_rows))))
     = Response 404 (JObj [("error", JStr "Contact not found")]).
Proof.
  assert (Ha : StoreSpec.authorized Examples.production (Examples.delete_as_admin 3))
    by (intros _; reflexivity).
  assert (Hin : -2147483648 <= 3 <= 2147483647) by lia.
  split; [exact Ha|].
  destruct (proj2 (proj1 (delete_by_id Examples.utc 0 1 Examples.production
                            (Examples.delete_as_admin 3)
                            (Server.fresh Examples.twelve_rows) Ha) Hin)
              (Examples.stored 3) eq_refl)
    as (H1 & _ & H2).
  split; [exact H1 | exact H2].
Defined.

(** C8 as the spec words it fails for an id the column cannot hold: no
    stored row has the id 2147483648, and the authorized delete of it is
    answered 500, not 404. *)
Lemma delete_of_an_id_out_of_range :
  StoreSpec.authorized Examples.production (Examples.delete_as_admin 2147483648)
  /\ Forall (fun r => Pg.id r <> 2147483648) (Pg.contacts Examples.twelve_rows)
  /\ fst (Server.delete_contact Examples.production _ (Pg.query Examples.utc 0)
            (Examples.delete_as_admin 2147483648)
            (Server.fresh Examples.twelve_rows))
     = Response 500 (JObj [("error", JStr "Failed to delete contact")])
  /\ status (fst (Server.delete_contact Examples.production _
                    (Pg.query Examples.utc 0)
                    (Examples.delete_as_admin 2147483648)
                    (Server.fresh Examples.twelve_rows)))
     <> 404.
Proof.
  split; [intros _; reflexivity|].
  split; [repeat constructor; intros H; discriminate H|].
  split; [vm_compute; reflexivity|].
  vm_compute. intros H. discriminate H.
Qed.

(** ** Creating, against the declared schema *)

Section InsertFacts.
Import Pg Server StoreSpec.
Variable ses : session.

Lemma parse_insert : parse insert_contact_sql = Some InsertContact.
Proof. vm_compute. reflexivity. Qed.

(** The only column the schema makes unique is the serial primary key. *)
Lemma unique_columns_id : unique_columns = ["id"].
Proof. reflexivity. Qed.

Lemma violates_unique_id (rows : list row) (new : row) :
  violates_unique rows new = existsb (fun r => Pg.id r =? Pg.id new) rows.
Proof.
  unfold violates_unique. rewrite unique_columns_id.
  cbn [existsb]. now rewrite orb_false_r.
Qed.

Lemma fresh_id_is_unique (db : database) (new : row) :
  serial_ids db ->
  Pg.id new = contacts_id_seq db + 1 ->
  violates_unique (contacts db) new = false.
Proof.
  unfold serial_ids. intros H Hid. rewrite violates_unique_id, Hid.
  induction H as [|r rows Hr _ IH]; cbn [existsb]; [reflexivity|].
  rewrite IH, orb_false_r. apply Z.eqb_neq. lia.
Qed.

Lemma nextval_cases (db : database) :
  (TableSpec.has_next db /\ nextval db = Some (contacts_id_seq db + 1))
  \/ (~ TableSpec.has_next db /\ nextval db = None).
Proof.
  unfold TableSpec.has_next, nextval. cbv zeta.
  destruct (Z.leb_spec 1 (contacts_id_seq db + 1));
    destruct (Z.leb_spec (contacts_id_seq db + 1) 2147483647);
    cbn [andb]; [left | right | right | right]; split; try reflexivity; lia.
Qed.

Lemma nextval_some (db : database) (i : Z) :
  nextval db = Some i ->
  i = contacts_id_seq db + 1 /\ TableSpec.has_next db /\ TableSpec.int4 i.
Proof.
  destruct (nextval_cases db) as [[H ->]|[_ ->]]; [|discriminate].
  intros [= <-]. unfold TableSpec.has_next, TableSpec.int4 in *.
  repeat split; lia.
Qed.

Lemma insert_refused_rejects (ps : list param) (o : outcome) :
  insert_refused ses ps = Some o ->
  exists e, o = Rejected e /\ code e <> Some "23505".
Proof.
  unfold insert_refused. cbv zeta.
  destruct (_ || _); [intros [= <-]; eexists; split; [reflexivity|discriminate]|].
  destruct (match text_in _ with Some _ => _ | None => _ end);
    [intros [= <-]; eexists; split; [reflexivity|discriminate]|].
  destruct (nul_param _);
    [intros [= <-]; eexists; split; [reflexivity|discriminate] | discriminate].
Qed.

Lemma insert_outcome (now : Z) (db : database) (ps : list param) :
  List.length ps = 5%nat ->
  serial_ids db ->
  Pg.query ses now db insert_contact_sql ps =
    match insert_refused ses ps with
    | Some e => (e, db)
    | None =>
        if violates_not_null ps then
          (sqlstate "23502" "null value violates not-null constraint", db)
        else if violates_length ps then
          (sqlstate "22001" "value too long for type character varying(100)", db)
        else
          match nextval db with
          | None => (sequence_exhausted, db)
          | Some _ =>
              (Rows [project ["id"; "name"; "email"; "created_at"]
                       (inserted now db ps)],
               {| contacts := (contacts db ++ [inserted now db ps])%list;
                  contacts_id_seq := contacts_id_seq db + 1 |})
          end
    end.
Proof.
  intros Hlen Hser. unfold Pg.query. rewrite parse_insert.
  cbn [arity exec]. rewrite Hlen. cbn [Nat.eqb].
  do 5 (destruct ps as [|? ps]; [discriminate|]).
  destruct ps; [|discriminate].
  unfold exec_insert.
  destruct (insert_refused ses _); [reflexivity|].
  destruct (violates_not_null _); [reflexivity|].
  destruct (violates_length _); [reflexivity|].
  destruct (nextval db) as [i|] eqn:Hn; [|reflexivity].
  apply nextval_some in Hn. destruct Hn as (-> & _ & _).
  rewrite fresh_id_is_unique by (assumption || reflexivity).
  reflexivity.
Qed.

Lemma insert_keeps_serial_ids (now : Z) (db : database) (ps : list param) :
  serial_ids db ->
  serial_ids {| contacts := (contacts db ++ [inserted now db ps])%list;
                contacts_id_seq := contacts_id_seq db + 1 |}.
Proof.
  unfold serial_ids. cbn [contacts contacts_id_seq]. intros H.
  apply Forall_app. split.
  - eapply Forall_impl; [|exact H]. cbv beta. intros; lia.
  - repeat constructor. cbn. lia.
Qed.

(** Whatever statement is sent, the stored ids stay behind the sequence. *)
Lemma query_keeps_serial_ids (now : Z) (db : database) (text : string)
  (ps : list param) :
  serial_ids db -> serial_ids (snd (Pg.query ses now db text ps)).
Proof.
  intros H. unfold Pg.query.
  destruct (parse text) as [st|]; [|exact H].
  destruct (_ =? _)%nat eqn:Hlen; [|exact H].
  destruct st; cbn [exec snd]; try exact H.
  - apply Nat.eqb_eq in Hlen. cbn [arity] in Hlen.
    pose proof (insert_outcome now db ps Hlen H) as Hq.
    unfold Pg.query in Hq. rewrite parse_insert, Hlen in Hq.
    cbn [arity Nat.eqb exec] in Hq. rewrite Hq.
    destruct (insert_refused ses ps); [exact H|].
    destruct (violates_not_null ps); [exact H|].
    destruct (violates_length ps); [exact H|].
    destruct (nextval db); [|exact H].
    now apply insert_keeps_serial_ids.
  - unfold exec_delete.
    destruct (option_map int4_in (nth_error ps 0)) as [[[i|]|e]|];
      cbn [snd]; try exact H.
    unfold serial_ids in *. cbn [contacts contacts_id_seq].
    rewrite Forall_forall in *. intros r Hr.
    apply filter_In in Hr. now apply H.
Qed.

Lemma insert_params_length (V : validator_js) (req : Post.request) :
  List.length (insert_params V req) = 5%nat.
Proof. reflexivity. Qed.

End InsertFacts.

(** C9 (as amended).  The schema declares uniqueness on the serial primary
    key only, so on a table whose ids all come from the sequence a create
    is never answered 409; and when a submission is created, under an id
    before 2147483647, submitting the same name, e-mail and message again
    is created too, under the next id.  The id 2147483647 is the last the
    sequence hands out: after it the same submission is answered 500. *)
Theorem create_is_never_a_conflict (V : validator_js) (ses : Pg.session)
  (now now' : Z) (env : Server.process_env) (req : Server.Post.request)
  (w : Server.world Pg.database) :
  Pg.unique_columns = ["id"]
  /\ (StoreSpec.serial_ids (Server.db w) ->
      let first := Server.post_contacts V env _ (Pg.query ses now) req w in
      let second :=
        Server.post_contacts V env _ (Pg.query ses now') req (snd first) in
      status (fst first) <> 409
      /\ status (fst second) <> 409
      /\ StoreSpec.serial_ids (Server.db (snd first))
      /\ (status (fst first) = 201 ->
          exists i,
            StoreSpec.data_id (fst first) = Some (JNum i)
            /\ 1 <= i <= 2147483647
            /\ (i < 2147483647 ->
                status (fst second) = 201
                /\ StoreSpec.data_id (fst second) = Some (JNum (i + 1)))
            /\ (i = 2147483647 ->
                status (fst second) = 500
                /\ member "error" (body (fst second))
                   = Some (JStr "Failed to save contact")))).
Proof.
  split; [apply unique_columns_id|].
  intros Hser first second.
  unfold second, first, Server.post_contacts.
  destruct (validationResult V (Server.Post.body req)) eqn:Hv.
  2:{ cbn [fst snd Server.ret status]. repeat split; try discriminate.
      exact Hser. }
  unfold Server.bind, Server.pool_query.
  rewrite (insert_outcome ses now (Server.db w) _ (insert_params_length V req) Hser).
  destruct (Pg.insert_refused ses _) as [o|] eqn:Hr.
  { destruct (insert_refused_rejects ses _ _ Hr) as (e & -> & He).
    apply strict_eq_false in He.
    rewrite He. cbn [fst snd Server.ret Server.db].
    rewrite (insert_outcome ses now' (Server.db w) _
               (insert_params_length V req) Hser), Hr.
    rewrite He. cbn [fst snd Server.ret Server.db Server.failure status].
    repeat split; try discriminate. exact Hser. }
  destruct (Pg.violates_not_null _) eqn:Hnn.
  { cbn [Pg.sqlstate Pg.code Server.strict_eq String.eqb Ascii.eqb Bool.eqb
         fst snd Server.ret Server.db].
    rewrite (insert_outcome ses now' (Server.db w) _
               (insert_params_length V req) Hser), Hr, Hnn.
    cbn [Pg.sqlstate Pg.code Server.strict_eq String.eqb Ascii.eqb Bool.eqb
         fst snd Server.ret Server.db Server.failure status].
    repeat split; try discriminate. exact Hser. }
  destruct (Pg.violates_length _) eqn:Hvl.
  { cbn [Pg.sqlstate Pg.code Server.strict_eq String.eqb Ascii.eqb Bool.eqb
         fst snd Server.ret Server.db].
    rewrite (insert_outcome ses now' (Server.db w) _
               (insert_params_length V req) Hser), Hr, Hnn, Hvl.
    cbn [Pg.sqlstate Pg.code Server.strict_eq String.eqb Ascii.eqb Bool.eqb
         fst snd Server.ret Server.db Server.failure status].
    repeat split; try discriminate. exact Hser. }
  destruct (nextval_cases (Server.db w)) as [[Hnext Hn]|[Hnext Hn]]; rewrite Hn.
  2:{ unfold Pg.sequence_exhausted.
      cbn [Pg.sqlstate Pg.code Server.strict_eq String.eqb Ascii.eqb Bool.eqb
           fst snd Server.ret Server.db].
      rewrite (insert_outcome ses now' (Server.db w) _
                 (insert_params_length V req) Hser), Hr, Hnn, Hvl, Hn.
      unfold Pg.sequence_exhausted.
      cbn [Pg.sqlstate Pg.code Server.strict_eq String.eqb Ascii.eqb Bool.eqb
           fst snd Server.ret Server.db Server.failure status].
      repeat split; try discriminate. exact Hser. }
  cbn [fst snd Server.ret Server.db status nth_error].
  pose proof (insert_keeps_serial_ids now (Server.db w)
                (Server.insert_params V req) Hser) as Hser'.
  rewrite (insert_outcome ses now' _ _ (insert_params_length V req) Hser').
  rewrite Hr, Hnn, Hvl.
  unfold TableSpec.has_next in Hnext.
  set (db' := {| Pg.contacts := _; Pg.contacts_id_seq := _ |}) in *.
  destruct (nextval_cases db') as [[Hnext' ->]|[Hnext' ->]];
    unfold TableSpec.has_next in Hnext'; cbn [db' Pg.contacts_id_seq] in Hnext'.
  - split; [discriminate|]. split; [discriminate|]. split; [exact Hser'|].
    intros _. exists (Pg.contacts_id_seq (Server.db w) + 1).
    split; [reflexivity|]. split; [lia|].
    split; [intros _; split; reflexivity | intros; lia].
  - split; [discriminate|]. split; [cbn; discriminate|]. split; [exact Hser'|].
    intros _. exists (Pg.contacts_id_seq (Server.db w) + 1).
    split; [reflexivity|]. split; [lia|].
    split; [intros; lia|]. intros _.
    unfold Pg.sequence_exhausted, Pg.sqlstate, Server.failure.
    cbn [Pg.code Server.strict_eq String.eqb Ascii.eqb Bool.eqb fst status body].
    destruct (Server.details env _); split; reflexivity.
Qed.

Lemma create_twice_foo_example :
  StoreSpec.serial_ids (Server.db (Server.fresh Examples.twelve_rows))
  /\ status (fst (Server.post_contacts example_validator Examples.production _
                    (Pg.query Examples.utc 50)
                    (Examples.submit Examples.foo_example)
                    (Server.fresh Examples.twelve_rows)))
     <> 409
  /\ StoreSpec.data_id
       (fst (Server.post_contacts example_validator Examples.production _
               (Pg.query Examples.utc 50)
               (Examples.submit Examples.foo_example)
               (Server.fresh Examples.twelve_rows)))
     = Some (JNum 13).
Proof.
  assert (Hser : StoreSpec.serial_ids (Server.db (Server.fresh Examples.twelve_rows))).
  { unfold StoreSpec.serial_ids. cbn.
    repeat constructor; cbn; intros H; discriminate H. }
  split; [exact Hser|].
  destruct (proj2 (create_is_never_a_conflict example_validator Examples.utc 50 60
                     Examples.production (Examples.submit Examples.foo_example)
                     (Server.fresh Examples.twelve_rows)) Hser)
    as (Hne & _ & _).
  split; [exact Hne | reflexivity].
Defined.

(** The same submission twice: the ids 13 and 14. *)
Example create_twice_on_twelve_rows :
  map (fun r => (status r, StoreSpec.data_id r))
    [ fst (Server.post_contacts example_validator Examples.production _
             (Pg.query Examples.utc 50) (Examples.submit Examples.foo_example)
             (Server.fresh Examples.twelve_rows));
      fst (Server.post_contacts example_validator Examples.production _
             (Pg.query Examples.utc 60) (Examples.submit Examples.foo_example)
             (snd (Server.post_contacts example_validator Examples.production _
                     (Pg.query Examples.utc 50)
                     (Examples.submit Examples.foo_example)
                     (Server.fresh Examples.twelve_rows)))) ]
  = [ (201, Some (JNum 13)); (201, Some (JNum 14)) ].
Proof. vm_compute. reflexivity. Qed.

(** C9 as the spec words it fails when the sequence has one value left: the
    first submission is created under the id 2147483647, and the same
    submission again is answered 500. *)
Lemma create_twice_at_the_last_id :
  StoreSpec.serial_ids Cases.one_id_left
  /\ map (fun r => (status r, StoreSpec.data_id r))
       [ fst (Server.post_contacts example_validator Examples.production _
                (Pg.query Examples.utc 50) (Examples.submit Examples.foo_example)
                (Server.fresh Cases.one_id_left));
         fst (Server.post_contacts example_validator Examples.production _
                (Pg.query Examples.utc 60) (Examples.submit Examples.foo_example)
                (snd (Server.post_contacts example_validator Examples.production _
                        (Pg.query Examples.utc 50)
                        (Examples.submit Examples.foo_example)
                        (Server.fresh Cases.one_id_left)))) ]
     = [ (201, Some (JNum 2147483647)); (500, None) ]
  /\ status (fst (Server.post_contacts example_validator Examples.production _
                    (Pg.query Examples.utc 60)
                    (Examples.submit Examples.foo_example)
                    (snd (Server.post_contacts example_validator
                            Examples.production _ (Pg.query Examples.utc 50)
                            (Examples.submit Examples.foo_example)
                            (Server.fresh Cases.one_id_left)))))
     <> 201.
Proof.
  split; [constructor|]. split; [vm_compute; reflexivity|].
  vm_compute. intros H. discriminate H.
Qed.

(** ** Metrics *)

Section MetricsFacts.
Import Pg Server.

(** Descending without repetition is strictly descending. *)
Lemma sorted_strictly (l : list Z) :
  StronglySorted (fun a b => a >= b) l -> NoDup l ->
  StronglySorted (fun a b => a > b) l.
Proof.
  induction 1 as [|x l Hs IH Hx]; intros Hnd; [constructor|].
  inversion Hnd as [|? ? Hnotin Hnd']; subst.
  constructor; [auto|].
  rewrite Forall_forall in *. intros y Hy.
  specialize (Hx y Hy). assert (x <> y) by congruence. lia.
Qed.

Lemma StronglySorted_impl_gt (l : list Z) :
  StronglySorted (fun a b => a > b) l -> StronglySorted Z.gt l.
Proof. exact (fun H => H). Qed.

Lemma sorted_map {A B : Type} (f : A -> B) (R : B -> B -> Prop) (l : list A) :
  StronglySorted (fun a b => R (f a) (f b)) l -> StronglySorted R (map f l).
Proof.
  induction 1 as [|x l Hs IH Hx]; cbn [map]; constructor; [exact IH|].
  now apply Forall_map.
Qed.

Lemma filter_filter_implied {A : Type} (f g : A -> bool) (l : list A) :
  (forall x, f x = true -> g x = true) ->
  filter f (filter g l) = filter f l.
Proof.
  intros H. induction l as [|x l IH]; simpl; [reflexivity|].
  destruct (g x) eqn:Hg; simpl; rewrite IH; [reflexivity|].
  destruct (f x) eqn:Hf; [|reflexivity].
  apply H in Hf. congruence.
Qed.

Variable ses : session.
Variable now : Z.

Lemma parse_metrics : parse metrics_sql = Some SelectMetrics.
Proof. vm_compute. reflexivity. Qed.

(** The thirty-day window, read on calendar dates. *)
Lemma recent_iff (r : row) :
  recent ses now r = true <->
  CURRENT_DATE ses now - 30 <= DATE ses (created_at r).
Proof.
  unfold recent, DATE. rewrite Z.geb_le.
  set (d := CURRENT_DATE ses now - 30).
  assert (Hday : 0 < day) by reflexivity.
  split; intros H.
  - apply Z.div_le_lower_bound; lia.
  - pose proof (Z.mul_div_le (created_at r + utc_offset ses) day Hday). nia.
Qed.

Lemma metrics_dates (d : Z) (rows : list row) :
  In d (order_by_desc (fun d => d)
          (nodup Z.eq_dec
             (map (fun r => DATE ses (created_at r)) (filter (recent ses now) rows))))
  <-> exists r, In r rows /\ recent ses now r = true
                /\ DATE ses (created_at r) = d.
Proof.
  rewrite order_by_desc_In, nodup_In, in_map_iff.
  split.
  - intros (r & Hd & Hr). apply filter_In in Hr. exists r. tauto.
  - intros (r & Hin & Hrec & Hd). exists r. split; [exact Hd|].
    apply filter_In. tauto.
Qed.

Lemma metrics_group (d : Z) (rows : list row) :
  CURRENT_DATE ses now - 30 <= d ->
  filter (fun r => DATE ses (created_at r) =? d) (filter (recent ses now) rows)
  = filter (fun r => DATE ses (created_at r) =? d) rows.
Proof.
  intros Hd. apply filter_filter_implied.
  intros r Hr. apply Z.eqb_eq in Hr. apply recent_iff. lia.
Qed.

End MetricsFacts.

(** C10.  The metrics response lists one row per calendar date, latest date
    first and no date twice, for exactly the dates of the trailing thirty
    days on which a contact was created.  In each row [total_contacts] and
    [daily_count] are the same text: the number of contacts created on that
    row's date; [unique_emails] is the number of distinct e-mails among
    those contacts; [date] is the midnight that starts the date.  No row
    totals the table, and the table is left as it was. *)
Theorem metrics_rows_are_daily (ses : Pg.session) (now : Z)
  (env : Server.process_env) (w : Server.world Pg.database) :
  let rows := Pg.contacts (Server.db w) in
  let on_date d := filter (fun r => Pg.DATE ses (Pg.created_at r) =? d) rows in
  let count d := List.length (on_date d) in
  let emails d := List.length (nodup string_dec (map Pg.email (on_date d))) in
  let shown d :=
    JObj [ ("total_contacts", JStr (decimal (Z.of_nat (count d))));
           ("unique_emails", JStr (decimal (Z.of_nat (emails d))));
           ("date", JDate (Pg.local_midnight ses d));
           ("daily_count", JStr (decimal (Z.of_nat (count d)))) ] in
  exists dates : list Z,
    Server.get_metrics env _ (Pg.query ses now) w =
      (Response 200
         (JObj [ ("success", JBool true);
                 ("data", JArr (map shown dates)) ]),
       {| Server.db := Server.db w;
          Server.issued := (Server.issued w ++ [(Pg.metrics_sql, [])])%list |})
    /\ StronglySorted Z.gt dates
    /\ (forall d, In d dates <->
                  Pg.CURRENT_DATE ses now - 30 <= d
                  /\ exists r, In r rows /\ Pg.DATE ses (Pg.created_at r) = d)
    /\ Forall (fun d => (1 <= emails d <= count d)%nat) dates.
Proof.
  intros rows on_date count emails shown.
  exists (Pg.order_by_desc (fun d => d)
            (nodup Z.eq_dec
               (map (fun r => Pg.DATE ses (Pg.created_at r))
                    (filter (Pg.recent ses now) rows)))).
  assert (Hin : forall d,
             In d (Pg.order_by_desc (fun d => d)
                     (nodup Z.eq_dec
                        (map (fun r => Pg.DATE ses (Pg.created_at r))
                             (filter (Pg.recent ses now) rows))))
             <-> Pg.CURRENT_DATE ses now - 30 <= d
                 /\ exists r, In r rows /\ Pg.DATE ses (Pg.created_at r) = d).
  { intros d. rewrite metrics_dates. split.
    - intros (r & Hr & Hrec & Hd). split; [|eauto].
      rewrite <- Hd. now apply recent_iff.
    - intros (Hwin & r & Hr & Hd). exists r. repeat split; try assumption.
      apply recent_iff. now rewrite Hd. }
  split; [|split; [|split]].
  - unfold Server.get_metrics, Server.bind, Server.pool_query, Pg.query.
    rewrite parse_metrics.
    cbn [Pg.arity List.length Nat.eqb Pg.exec Server.ret Server.db].
    unfold Pg.metrics_groups. rewrite map_map. fold rows.
    rewrite (map_ext_in _ shown); [reflexivity|].
    intros d Hd. apply Hin in Hd. destruct Hd as [Hwin _].
    unfold Pg.json_of_metrics_row, Pg.bigint.
    cbn [Pg.total_contacts Pg.unique_emails Pg.date Pg.daily_count].
    rewrite (metrics_group ses now d rows Hwin). reflexivity.
  - apply StronglySorted_impl_gt, sorted_strictly.
    + apply (order_by_desc_sorted (fun d => d)).
    + eapply Permutation_NoDup;
        [symmetry; apply order_by_desc_perm | apply NoDup_nodup].
  - exact Hin.
  - apply Forall_forall. intros d Hd. apply Hin in Hd.
    destruct Hd as (_ & r & Hr & Hd). unfold emails, count. split.
    + assert (Hmem : In (Pg.email r)
                        (nodup string_dec (map Pg.email (on_date d)))).
      { apply nodup_In, in_map, filter_In. split; [exact Hr|].
        now apply Z.eqb_eq. }
      destruct (nodup string_dec _); [destruct Hmem | cbn; lia].
    + rewrite <- (length_map Pg.email (on_date d)).
      apply NoDup_incl_length; [apply NoDup_nodup|].
      intros x Hx. now apply nodup_In in Hx.
Qed.

(** Two contacts created a day apart give two rows that count one contact
    each; neither counts the two stored contacts. *)
Example metrics_two_days :
  fst (Server.get_metrics Examples.production _
         (Pg.query Examples.utc (2 * Pg.day)) (Server.fresh Examples.two_days))
  = Response 200
      (JObj [ ("success", JBool true);
              ("data",
               JArr [ JObj [ ("total_contacts", JStr "1");
                             ("unique_emails", JStr "1");
                             ("date", JDate 86400000000);
                             ("daily_count", JStr "1") ];
                      JObj [ ("total_contacts", JStr "1");
                             ("unique_emails", JStr "1");
                             ("date", JDate 0);
                             ("daily_count", JStr "1") ] ]) ]).
Proof. vm_compute. reflexivity. Qed.

(** * Further properties *)

(** ** The table under every statement *)

Section StoreFacts.
Import Pg Server StoreSpec TableSpec.
Variable ses : session.

Lemma store_query_pg (now : Z) (db : database) (text : string) (ps : list param) :
  (text =? Store.select_contact_sql)%string = false ->
  (text =? Store.select_one_sql)%string = false ->
  Store.query ses now db text ps = Pg.query ses now db text ps.
Proof.
  intros H1 H2. unfold Store.query. now rewrite H1, H2.
Qed.

Lemma store_query_insert (now : Z) (db : database) (ps : list param) :
  Store.query ses now db insert_contact_sql ps
  = Pg.query ses now db insert_contact_sql ps.
Proof. apply store_query_pg; vm_compute; reflexivity. Qed.

Lemma store_query_delete (now : Z) (db : database) (ps : list param) :
  Store.query ses now db delete_contact_sql ps
  = Pg.query ses now db delete_contact_sql ps.
Proof. apply store_query_pg; vm_compute; reflexivity. Qed.

Lemma store_query_metrics (now : Z) (db : database) (ps : list param) :
  Store.query ses now db metrics_sql ps = Pg.query ses now db metrics_sql ps.
Proof. apply store_query_pg; vm_compute; reflexivity. Qed.

Lemma store_query_list (now : Z) (db : database) (q : Query.request)
  (ps : list param) :
  Store.query ses now db (Server.query (build_list_statements q)) ps
  = Pg.query ses now db (Server.query (build_list_statements q)) ps
  /\ Store.query ses now db (countQuery (build_list_statements q)) ps
     = Pg.query ses now db (countQuery (build_list_statements q)) ps.
Proof.
  destruct q as [page limit [[|? ?]|] [[|? ?]|] [[|? ?]|]];
    split; apply store_query_pg; vm_compute; reflexivity.
Qed.

(** A rejected statement leaves the table as it was. *)
Lemma pg_rejected_unchanged (now : Z) (db : database) (text : string)
  (ps : list param) (e : pg_error) :
  fst (Pg.query ses now db text ps) = Rejected e ->
  snd (Pg.query ses now db text ps) = db.
Proof.
  unfold Pg.query. destruct (parse text) as [st|]; [|reflexivity].
  destruct (_ =? _)%nat; [|reflexivity].
  destruct st; cbn [exec fst snd]; try reflexivity.
  - unfold exec_insert.
    do 5 (destruct ps as [|? ps]; [reflexivity|]).
    destruct ps; [|reflexivity].
    destruct (insert_refused ses _); [reflexivity|].
    destruct (violates_not_null _); [reflexivity|].
    destruct (violates_length _); [reflexivity|].
    destruct (nextval db); [|reflexivity].
    destruct (violates_unique _ _); [reflexivity|].
    cbn [fst]. discriminate.
  - unfold exec_delete.
    destruct (option_map int4_in (nth_error ps 0)) as [[[i|]|e']|];
      cbn [fst snd]; try reflexivity.
    discriminate.
Qed.

Lemma store_rejected_unchanged (now : Z) (db : database) (text : string)
  (ps : list param) (e : pg_error) :
  fst (Store.query ses now db text ps) = Rejected e ->
  snd (Store.query ses now db text ps) = db.
Proof.
  unfold Store.query.
  destruct (text =? Store.select_contact_sql)%string; [reflexivity|].
  destruct (text =? Store.select_one_sql)%string; [reflexivity|].
  apply pg_rejected_unchanged.
Qed.

Lemma store_keeps_serial_ids (now : Z) (db : database) (text : string)
  (ps : list param) :
  serial_ids db -> serial_ids (snd (Store.query ses now db text ps)).
Proof.
  intros H. unfold Store.query.
  destruct (text =? Store.select_contact_sql)%string; [exact H|].
  destruct (text =? Store.select_one_sql)%string; [exact H|].
  now apply query_keeps_serial_ids.
Qed.

(** The sequence never goes back. *)
Lemma store_sequence_grows (now : Z) (db : database) (text : string)
  (ps : list param) :
  contacts_id_seq db <= contacts_id_seq (snd (Store.query ses now db text ps)).
Proof.
  unfold Store.query.
  destruct (text =? Store.select_contact_sql)%string; [cbn; lia|].
  destruct (text =? Store.select_one_sql)%string; [cbn; lia|].
  unfold Pg.query. destruct (parse text) as [st|]; [|cbn; lia].
  destruct (_ =? _)%nat; [|cbn; lia].
  destruct st; cbn [exec fst snd]; try lia.
  - unfold exec_insert.
    do 5 (destruct ps as [|? ps]; [cbn; lia|]).
    destruct ps; [|cbn; lia].
    destruct (insert_refused ses _); [cbn; lia|].
    destruct (violates_not_null _); [cbn; lia|].
    destruct (violates_length _); [cbn; lia|].
    destruct (nextval db) as [i|] eqn:Hn; [|cbn; lia].
    apply nextval_some in Hn. destruct Hn as (-> & _ & _).
    destruct (violates_unique _ _); cbn; lia.
  - unfold exec_delete.
    destruct (option_map int4_in (nth_error ps 0)) as [[[i|]|e]|];
      cbn; lia.
Qed.

Lemma map_filter_ids (i : Z) (rows : list row) :
  map Pg.id (filter (fun r => negb (Pg.id r =? i)) rows)
  = filter (fun j => negb (j =? i)) (map Pg.id rows).
Proof.
  induction rows as [|r rows IH]; simpl; [reflexivity|].
  destruct (Pg.id r =? i); simpl; now rewrite IH.
Qed.

Lemma store_keeps_distinct_ids (now : Z) (db : database) (text : string)
  (ps : list param) :
  distinct_ids db -> distinct_ids (snd (Store.query ses now db text ps)).
Proof.
  intros [Hs Hn]. split; [now apply store_keeps_serial_ids|].
  unfold Store.query.
  destruct (text =? Store.select_contact_sql)%string; [exact Hn|].
  destruct (text =? Store.select_one_sql)%string; [exact Hn|].
  unfold Pg.query. destruct (parse text) as [st|]; [|exact Hn].
  destruct (_ =? _)%nat; [|exact Hn].
  destruct st; cbn [exec fst snd]; try exact Hn.
  - unfold exec_insert.
    do 5 (destruct ps as [|? ps]; [exact Hn|]).
    destruct ps; [|exact Hn].
    destruct (insert_refused ses _); [exact Hn|].
    destruct (violates_not_null _); [exact Hn|].
    destruct (violates_length _); [exact Hn|].
    destruct (nextval db) as [i|] eqn:Hi; [|exact Hn].
    apply nextval_some in Hi. destruct Hi as (-> & _ & _).
    destruct (violates_unique _ _); [exact Hn|].
    cbn [snd contacts]. rewrite map_app. cbn [map Pg.id].
    apply NoDup_app; [exact Hn | repeat constructor; intros [] |].
    intros j Hj [<-|[]]. apply in_map_iff in Hj. destruct Hj as (r & Hr & Hin).
    unfold serial_ids in Hs. rewrite Forall_forall in Hs.
    specialize (Hs r Hin). lia.
  - unfold exec_delete.
    destruct (option_map int4_in (nth_error ps 0)) as [[[i|]|e]|];
      cbn [snd contacts]; try exact Hn.
    rewrite map_filter_ids. now apply NoDup_filter.
Qed.

(** What the insert statement can do. *)
Lemma insert_cases (now : Z) (db : database) (ps : list param) :
  List.length ps = 5%nat ->
  (exists e, Store.query ses now db insert_contact_sql ps = (Rejected e, db))
  \/ (insert_refused ses ps = None
      /\ violates_not_null ps = false
      /\ violates_length ps = false
      /\ has_next db
      /\ Store.query ses now db insert_contact_sql ps =
           (Rows [project ["id"; "name"; "email"; "created_at"] (inserted now db ps)],
            {| contacts := (contacts db ++ [inserted now db ps])%list;
               contacts_id_seq := contacts_id_seq db + 1 |})).
Proof.
  intros Hlen. rewrite store_query_insert. unfold Pg.query.
  rewrite parse_insert. cbn [arity exec]. rewrite Hlen. cbn [Nat.eqb].
  do 5 (destruct ps as [|? ps]; [discriminate|]).
  destruct ps; [|discriminate].
  unfold exec_insert.
  destruct (insert_refused ses _) as [o|] eqn:Hr.
  { destruct (insert_refused_rejects ses _ _ Hr) as (e & -> & _). left; eauto. }
  unfold sequence_exhausted, sqlstate.
  destruct (violates_not_null _); [left; eauto|].
  destruct (violates_length _); [left; eauto|].
  destruct (nextval_cases db) as [[Hnext ->]|[_ ->]]; [|left; eauto].
  destruct (violates_unique _ _); [left; eauto|].
  right. split; [reflexivity|]. split; [reflexivity|].
  split; [reflexivity|]. split; [exact Hnext | reflexivity].
Qed.

Lemma store_delete_exec (now : Z) (db : database) (i : Z) :
  Store.query ses now db delete_contact_sql [PInt i] =
    match int4_in (PInt i) with
    | inl (Some i) =>
        (Rows (map (project ["id"; "email"])
                   (filter (fun r => Pg.id r =? i) (contacts db))),
         {| contacts := filter (fun r => negb (Pg.id r =? i)) (contacts db);
            contacts_id_seq := contacts_id_seq db |})
    | inl None => (Rows [], db)
    | inr e => (e, db)
    end.
Proof. rewrite store_query_delete. apply delete_exec. Qed.

Lemma store_delete_outcome (now : Z) (db : database) (i : Z) :
  int4 i ->
  Store.query ses now db delete_contact_sql [PInt i] =
    (Rows (map (project ["id"; "email"])
               (filter (fun r => Pg.id r =? i) (contacts db))),
     {| contacts := filter (fun r => negb (Pg.id r =? i)) (contacts db);
        contacts_id_seq := contacts_id_seq db |}).
Proof. intros H. rewrite store_query_delete. now apply delete_outcome. Qed.

Lemma store_delete_refused (now : Z) (db : database) (i : Z) :
  ~ int4 i ->
  Store.query ses now db delete_contact_sql [PInt i]
  = (out_of_range "integer" i, db).
Proof. intros H. rewrite store_query_delete. now apply delete_refused. Qed.

Lemma store_select_contact (now : Z) (db : database) (i : Z) :
  int4 i ->
  Store.query ses now db Store.select_contact_sql [PInt i] =
    (Rows (map (project ["id"; "name"; "email"; "message"; "created_at"])
               (filter (fun r => Pg.id r =? i) (contacts db))),
     db).
Proof.
  intros H. unfold Store.query, Store.exec_select_contact.
  cbn [String.eqb Ascii.eqb Bool.eqb List.length Nat.eqb nth_error option_map].
  change (Store.select_contact_sql =? Store.select_contact_sql)%string with true.
  cbv iota. now rewrite int4_in_range.
Qed.

Lemma store_select_refused (now : Z) (db : database) (i : Z) :
  ~ int4 i ->
  Store.query ses now db Store.select_contact_sql [PInt i]
  = (out_of_range "integer" i, db).
Proof.
  intros H. unfold Store.query, Store.exec_select_contact.
  change (Store.select_contact_sql =? Store.select_contact_sql)%string with true.
  cbn [List.length Nat.eqb nth_error option_map]. cbv iota.
  now rewrite int4_out_of_range.
Qed.

Lemma store_select_unchanged (now : Z) (db : database) (ps : list param) :
  snd (Store.query ses now db Store.select_contact_sql ps) = db.
Proof.
  unfold Store.query.
  change (Store.select_contact_sql =? Store.select_contact_sql)%string with true.
  reflexivity.
Qed.

Lemma store_select_one (now : Z) (db : database) :
  Store.query ses now db Store.select_one_sql []
  = (Rows [JObj [("?column?", JNum 1)]], db).
Proof. reflexivity. Qed.

(** Statements that select leave the table as it was. *)
Lemma store_list_unchanged (now : Z) (db : database) (q : Query.request)
  (ps : list param) :
  snd (Store.query ses now db (Server.query (build_list_statements q)) ps) = db
  /\ snd (Store.query ses now db (countQuery (build_list_statements q)) ps) = db.
Proof.
  destruct (store_query_list now db q ps) as [-> ->].
  destruct (build_parse q) as [H1 H2]. cbv zeta in H1, H2.
  unfold Pg.query. rewrite H1, H2.
  split; destruct (_ =? _)%nat; reflexivity.
Qed.

Lemma store_metrics_outcome (now : Z) (db : database) :
  Store.query ses now db metrics_sql [] =
    (Rows (map (json_of_metrics_row ses) (metrics_groups ses now (contacts db))),
     db).
Proof.
  rewrite store_query_metrics. unfold Pg.query. rewrite parse_metrics.
  reflexivity.
Qed.

End StoreFacts.

(** ** The handlers against the table *)

Section ApiFacts.
Import Pg Server StoreSpec TableSpec.
Variable V : validator_js.
Variable env : process_env.
Variable ses : session.

Ltac unfold_handlers :=
  unfold Api.handle, post_contacts, get_contacts, Api.get_contact,
    delete_contact, Api.get_health, get_metrics, bind, pool_query, ret.

(** What a create does, by the outcome of its insert. *)
Lemma post_cases (now : Z) (req : Post.request) (w : world database) :
  let r := post_contacts V env _ (Store.query ses now) req w in
  (400 <= status (fst r) /\ status (fst r) <> 201 /\ db (snd r) = db w)
  \/ (validationResult V (Post.body req) = []
      /\ violates_length (insert_params V req) = false
      /\ fst r =
           Response 201
             (JObj [ ("success", JBool true);
                     ("message", JStr "Contact saved successfully");
                     ("data",
                      project ["id"; "name"; "email"; "created_at"]
                        (inserted now (db w) (insert_params V req))) ])
      /\ db (snd r) =
           {| contacts :=
                (contacts (db w) ++ [inserted now (db w) (insert_params V req)])%list;
              contacts_id_seq := contacts_id_seq (db w) + 1 |}).
Proof.
  unfold_handlers.
  destruct (validationResult V (Post.body req)) eqn:Hv.
  2:{ left. cbn [fst snd status db]. repeat split; try lia. }
  destruct (insert_cases ses now (db w) (insert_params V req)
              (insert_params_length V req))
    as [[e ->]|(_ & _ & Hlen & _ & ->)].
  - left. unfold failure.
    destruct (strict_eq (code e) (Some "23505")); cbn; repeat split; lia.
  - right. repeat split; assumption || reflexivity.
Qed.

Lemma get_contacts_unchanged (now : Z) (q : Query.request) (w : world database) :
  db (snd (get_contacts env _ (Store.query ses now) q w)) = db w.
Proof.
  unfold_handlers.
  pose proof (proj1 (store_list_unchanged ses now (db w) q
                       (params (build_list_statements q)))) as H1.
  destruct (Store.query ses now (db w) _ _) as [o1 s1]. cbn [snd] in H1. subst s1.
  cbn [db].
  pose proof (proj2 (store_list_unchanged ses now (db w) q
                       (countParams (build_list_statements q)))) as H2.
  destruct (Store.query ses now (db w) _ _) as [o2 s2]. cbn [snd] in H2. subst s2.
  destruct o1, o2; try destruct (nth_error _ _); reflexivity.
Qed.

Lemma get_contact_run (now : Z) (i : Z) (w : world database) :
  int4 i ->
  Api.get_contact env _ (Store.query ses now) i w =
    (match filter (fun r => Pg.id r =? i) (contacts (db w)) with
     | [] => Response 404 (JObj [("error", JStr "Contact not found")])
     | r :: _ =>
         Response 200
           (JObj [ ("success", JBool true);
                   ("data",
                    project ["id"; "name"; "email"; "message"; "created_at"] r) ])
     end,
     {| db := db w;
        issued := (issued w ++ [(Store.select_contact_sql, [PInt i])])%list |}).
Proof.
  intros Hi. unfold_handlers. rewrite store_select_contact by exact Hi.
  destruct (filter _ _); reflexivity.
Qed.

Lemma get_contact_refused (now : Z) (i : Z) (w : world database) :
  ~ int4 i ->
  Api.get_contact env _ (Store.query ses now) i w =
    (failure env "Failed to fetch contact"
       {| code := Some "22003";
          error_message :=
            "value " ++ dquote ++ decimal i ++ dquote
            ++ " is out of range for type integer" |},
     {| db := db w;
        issued := (issued w ++ [(Store.select_contact_sql, [PInt i])])%list |}).
Proof.
  intros Hi. unfold_handlers. rewrite store_select_refused by exact Hi.
  reflexivity.
Qed.

Lemma get_contact_keeps (now : Z) (i : Z) (w : world database) :
  db (snd (Api.get_contact env _ (Store.query ses now) i w)) = db w
  /\ status (fst (Api.get_contact env _ (Store.query ses now) i w)) <> 201.
Proof.
  destruct (int4_cases i) as [[Hi _]|[Hi _]].
  - rewrite get_contact_run by exact Hi. cbn [fst snd db].
    split; [reflexivity|]. destruct (filter _ _); discriminate.
  - rewrite get_contact_refused by exact Hi. split; [reflexivity | discriminate].
Qed.

Lemma delete_cases (now : Z) (d : Delete.request) (w : world database) :
  let r := delete_contact env _ (Store.query ses now) d w in
  (400 <= status (fst r) /\ db (snd r) = db w)
  \/ (status (fst r) = 200
      /\ db (snd r) =
           {| contacts := filter (fun r => negb (Pg.id r =? Delete.id d))
                                 (contacts (db w));
              contacts_id_seq := contacts_id_seq (db w) |}).
Proof.
  unfold_handlers.
  destruct (_ && _); [left; cbn; split; [lia | reflexivity]|].
  destruct (int4_cases (Delete.id d)) as [[Hi _]|[Hi _]].
  2:{ rewrite store_delete_refused by exact Hi.
      left. cbn. split; [lia | reflexivity]. }
  rewrite store_delete_outcome by exact Hi.
  destruct (filter (fun r => Pg.id r =? Delete.id d) (contacts (db w))) eqn:Hf;
    cbn [map fst snd status db].
  - left. split; [lia|].
    rewrite filter_all; [now destruct (db w)|].
    intros r Hr. apply negb_true_iff.
    destruct (Pg.id r =? Delete.id d) eqn:E; [|reflexivity].
    assert (In r (filter (fun r => Pg.id r =? Delete.id d) (contacts (db w))))
      by (apply filter_In; auto).
    rewrite Hf in H. destruct H.
  - right. split; reflexivity.
Qed.

Lemma health_run (now : Z) (v : Api.vitals) (w : world database) :
  db (snd (Api.get_health _ (Store.query ses now) v w)) = db w
  /\ status (fst (Api.get_health _ (Store.query ses now) v w)) = 200.
Proof.
  unfold_handlers. rewrite store_select_one. split; reflexivity.
Qed.

Lemma metrics_run (now : Z) (w : world database) :
  db (snd (get_metrics env _ (Store.query ses now) w)) = db w
  /\ status (fst (get_metrics env _ (Store.query ses now) w)) = 200.
Proof.
  unfold_handlers. rewrite store_metrics_outcome. split; reflexivity.
Qed.

Lemma get_contacts_status (now : Z) (q : Query.request) (w : world database) :
  status (fst (get_contacts env _ (Store.query ses now) q w)) = 200
  \/ status (fst (get_contacts env _ (Store.query ses now) q w)) = 500.
Proof.
  unfold_handlers.
  destruct (Store.query ses now (db w) _ _) as [o1 s1]. cbn [db].
  destruct (Store.query ses now s1 _ _) as [o2 s2].
  destruct o1, o2; try destruct (nth_error _ _); cbn; auto.
Qed.

(** The table after any request: as before, one created row longer, or
    without the rows of the deleted id. *)
Lemma handle_cases (now : Z) (req : Api.request) (w : world database) :
  let r := Api.handle V env _ (Store.query ses now) req w in
  (status (fst r) <> 201 /\ db (snd r) = db w)
  \/ (exists p, req = Api.POST_contacts p
        /\ validationResult V (Post.body p) = []
        /\ violates_length (insert_params V p) = false
        /\ fst r =
             Response 201
               (JObj [ ("success", JBool true);
                       ("message", JStr "Contact saved successfully");
                       ("data",
                        project ["id"; "name"; "email"; "created_at"]
                          (inserted now (db w) (insert_params V p))) ])
        /\ db (snd r) =
             {| contacts :=
                  (contacts (db w) ++ [inserted now (db w) (insert_params V p)])%list;
                contacts_id_seq := contacts_id_seq (db w) + 1 |})
  \/ (exists d, req = Api.DELETE_contact d
        /\ status (fst r) = 200
        /\ db (snd r) =
             {| contacts := filter (fun r => negb (Pg.id r =? Delete.id d))
                                   (contacts (db w));
                contacts_id_seq := contacts_id_seq (db w) |}).
Proof.
  destruct req as [p|q|i|d|v|]; cbn [Api.handle]; cbv zeta.
  - destruct (post_cases now p w) as [(_ & H1 & H2)|H]; [left; auto|].
    right; left. exists p. tauto.
  - left. split; [|apply get_contacts_unchanged].
    destruct (get_contacts_status now q w) as [-> | ->]; discriminate.
  - left. destruct (get_contact_keeps now i w) as [H1 H2]. auto.
  - destruct (delete_cases now d w) as [[H1 H2]|[H1 H2]].
    + left. split; [lia | exact H2].
    + right; right. exists d. auto.
  - left. destruct (health_run now v w) as [-> ->]. split; [discriminate | reflexivity].
  - left. destruct (metrics_run now w) as [-> ->]. split; [discriminate | reflexivity].
Qed.

End ApiFacts.

(** ** What a passing validation leaves in the body *)

Section SanitizedFacts.
Import Pg Server.
Variable V : validator_js.

Lemma sanitized_fields (b : contact_body) :
  sanitized V b =
    {| Validator.name := Text (trim (toString (Validator.name b)));
       Validator.email := normalizeEmail V (trim (toString (Validator.email b)));
       Validator.message := Text (trim (toString (Validator.message b))) |}.
Proof.
  unfold sanitized, validateContact.
  rewrite run_name_chain, run_email_chain, run_message_chain. reflexivity.
Qed.

Lemma validation_passes (b : contact_body) :
  validationResult V b = [] ->
  isLength 2 100 (trim (toString (Validator.name b))) = true
  /\ isLength 10 1000 (trim (toString (Validator.message b))) = true
  /\ isEmpty (trim (toString (Validator.email b))) = false
  /\ isEmail V (trim (toString (Validator.email b))) = true.
Proof.
  rewrite validationResult_chains, run_name_chain, run_email_chain,
    run_message_chain. cbn [snd].
  destruct (isLength 2 100 _), (isLength 10 1000 _), (isEmail V _),
    (isEmpty (trim (toString (Validator.email b)))),
    (isEmpty (trim (toString (Validator.name b)))),
    (isEmpty (trim (toString (Validator.message b))));
    cbn [negb app]; intros H; try discriminate H; auto.
Qed.

Lemma text_of_field (v : field_value) :
  text_or_empty (prepare_field v) = toString v.
Proof. destruct v; reflexivity. Qed.

Lemma violates_length_five (p1 p2 p3 p4 p5 : param) :
  violates_length [p1; p2; p3; p4; p5] =
    (match text_in p1 with
     | Some s => (100 <? String.length s)%nat
     | None => false
     end
     || match text_in p2 with
        | Some s => (100 <? String.length s)%nat
        | None => false
        end).
Proof.
  unfold violates_length. cbn -[Nat.ltb text_in].
  now rewrite !orb_false_r.
Qed.

Lemma prepared_text (v : field_value) :
  v <> Missing -> text_in (prepare_field v) = Some (toString v).
Proof. destruct v; [congruence | reflexivity | reflexivity]. Qed.

Lemma normalizeEmail_not_missing (e : string) : normalizeEmail V e <> Missing.
Proof.
  unfold normalizeEmail. cbv zeta.
  repeat match goal with
    | |- context [if ?c then _ else _] => destruct c
    end; discriminate.
Qed.

(** The parameters of the insert after a passing validation. *)
Lemma insert_params_valid (req : Post.request) :
  validationResult V (Post.body req) = [] ->
  violates_not_null (insert_params V req) = false
  /\ violates_length (insert_params V req) =
       (100 <? String.length
                 (toString (Validator.email (sanitized V (Post.body req)))))%nat.
Proof.
  intros Hv. apply validation_passes in Hv. destruct Hv as (Hn & _).
  unfold insert_params. rewrite sanitized_fields. cbn [Validator.name Validator.email Validator.message].
  split.
  - unfold violates_not_null. cbn -[normalizeEmail trim].
    pose proof (normalizeEmail_not_missing
                  (trim (toString (Validator.email (Post.body req))))) as Hne.
    destruct (normalizeEmail V _); [congruence | reflexivity | reflexivity].
  - rewrite violates_length_five.
    rewrite (prepared_text (normalizeEmail V _)) by apply normalizeEmail_not_missing.
    cbn [prepare_field text_in].
    apply isLength_spec in Hn.
    destruct (Nat.ltb_spec 100 (String.length (trim (toString (Validator.name (Post.body req))))));
      [lia | reflexivity].
Qed.

End SanitizedFacts.

(** ** Frames and invariants of the table *)

(** X1.  A request that only reads, and any request answered with a status
    of 400 or above, leaves the table exactly as it was. *)
Theorem table_untouched (V : validator_js) (env : Server.process_env)
  (ses : Pg.session) (now : Z) (req : Api.request)
  (w : Server.world Pg.database) :
  let r := Api.handle V env _ (Store.query ses now) req w in
  TableSpec.reads_only req = true \/ 400 <= status (fst r) ->
  Server.db (snd r) = Server.db w.
Proof.
  intros r H. subst r.
  destruct (handle_cases V env ses now req w)
    as [[_ Hdb]|[(p & -> & _ & _ & Hr & _)|(d & -> & Hs & _)]].
  - exact Hdb.
  - destruct H as [H|H]; [discriminate H|]. rewrite Hr in H. cbn in H. lia.
  - destruct H as [H|H]; [discriminate H|]. rewrite Hs in H. lia.
Qed.

Lemma table_untouched_metrics :
  (TableSpec.reads_only Api.GET_metrics = true
   \/ 400 <= status (fst (Api.handle example_validator Examples.production _
                            (Store.query Examples.utc 0) Api.GET_metrics
                            (Server.fresh Examples.twelve_rows))))
  /\ Server.db (snd (Api.handle example_validator Examples.production _
                       (Store.query Examples.utc 0) Api.GET_metrics
                       (Server.fresh Examples.twelve_rows)))
     = Examples.twelve_rows.
Proof.
  assert (H : TableSpec.reads_only Api.GET_metrics = true
              \/ 400 <= status (fst (Api.handle example_validator Examples.production _
                                       (Store.query Examples.utc 0) Api.GET_metrics
                                       (Server.fresh Examples.twelve_rows))))
    by (left; reflexivity).
  split; [exact H|].
  exact (table_untouched example_validator Examples.production Examples.utc 0
           Api.GET_metrics (Server.fresh Examples.twelve_rows) H).
Defined.

Section TraceFacts.
Import Pg Server StoreSpec TableSpec.
Variable V : validator_js.
Variable env : process_env.
Variable ses : session.

Lemma serve_cons (now : Z) (req : Api.request) (rest : list (Z * Api.request))
  (w : world database) :
  Api.serve V env ses ((now, req) :: rest) w =
    (fst (Api.handle V env _ (Store.query ses now) req w)
       :: fst (Api.serve V env ses rest
                 (snd (Api.handle V env _ (Store.query ses now) req w))),
     snd (Api.serve V env ses rest
            (snd (Api.handle V env _ (Store.query ses now) req w)))).
Proof.
  cbn [Api.serve].
  destruct (Api.handle V env _ (Store.query ses now) req w) as [r w1].
  cbn [fst snd].
  destruct (Api.serve V env ses rest w1) as [rs w2]. reflexivity.
Qed.

(** A property of the table that every request keeps is kept by every
    sequence of requests. *)
Lemma serve_keeps (P : database -> Prop) :
  (forall now req w, P (db w) ->
     P (db (snd (Api.handle V env _ (Store.query ses now) req w)))) ->
  forall arrivals w, P (db w) -> P (db (snd (Api.serve V env ses arrivals w))).
Proof.
  intros Hstep arrivals.
  induction arrivals as [|[now req] rest IH]; intros w Hw; [exact Hw|].
  rewrite serve_cons. cbn [snd]. apply IH, Hstep, Hw.
Qed.

Lemma handle_keeps_distinct_ids (now : Z) (req : Api.request)
  (w : world database) :
  distinct_ids (db w) ->
  distinct_ids (db (snd (Api.handle V env _ (Store.query ses now) req w))).
Proof.
  intros [Hs Hn].
  destruct (handle_cases V env ses now req w)
    as [[_ ->]|[(p & _ & _ & _ & _ & ->)|(d & _ & _ & ->)]].
  - now split.
  - split; [now apply insert_keeps_serial_ids|].
    cbn [contacts]. rewrite map_app. cbn [map inserted Pg.id].
    apply NoDup_app; [exact Hn | repeat constructor; intros [] |].
    intros j Hj [<-|[]]. apply in_map_iff in Hj. destruct Hj as (r & Hr & Hin).
    unfold serial_ids in Hs. rewrite Forall_forall in Hs.
    specialize (Hs r Hin). lia.
  - split.
    + unfold serial_ids in *. cbn [contacts contacts_id_seq].
      rewrite Forall_forall in *. intros r Hr. apply filter_In in Hr.
      now apply Hs.
    + cbn [contacts]. rewrite map_filter_ids. now apply NoDup_filter.
Qed.

Lemma handle_sequence_grows (now : Z) (req : Api.request) (w : world database) :
  contacts_id_seq (db w)
  <= contacts_id_seq (db (snd (Api.handle V env _ (Store.query ses now) req w))).
Proof.
  destruct (handle_cases V env ses now req w)
    as [[_ ->]|[(p & _ & _ & _ & _ & ->)|(d & _ & _ & ->)]];
    cbn [contacts_id_seq]; lia.
Qed.

Lemma serve_sequence_grows (arrivals : list (Z * Api.request))
  (w : world database) :
  contacts_id_seq (db w)
  <= contacts_id_seq (db (snd (Api.serve V env ses arrivals w))).
Proof.
  revert w. induction arrivals as [|[now req] rest IH]; intros w; [cbn; lia|].
  rewrite serve_cons. cbn [snd].
  pose proof (handle_sequence_grows now req w).
  specialize (IH (snd (Api.handle V env _ (Store.query ses now) req w))). lia.
Qed.

Lemma created_ids_cons (r : response) (rs : list response) :
  Api.created_ids (r :: rs) =
    match status r =? 201, data_id r with
    | true, Some (JNum i) => i :: Api.created_ids rs
    | _, _ => Api.created_ids rs
    end.
Proof. reflexivity. Qed.

Lemma created_ids_bounds (arrivals : list (Z * Api.request))
  (w : world database) :
  StronglySorted Z.lt (Api.created_ids (fst (Api.serve V env ses arrivals w)))
  /\ Forall (fun i => contacts_id_seq (db w) < i
                      <= contacts_id_seq (db (snd (Api.serve V env ses arrivals w))))
            (Api.created_ids (fst (Api.serve V env ses arrivals w))).
Proof.
  revert w. induction arrivals as [|[now req] rest IH]; intros w.
  { cbn. split; constructor. }
  rewrite serve_cons. cbn [fst snd]. rewrite created_ids_cons.
  specialize (IH (snd (Api.handle V env _ (Store.query ses now) req w))).
  destruct IH as [IHs IHb].
  pose proof (handle_sequence_grows now req w) as Hg.
  destruct (handle_cases V env ses now req w)
    as [[Hst Hdb]|[(p & _ & _ & _ & Hr & Hdb)|(d & _ & Hst & Hdb)]].
  - apply Z.eqb_neq in Hst. rewrite Hst. split; [exact IHs|].
    eapply Forall_impl; [|exact IHb]. cbv beta. intros i Hi. lia.
  - pose proof (serve_sequence_grows rest
                  (snd (Api.handle V env _ (Store.query ses now) req w))) as Hs.
    rewrite Hdb in IHb, Hs. cbn [contacts_id_seq] in IHb, Hs.
    rewrite Hr.
    assert (Hhead : (status (Response 201
                       (JObj [ ("success", JBool true);
                               ("message", JStr "Contact saved successfully");
                               ("data",
                                project ["id"; "name"; "email"; "created_at"]
                                  (inserted now (db w) (insert_params V p))) ]))
                     =? 201) = true) by reflexivity.
    rewrite Hhead.
    assert (Hid : data_id (Response 201
                       (JObj [ ("success", JBool true);
                               ("message", JStr "Contact saved successfully");
                               ("data",
                                project ["id"; "name"; "email"; "created_at"]
                                  (inserted now (db w) (insert_params V p))) ]))
                  = Some (JNum (contacts_id_seq (db w) + 1))) by reflexivity.
    rewrite Hid.
    split.
    + constructor; [exact IHs|].
      eapply Forall_impl; [|exact IHb]. cbv beta. intros i Hi. lia.
    + constructor; [lia|].
      eapply Forall_impl; [|exact IHb]. cbv beta. intros i Hi. lia.
  - rewrite Hst. cbn [Z.eqb Pos.eqb]. split; [exact IHs|].
    eapply Forall_impl; [|exact IHb]. cbv beta. intros i Hi. lia.
Qed.

End TraceFacts.

(** X2.  Whatever requests are served, in whatever order, the stored ids
    stay pairwise distinct and none is ahead of the id sequence. *)
Theorem ids_stay_distinct (V : validator_js) (env : Server.process_env)
  (ses : Pg.session) (arrivals : list (Z * Api.request))
  (w : Server.world Pg.database) :
  TableSpec.distinct_ids (Server.db w) ->
  TableSpec.distinct_ids (Server.db (snd (Api.serve V env ses arrivals w))).
Proof.
  apply (serve_keeps V env ses TableSpec.distinct_ids).
  intros now req w'. apply handle_keeps_distinct_ids.
Qed.

Lemma ids_stay_distinct_morning :
  TableSpec.distinct_ids (Server.db (Server.fresh Examples.empty_db))
  /\ TableSpec.distinct_ids
       (Server.db (snd (Api.serve example_validator Examples.production
                          Examples.utc Cases.morning
                          (Server.fresh Examples.empty_db)))).
Proof.
  assert (H : TableSpec.distinct_ids (Server.db (Server.fresh Examples.empty_db)))
    by (split; constructor).
  split; [exact H|].
  exact (ids_stay_distinct example_validator Examples.production Examples.utc
           Cases.morning (Server.fresh Examples.empty_db) H).
Defined.

(** X3.  The ids reported by the creates of any sequence of requests are
    strictly increasing and all above the sequence value the run started
    from: no id is handed out twice, also not the id of a deleted row. *)
Theorem ids_are_never_reused (V : validator_js) (env : Server.process_env)
  (ses : Pg.session) (arrivals : list (Z * Api.request))
  (w : Server.world Pg.database) :
  let run := Api.serve V env ses arrivals w in
  StronglySorted Z.lt (Api.created_ids (fst run))
  /\ Forall (fun i => Pg.contacts_id_seq (Server.db w) < i
                      <= Pg.contacts_id_seq (Server.db (snd run)))
            (Api.created_ids (fst run)).
Proof.
  apply created_ids_bounds.
Qed.

(** The morning's creates get the ids 1, 2 and 3, although row 1 is deleted
    before the third. *)
Example ids_of_the_morning :
  Api.created_ids (fst (Api.serve example_validator Examples.production
                          Examples.utc Cases.morning
                          (Server.fresh Examples.empty_db)))
  = [1; 2; 3].
Proof. vm_compute. reflexivity. Qed.

Section RecordFacts.
Import Pg Server StoreSpec TableSpec.
Variable V : validator_js.
Variable env : process_env.
Variable ses : session.

Lemma handle_keeps_record (i : Z) (now : Z) (req : Api.request)
  (w : world database) :
  i <= contacts_id_seq (db w) ->
  spares i req ->
  filter (fun r => Pg.id r =? i)
         (contacts (db (snd (Api.handle V env _ (Store.query ses now) req w))))
  = filter (fun r => Pg.id r =? i) (contacts (db w)).
Proof.
  intros Hi Hsp.
  destruct (handle_cases V env ses now req w)
    as [[_ ->]|[(p & _ & _ & _ & _ & ->)|(d & -> & _ & ->)]].
  - reflexivity.
  - cbn [contacts]. rewrite filter_app. cbn [filter inserted Pg.id].
    destruct (Z.eqb_spec (contacts_id_seq (db w) + 1) i); [lia|].
    apply app_nil_r.
  - cbn [contacts]. apply filter_filter_implied.
    intros r Hr. apply Z.eqb_eq in Hr. apply negb_true_iff, Z.eqb_neq.
    cbn [spares] in Hsp. congruence.
Qed.

Lemma serve_keeps_record (i : Z) (arrivals : list (Z * Api.request))
  (w : world database) :
  i <= contacts_id_seq (db w) ->
  Forall (fun a => spares i (snd a)) arrivals ->
  filter (fun r => Pg.id r =? i)
         (contacts (db (snd (Api.serve V env ses arrivals w))))
  = filter (fun r => Pg.id r =? i) (contacts (db w)).
Proof.
  revert w. induction arrivals as [|[now req] rest IH]; intros w Hi Hsp.
  { reflexivity. }
  inversion Hsp as [|? ? Hreq Hrest]; subst. cbn [snd] in Hreq.
  rewrite serve_cons. cbn [snd].
  rewrite IH; [now apply handle_keeps_record| |exact Hrest].
  pose proof (handle_sequence_grows V env ses now req w). lia.
Qed.

Lemma handle_keeps_as_created (now : Z) (req : Api.request)
  (w : world database) :
  Forall as_created (contacts (db w)) ->
  Forall as_created
    (contacts (db (snd (Api.handle V env _ (Store.query ses now) req w)))).
Proof.
  intros H.
  destruct (handle_cases V env ses now req w)
    as [[_ ->]|[(p & _ & Hv & Hlen & _ & ->)|(d & _ & _ & ->)]].
  - exact H.
  - cbn [contacts]. apply Forall_app. split; [exact H|].
    constructor; [|constructor].
    pose proof (validation_passes V _ Hv) as (Hn & Hm & _).
    apply isLength_spec in Hn. apply isLength_spec in Hm.
    unfold insert_params in *. rewrite sanitized_fields in *.
    cbn [Validator.name Validator.email Validator.message] in *.
    rewrite violates_length_five in Hlen.
    apply orb_false_elim in Hlen. destruct Hlen as [_ Hlen].
    rewrite (prepared_text (normalizeEmail V _)) in Hlen
      by apply normalizeEmail_not_missing.
    apply Nat.ltb_ge in Hlen.
    unfold as_created.
    cbn [inserted Pg.name Pg.message Pg.email created_at updated_at nth].
    rewrite !text_of_field. cbn [toString].
    repeat split; try lia; try apply trim_idempotent.
  - cbn [contacts]. rewrite Forall_forall in *.
    intros r Hr. apply filter_In in Hr. now apply H.
Qed.

Lemma last_is_found (i : Z) (new : row) (rows : list row) :
  Forall (fun r => Pg.id r <= i - 1) rows -> Pg.id new = i ->
  filter (fun r => Pg.id r =? i) (rows ++ [new]) = [new].
Proof.
  intros H Hid. rewrite filter_app. cbn [filter]. rewrite Hid, Z.eqb_refl.
  rewrite filter_none; [reflexivity|].
  rewrite Forall_forall in H. intros r Hr. apply Z.eqb_neq.
  specialize (H r Hr). lia.
Qed.

End RecordFacts.

(** X4.  A stored record does not change: whatever requests are served in
    between, as long as none of them is a delete of id [i], reading [i]
    gives the same response after them as before.  (For an id behind the
    sequence and not stored, that response stays 404.) *)
Theorem record_is_immutable (V : validator_js) (env : Server.process_env)
  (ses : Pg.session) (i t t' : Z) (arrivals : list (Z * Api.request))
  (w : Server.world Pg.database) :
  i <= Pg.contacts_id_seq (Server.db w) ->
  Forall (fun a => TableSpec.spares i (snd a)) arrivals ->
  fst (Api.get_contact env _ (Store.query ses t') i
         (snd (Api.serve V env ses arrivals w)))
  = fst (Api.get_contact env _ (Store.query ses t) i w).
Proof.
  intros Hi Hsp. destruct (int4_cases i) as [[Hin _]|[Hout _]].
  - rewrite !get_contact_run by exact Hin. cbn [fst].
    now rewrite (serve_keeps_record V env ses i arrivals w Hi Hsp).
  - now rewrite !get_contact_refused by exact Hout.
Qed.

Lemma record_is_immutable_two :
  2 <= Pg.contacts_id_seq (Server.db (Server.fresh Examples.twelve_rows))
  /\ Forall (fun a => TableSpec.spares 2 (snd a)) Cases.morning
  /\ fst (Api.get_contact Examples.production _ (Store.query Examples.utc 100) 2
            (snd (Api.serve example_validator Examples.production Examples.utc
                    Cases.morning (Server.fresh Examples.twelve_rows))))
     = fst (Api.get_contact Examples.production _ (Store.query Examples.utc 0) 2
              (Server.fresh Examples.twelve_rows)).
Proof.
  assert (H1 : 2 <= Pg.contacts_id_seq (Server.db (Server.fresh Examples.twelve_rows)))
    by (cbn; lia).
  assert (H2 : Forall (fun a => TableSpec.spares 2 (snd a)) Cases.morning)
    by (repeat constructor; cbn; lia).
  split; [exact H1|]. split; [exact H2|].
  exact (record_is_immutable example_validator Examples.production Examples.utc
           2 0 100 Cases.morning (Server.fresh Examples.twelve_rows) H1 H2).
Defined.

(** X5.  Every row the handlers store is as a create leaves it, and stays
    so: its name and message are trimmed and within 2..100 and 10..1000
    characters, its e-mail fits the column, and [updated_at] equals
    [created_at] (no request updates a row). *)
Theorem rows_stay_as_created (V : validator_js) (env : Server.process_env)
  (ses : Pg.session) (arrivals : list (Z * Api.request))
  (w : Server.world Pg.database) :
  Forall TableSpec.as_created (Pg.contacts (Server.db w)) ->
  Forall TableSpec.as_created
    (Pg.contacts (Server.db (snd (Api.serve V env ses arrivals w)))).
Proof.
  apply (serve_keeps V env ses
           (fun d => Forall TableSpec.as_created (Pg.contacts d))).
  intros now req w'. apply handle_keeps_as_created.
Qed.

Lemma rows_stay_as_created_morning :
  Forall TableSpec.as_created
    (Pg.contacts (Server.db (Server.fresh Examples.empty_db)))
  /\ Forall TableSpec.as_created
       (Pg.contacts
          (Server.db (snd (Api.serve example_validator Examples.production
                             Examples.utc Cases.morning
                             (Server.fresh Examples.empty_db))))).
Proof.
  assert (H : Forall TableSpec.as_created
                (Pg.contacts (Server.db (Server.fresh Examples.empty_db))))
    by constructor.
  split; [exact H|].
  exact (rows_stay_as_created example_validator Examples.production Examples.utc
           Cases.morning (Server.fresh Examples.empty_db) H).
Defined.

(** ** Creating and reading back *)

Section CreateReadFacts.
Import Pg Server StoreSpec TableSpec.
Variable V : validator_js.
Variable env : process_env.
Variable ses : session.

(** The row a create stores for a request. *)
Lemma inserted_fields (now : Z) (d : database) (req : Post.request) :
  inserted now d (insert_params V req) =
    {| Pg.id := contacts_id_seq d + 1;
       Pg.name := trim (toString (Validator.name (Post.body req)));
       Pg.email := toString (Validator.email (sanitized V (Post.body req)));
       Pg.message := trim (toString (Validator.message (Post.body req)));
       ip_address := Post.ip req;
       user_agent := Post.user_agent req;
       created_at := now;
       updated_at := now |}.
Proof.
  unfold inserted, insert_params. rewrite sanitized_fields.
  cbn [nth Validator.name Validator.email Validator.message].
  rewrite !text_of_field. cbn [toString].
  destruct (Post.ip req), (Post.user_agent req); reflexivity.
Qed.

Lemma prepare_field_clean (v : field_value) :
  has_nul (toString v) = false -> nul_param (prepare_field v) = false.
Proof. destruct v; cbn [prepare_field nul_param toString]; trivial. Qed.

(** The engine takes the parameters of a request it can bind. *)
Lemma bindable_not_refused (req : Post.request) :
  bindable ses V req -> insert_refused ses (insert_params V req) = None.
Proof.
  unfold bindable, insert_refused, insert_params. cbv zeta.
  intros (Hn & He & Hm & Hip & Hua).
  cbn [nth].
  rewrite (prepare_field_clean _ Hn), (prepare_field_clean _ He),
    (prepare_field_clean _ Hm).
  destruct (Post.ip req) as [a|]; destruct (Post.user_agent req) as [u|];
    cbn [prepare_optional nul_param text_in orb];
    repeat match goal with
           | H : _ /\ _ |- _ => destruct H as [? ?]
           end;
    repeat match goal with
           | H : has_nul _ = false |- _ => rewrite H
           | H : inet_in _ _ = true |- _ => rewrite H
           end;
    reflexivity.
Qed.

Lemma post_created (now : Z) (req : Post.request) (w : world database) :
  serial_ids (db w) ->
  has_next (db w) ->
  bindable ses V req ->
  validationResult V (Post.body req) = [] ->
  (String.length (toString (Validator.email (sanitized V (Post.body req))))
   <= 100)%nat ->
  post_contacts V env _ (Store.query ses now) req w =
    (Response 201
       (JObj [ ("success", JBool true);
               ("message", JStr "Contact saved successfully");
               ("data",
                project ["id"; "name"; "email"; "created_at"]
                  (inserted now (db w) (insert_params V req))) ]),
     {| db := {| contacts :=
                   (contacts (db w) ++ [inserted now (db w) (insert_params V req)])%list;
                 contacts_id_seq := contacts_id_seq (db w) + 1 |};
        issued := (issued w ++ [(insert_contact_sql, insert_params V req)])%list |}).
Proof.
  intros Hser Hnext Hbind Hv Hlen.
  unfold post_contacts, bind, pool_query, ret. rewrite Hv.
  rewrite store_query_insert.
  rewrite (insert_outcome ses now (db w) _ (insert_params_length V req) Hser).
  rewrite (bindable_not_refused req Hbind).
  destruct (insert_params_valid V req Hv) as [-> ->].
  apply Nat.ltb_ge in Hlen. rewrite Hlen.
  destruct (nextval_cases (db w)) as [[_ ->]|[Hno _]]; [reflexivity|].
  contradiction.
Qed.

(** A create that is answered 201 found the sequence with a value left. *)
Lemma post_created_has_next (now : Z) (req : Post.request) (w : world database) :
  status (fst (post_contacts V env _ (Store.query ses now) req w)) = 201 ->
  has_next (db w).
Proof.
  unfold post_contacts, bind, pool_query, ret.
  destruct (validationResult V (Post.body req)); [|cbn; discriminate].
  destruct (insert_cases ses now (db w) (insert_params V req)
              (insert_params_length V req))
    as [[e ->]|(_ & _ & _ & Hnext & _)]; [|intros _; exact Hnext].
  unfold failure.
  destruct (strict_eq (code e) (Some "23505")); cbn; discriminate.
Qed.

Lemma post_too_long (now : Z) (req : Post.request) (w : world database) :
  validationResult V (Post.body req) = [] ->
  (100 < String.length (toString (Validator.email (sanitized V (Post.body req)))))%nat ->
  exists e,
    post_contacts V env _ (Store.query ses now) req w =
      (failure env "Failed to save contact" e,
       {| db := db w;
          issued := (issued w ++ [(insert_contact_sql, insert_params V req)])%list |}).
Proof.
  intros Hv Hlen.
  unfold post_contacts, bind, pool_query, ret. rewrite Hv.
  rewrite store_query_insert. unfold Pg.query.
  rewrite parse_insert. cbn [arity exec].
  rewrite insert_params_length. cbn [Nat.eqb].
  destruct (insert_params_valid V req Hv) as [Hnn Hvl].
  apply Nat.ltb_lt in Hlen. rewrite Hlen in Hvl.
  unfold exec_insert.
  change (insert_params V req) with
    [ prepare_field (Validator.name (sanitized V (Post.body req)));
      prepare_field (Validator.email (sanitized V (Post.body req)));
      prepare_field (Validator.message (sanitized V (Post.body req)));
      prepare_optional (Post.ip req);
      prepare_optional (Post.user_agent req) ] in *.
  destruct (insert_refused ses _) as [o|] eqn:Hr.
  - destruct (insert_refused_rejects ses _ _ Hr) as (e & -> & Hcode).
    exists e. cbn [fst snd].
    destruct (strict_eq (code e) (Some "23505")) eqn:Hs; [|reflexivity].
    exfalso. apply Hcode. revert Hs. unfold strict_eq.
    destruct (code e) as [c|]; [|discriminate].
    destruct (String.eqb_spec c "23505"); [congruence|discriminate].
  - rewrite Hnn, Hvl. eexists. reflexivity.
Qed.

End CreateReadFacts.

(** X6.  A submission that passes validation, whose normalized e-mail has
    at most 100 characters and whose values the engine reads (no U+0000 in
    a text, a caller's address it takes as inet), made while the id
    sequence has a value left, is answered 201 with the id, name, e-mail
    and creation time of the new row; exactly one row is added, under the
    next id, holding the trimmed name and message, the normalized e-mail,
    the caller's address and user agent, and the statement's time as both
    [created_at] and [updated_at]. *)
Theorem create_stores_the_sanitized_row (V : validator_js)
  (env : Server.process_env) (ses : Pg.session) (now : Z)
  (req : Server.Post.request) (w : Server.world Pg.database) :
  StoreSpec.serial_ids (Server.db w) ->
  TableSpec.has_next (Server.db w) ->
  TableSpec.bindable ses V req ->
  validationResult V (Server.Post.body req) = [] ->
  (String.length (toString (Validator.email (sanitized V (Server.Post.body req))))
   <= 100)%nat ->
  let r := Server.post_contacts V env _ (Store.query ses now) req w in
  let row :=
    {| Pg.id := Pg.contacts_id_seq (Server.db w) + 1;
       Pg.name := trim (toString (Validator.name (Server.Post.body req)));
       Pg.email := toString (Validator.email (sanitized V (Server.Post.body req)));
       Pg.message := trim (toString (Validator.message (Server.Post.body req)));
       Pg.ip_address := Server.Post.ip req;
       Pg.user_agent := Server.Post.user_agent req;
       Pg.created_at := now;
       Pg.updated_at := now |} in
  fst r =
    Response 201
      (JObj [ ("success", JBool true);
              ("message", JStr "Contact saved successfully");
              ("data", JObj [ ("id", JNum (Pg.id row));
                              ("name", JStr (Pg.name row));
                              ("email", JStr (Pg.email row));
                              ("created_at", JDate now) ]) ])
  /\ Server.db (snd r) =
       {| Pg.contacts := (Pg.contacts (Server.db w) ++ [row])%list;
          Pg.contacts_id_seq := Pg.contacts_id_seq (Server.db w) + 1 |}.
Proof.
  intros Hser Hnext Hbind Hv Hlen r row. subst r.
  rewrite (post_created V env ses now req w Hser Hnext Hbind Hv Hlen).
  rewrite inserted_fields. fold row. split; reflexivity.
Qed.

Lemma create_stores_foo_example :
  StoreSpec.serial_ids (Server.db (Server.fresh Examples.twelve_rows))
  /\ TableSpec.has_next (Server.db (Server.fresh Examples.twelve_rows))
  /\ TableSpec.bindable Examples.utc example_validator
       (Examples.submit Examples.foo_example)
  /\ validationResult example_validator
       (Server.Post.body (Examples.submit Examples.foo_example)) = []
  /\ Server.db (snd (Server.post_contacts example_validator Examples.production _
                       (Store.query Examples.utc 50)
                       (Examples.submit Examples.foo_example)
                       (Server.fresh Examples.twelve_rows)))
     = {| Pg.contacts :=
            (Pg.contacts Examples.twelve_rows
             ++ [ {| Pg.id := 13; Pg.name := "Jo";
                     Pg.email := "foo@example.com";
                     Pg.message := "0123456789";
                     Pg.ip_address := Some "127.0.0.1";
                     Pg.user_agent := None;
                     Pg.created_at := 50; Pg.updated_at := 50 |} ])%list;
          Pg.contacts_id_seq := 13 |}.
Proof.
  assert (Hser : StoreSpec.serial_ids (Server.db (Server.fresh Examples.twelve_rows))).
  { unfold StoreSpec.serial_ids. cbn.
    repeat constructor; cbn; intros H; discriminate H. }
  assert (Hnext : TableSpec.has_next (Server.db (Server.fresh Examples.twelve_rows)))
    by (unfold TableSpec.has_next; cbn; lia).
  assert (Hbind : TableSpec.bindable Examples.utc example_validator
                    (Examples.submit Examples.foo_example))
    by (vm_compute; repeat split; reflexivity).
  split; [exact Hser|]. split; [exact Hnext|]. split; [exact Hbind|].
  split; [reflexivity|].
  exact (proj2 (create_stores_the_sanitized_row example_validator
                  Examples.production Examples.utc 50
                  (Examples.submit Examples.foo_example)
                  (Server.fresh Examples.twelve_rows) Hser Hnext Hbind eq_refl
                  ltac:(vm_compute; lia))).
Defined.

(** X7.  A submission that passes validation but whose normalized e-mail is
    longer than the 100 characters of its column is answered 500
    [Failed to save contact]; the insert is sent and rejected, and no row
    is stored. *)
Theorem create_rejects_long_email (V : validator_js) (env : Server.process_env)
  (ses : Pg.session) (now : Z) (req : Server.Post.request)
  (w : Server.world Pg.database) :
  validationResult V (Server.Post.body req) = [] ->
  (100 < String.length
           (toString (Validator.email (sanitized V (Server.Post.body req)))))%nat ->
  let r := Server.post_contacts V env _ (Store.query ses now) req w in
  status (fst r) = 500
  /\ member "error" (body (fst r)) = Some (JStr "Failed to save contact")
  /\ Server.db (snd r) = Server.db w
  /\ Server.issued (snd r) =
       (Server.issued w
        ++ [(Pg.insert_contact_sql, Server.insert_params V req)])%list.
Proof.
  intros Hv Hlen r. subst r.
  destruct (post_too_long V env ses now req w Hv Hlen) as [e ->].
  repeat split.
Qed.

Lemma create_rejects_long_address :
  validationResult example_validator
    (Server.Post.body (Examples.submit Cases.long_address)) = []
  /\ (100 < String.length
              (toString (Validator.email
                           (sanitized example_validator
                              (Server.Post.body (Examples.submit Cases.long_address))))))%nat
  /\ status (fst (Server.post_contacts example_validator Examples.production _
                    (Store.query Examples.utc 0)
                    (Examples.submit Cases.long_address)
                    (Server.fresh Examples.empty_db)))
     = 500.
Proof.
  assert (H : (100 < String.length
                       (toString (Validator.email
                                    (sanitized example_validator
                                       (Server.Post.body
                                          (Examples.submit Cases.long_address))))))%nat)
    by (vm_compute; lia).
  split; [reflexivity|]. split; [exact H|].
  exact (proj1 (create_rejects_long_email example_validator Examples.production
                  Examples.utc 0 (Examples.submit Cases.long_address)
                  (Server.fresh Examples.empty_db) eq_refl H)).
Defined.

(** X8.  When [normalizeEmail] returns [false] for an address that passed
    validation (a gmail address that is all sub-address), the other values
    are ones the engine reads and the id sequence has a value left, the
    create goes through: 201, and the e-mail stored and reported is the
    text [false]. *)
Theorem create_stores_false (V : validator_js) (env : Server.process_env)
  (ses : Pg.session) (now : Z) (req : Server.Post.request)
  (w : Server.world Pg.database) :
  StoreSpec.serial_ids (Server.db w) ->
  TableSpec.has_next (Server.db w) ->
  TableSpec.bindable ses V req ->
  validationResult V (Server.Post.body req) = [] ->
  Validator.email (sanitized V (Server.Post.body req)) = False_ ->
  let r := Server.post_contacts V env _ (Store.query ses now) req w in
  status (fst r) = 201
  /\ (exists row,
        Pg.contacts (Server.db (snd r)) = (Pg.contacts (Server.db w) ++ [row])%list
        /\ Pg.email row = "false")
  /\ (exists data,
        member "data" (body (fst r)) = Some data
        /\ member "email" data = Some (JStr "false")).
Proof.
  intros Hser Hnext Hbind Hv Hfalse r. subst r.
  assert (Hlen : (String.length
                    (toString (Validator.email (sanitized V (Server.Post.body req))))
                  <= 100)%nat) by (rewrite Hfalse; cbn; lia).
  rewrite (post_created V env ses now req w Hser Hnext Hbind Hv Hlen).
  rewrite inserted_fields, Hfalse. cbn [fst snd status Server.db Pg.contacts].
  split; [reflexivity|]. split; eexists; split; reflexivity.
Qed.

Lemma create_stores_false_only_subaddress :
  StoreSpec.serial_ids (Server.db (Server.fresh Examples.empty_db))
  /\ TableSpec.has_next (Server.db (Server.fresh Examples.empty_db))
  /\ TableSpec.bindable Examples.utc example_validator
       (Examples.submit Cases.only_subaddress)
  /\ validationResult example_validator
       (Server.Post.body (Examples.submit Cases.only_subaddress)) = []
  /\ Validator.email (sanitized example_validator
                        (Server.Post.body (Examples.submit Cases.only_subaddress)))
     = False_
  /\ status (fst (Server.post_contacts example_validator Examples.production _
                    (Store.query Examples.utc 0)
                    (Examples.submit Cases.only_subaddress)
                    (Server.fresh Examples.empty_db)))
     = 201.
Proof.
  assert (Hser : StoreSpec.serial_ids (Server.db (Server.fresh Examples.empty_db)))
    by constructor.
  assert (Hnext : TableSpec.has_next (Server.db (Server.fresh Examples.empty_db)))
    by (unfold TableSpec.has_next; cbn; lia).
  assert (Hbind : TableSpec.bindable Examples.utc example_validator
                    (Examples.submit Cases.only_subaddress))
    by (vm_compute; repeat split; reflexivity).
  split; [exact Hser|]. split; [exact Hnext|]. split; [exact Hbind|].
  split; [reflexivity|]. split; [reflexivity|].
  exact (proj1 (create_stores_false example_validator Examples.production
                  Examples.utc 0 (Examples.submit Cases.only_subaddress)
                  (Server.fresh Examples.empty_db) Hser Hnext Hbind
                  eq_refl eq_refl)).
Defined.

(** A name that holds U+0000 passes the chains and is refused by the
    engine; so is a caller's address the engine does not read. *)
Example create_refused_by_the_engine :
  map (fun req =>
         fst (Server.post_contacts example_validator Examples.production _
                (Store.query Examples.utc 0) req
                (Server.fresh Examples.empty_db)))
      [ Examples.submit
          {| Validator.name := Text (String "J" (String Ascii.zero "o"));
             Validator.email := Text "foo@example.com";
             Validator.message := Text "0123456789" |};
        {| Server.Post.body := Examples.foo_example;
           Server.Post.ip := Some "unknown";
           Server.Post.user_agent := None |} ]
  = [ Response 500 (JObj [("error", JStr "Failed to save contact")]);
      Response 500 (JObj [("error", JStr "Failed to save contact")]) ].
Proof. vm_compute. reflexivity. Qed.

(** X9.  Reading back a created record: when a create is answered 201, a
    following read of the id it reports is answered 200 with that id, the
    trimmed name and message, the normalized e-mail and the creation time
    of the create. *)
Theorem created_record_reads_back (V : validator_js) (env : Server.process_env)
  (ses : Pg.session) (now now' : Z) (req : Server.Post.request)
  (w : Server.world Pg.database) :
  StoreSpec.serial_ids (Server.db w) ->
  let first := Server.post_contacts V env _ (Store.query ses now) req w in
  status (fst first) = 201 ->
  let i := Pg.contacts_id_seq (Server.db w) + 1 in
  StoreSpec.data_id (fst first) = Some (JNum i)
  /\ fst (Api.get_contact env _ (Store.query ses now') i (snd first)) =
       Response 200
         (JObj [ ("success", JBool true);
                 ("data",
                  JObj [ ("id", JNum i);
                         ("name",
                          JStr (trim (toString (Validator.name (Server.Post.body req)))));
                         ("email",
                          JStr (toString (Validator.email
                                            (sanitized V (Server.Post.body req)))));
                         ("message",
                          JStr (trim (toString (Validator.message (Server.Post.body req)))));
                         ("created_at", JDate now) ]) ]).
Proof.
  intros Hser first H201 i.
  destruct (post_cases V env ses now req w) as [(_ & Hne & _)|(_ & _ & Hr & Hdb)];
    [contradiction|].
  fold first in Hr, Hdb. rewrite Hr.
  split; [reflexivity|].
  assert (Hi : TableSpec.int4 i).
  { pose proof (post_created_has_next V env ses now req w H201) as Hnext.
    unfold TableSpec.has_next in Hnext. unfold TableSpec.int4, i. lia. }
  rewrite (get_contact_run env ses now' i (snd first) Hi), Hdb.
  cbn [fst Pg.contacts].
  rewrite (last_is_found i).
  - rewrite inserted_fields. reflexivity.
  - eapply Forall_impl; [|exact Hser]. cbv beta. unfold i. intros; lia.
  - reflexivity.
Qed.

Lemma created_record_reads_back_foo :
  StoreSpec.serial_ids (Server.db (Server.fresh Examples.empty_db))
  /\ status (fst (Server.post_contacts example_validator Examples.production _
                    (Store.query Examples.utc 5)
                    (Examples.submit Examples.foo_example)
                    (Server.fresh Examples.empty_db))) = 201
  /\ fst (Api.get_contact Examples.production _ (Store.query Examples.utc 9) 1
            (snd (Server.post_contacts example_validator Examples.production _
                    (Store.query Examples.utc 5)
                    (Examples.submit Examples.foo_example)
                    (Server.fresh Examples.empty_db))))
     = Response 200
         (JObj [ ("success", JBool true);
                 ("data", JObj [ ("id", JNum 1); ("name", JStr "Jo");
                                 ("email", JStr "foo@example.com");
                                 ("message", JStr "0123456789");
                                 ("created_at", JDate 5) ]) ]).
Proof.
  assert (Hser : StoreSpec.serial_ids (Server.db (Server.fresh Examples.empty_db)))
    by constructor.
  split; [exact Hser|]. split; [reflexivity|].
  exact (proj2 (created_record_reads_back example_validator Examples.production
                  Examples.utc 5 9 (Examples.submit Examples.foo_example)
                  (Server.fresh Examples.empty_db) Hser eq_refl)).
Defined.

(** X10.  Reading a record by id never changes the table.  For an id in
    the range of the column's type, -2147483648 to 2147483647, the read is
    answered 404 [Contact not found] exactly when no stored row has the
    id, and otherwise 200 with the id, name, e-mail, message and creation
    time of the row that has it; for an id outside that range the engine
    refuses the parameter and the read is answered 500
    [Failed to fetch contact]. *)
Theorem read_by_id (env : Server.process_env) (ses : Pg.session) (now i : Z)
  (w : Server.world Pg.database) :
  let r := Api.get_contact env _ (Store.query ses now) i w in
  Server.db (snd r) = Server.db w
  /\ (-2147483648 <= i <= 2147483647 ->
      (fst r = Response 404 (JObj [("error", JStr "Contact not found")])
       <-> forall row, In row (Pg.contacts (Server.db w)) -> Pg.id row <> i)
      /\ (forall row,
            find (fun r => Pg.id r =? i) (Pg.contacts (Server.db w)) = Some row ->
            fst r =
              Response 200
                (JObj [ ("success", JBool true);
                        ("data", JObj [ ("id", JNum i);
                                        ("name", JStr (Pg.name row));
                                        ("email", JStr (Pg.email row));
                                        ("message", JStr (Pg.message row));
                                        ("created_at",
                                         JDate (Pg.created_at row)) ]) ])))
  /\ (~ (-2147483648 <= i <= 2147483647) ->
      status (fst r) = 500
      /\ member "error" (body (fst r)) = Some (JStr "Failed to fetch contact")).
Proof.
  intros r. subst r.
  split; [exact (proj1 (get_contact_keeps env ses now i w))|]. split.
  - intros Hi. rewrite (get_contact_run env ses now i w Hi). cbn [fst snd Server.db].
    split.
    + destruct (filter (fun r => Pg.id r =? i) (Pg.contacts (Server.db w)))
        as [|x rest] eqn:Hf.
      * split; [|reflexivity]. intros _ row Hin Hid.
        assert (Hx : In row (filter (fun r => Pg.id r =? i)
                               (Pg.contacts (Server.db w))))
          by (apply filter_In; split; [exact Hin | now apply Z.eqb_eq]).
        rewrite Hf in Hx. destruct Hx.
      * split; [intros H; discriminate H|]. intros Hno. exfalso.
        assert (Hx : In x (filter (fun r => Pg.id r =? i)
                             (Pg.contacts (Server.db w))))
          by (rewrite Hf; now left).
        apply filter_In in Hx. destruct Hx as [Hin Hid].
        apply Z.eqb_eq in Hid. exact (Hno x Hin Hid).
    + intros row Hfind.
      assert (Hid : Pg.id row = i).
      { apply find_some in Hfind. destruct Hfind as [_ H]. now apply Z.eqb_eq in H. }
      destruct (filter_find _ _ _ Hfind) as [rest ->].
      rewrite <- Hid. reflexivity.
  - intros Hi. rewrite (get_contact_refused env ses now i w Hi).
    split; reflexivity.
Qed.

Lemma read_by_id_three :
  -2147483648 <= 3 <= 2147483647
  /\ fst (Api.get_contact Examples.production _ (Store.query Examples.utc 0) 3
            (Server.fresh Examples.twelve_rows))
     = Response 200
         (JObj [ ("success", JBool true);
                 ("data", JObj [ ("id", JNum 3);
                                 ("name", JStr "Jo");
                                 ("email", JStr "jo@example.com");
                                 ("message", JStr "0123456789");
                                 ("created_at", JDate 3000) ]) ]).
Proof.
  assert (Hi : -2147483648 <= 3 <= 2147483647) by lia.
  split; [exact Hi|].
  exact (proj2 (proj1 (proj2 (read_by_id Examples.production Examples.utc 0 3
                                (Server.fresh Examples.twelve_rows))) Hi)
           (Examples.stored 3) eq_refl).
Defined.

Example read_of_an_id_out_of_range :
  fst (Api.get_contact Examples.production _ (Store.query Examples.utc 0)
         2147483648 (Server.fresh Examples.twelve_rows))
  = Response 500 (JObj [("error", JStr "Failed to fetch contact")]).
Proof. reflexivity. Qed.

(** ** Listing, beyond the accepted requests *)

Section ListMore.
Import Pg Server ListSpec TableSpec.
Variable ses : session.
Variable now : Z.

Ltac filter_cases q :=
  destruct q as [page limit [[|? ?]|] [[|? ?]|] [[|? ?]|]].

Lemma legible_cases (q : Query.request) : legible ses q \/ ~ legible ses q.
Proof.
  unfold legible.
  destruct (clean (Query.email q)), (readable ses (Query.startDate q)),
    (readable ses (Query.endDate q));
    try (left; repeat split; reflexivity);
    right; intros (H1 & H2 & H3); discriminate.
Qed.

(** A filter the engine does not read stops a statement that carries it. *)
Lemma bind_where_illegible (q : Query.request) (rest : list param) :
  ~ legible ses q ->
  exists e,
    bind_where ses (filter_parameters q ++ rest)%list (where_of q)
    = inr (Rejected e).
Proof.
  unfold legible.
  filter_cases q;
    cbv beta iota zeta delta
      [clean readable where_of filter_parameters present truthy
         prepare_optional app bind_where bind_predicate bind_timestamp
         nth_error Nat.sub Nat.add text_in option_map
         Query.email Query.startDate Query.endDate].
  all: repeat match goal with
         | |- context [has_nul ?s] => destruct (has_nul s); cbn [negb andb]
         | |- context [timestamptz_in ses ?s] =>
             destruct (timestamptz_in ses s)
         end;
    intros Hn; try (eexists; reflexivity);
    exfalso; apply Hn; repeat split; reflexivity.
Qed.

Lemma count_rejected (db : database) (q : Query.request) :
  ~ legible ses q ->
  exists e,
    Pg.query ses now db (countQuery (build_list_statements q))
      (countParams (build_list_statements q)) = (Rejected e, db).
Proof.
  intros Hn.
  destruct (build_parse q) as [_ Hp].
  destruct (build_params q) as (_ & Hps & _).
  cbv zeta in Hp, Hps.
  unfold Pg.query. rewrite Hp, Hps, count_arity.
  rewrite Nat.eqb_refl. cbn [exec]. unfold exec_count_contacts.
  destruct (bind_where_illegible q [] Hn) as (e & Hb).
  rewrite app_nil_r in Hb. rewrite Hb. now exists e.
Qed.

(** A negative offset or limit stops the row statement. *)
Lemma select_negative (db : database) (q : Query.request) :
  legible ses q ->
  -9223372036854775808 <= limit_of q <= 9223372036854775807 ->
  -9223372036854775808 <= (page_of q - 1) * limit_of q <= 9223372036854775807 ->
  limit_of q < 0 \/ (page_of q - 1) * limit_of q < 0 ->
  exists e,
    Pg.query ses now db (Server.query (build_list_statements q))
      (params (build_list_statements q)) = (Rejected e, db).
Proof.
  intros Hleg Hl Ho Hneg.
  pose proof (select_exec ses now db q) as Hx. cbv zeta in Hx. rewrite Hx.
  unfold exec_select_contacts.
  destruct (bind_where_legible ses q
              [PInt (limit_of q); PInt ((page_of q - 1) * limit_of q)] Hleg)
    as (f & -> & _).
  destruct (nth_error_limit (filter_parameters q) (PInt (limit_of q))
              (PInt ((page_of q - 1) * limit_of q))) as [-> ->].
  cbn [option_map].
  rewrite !int8_in_range by lia.
  destruct (Z.ltb_spec ((page_of q - 1) * limit_of q) 0);
    [eexists; reflexivity|].
  destruct (Z.ltb_spec (limit_of q) 0); [eexists; reflexivity | lia].
Qed.

Variable env : process_env.

(** The response to a list request the engine accepts. *)
Lemma get_contacts_accepted (q : Query.request) (w : world database) :
  legible ses q ->
  0 <= limit_of q <= 9223372036854775807 ->
  0 <= (page_of q - 1) * limit_of q <= 9223372036854775807 ->
  let s := build_list_statements q in
  let matching := filter (matches ses q) (contacts (db w)) in
  fst (get_contacts env _ (Store.query ses now) q w) =
    Response 200
      (JObj
         [ ("success", JBool true);
           ("data",
            JArr (map (project ["id"; "name"; "email"; "created_at"])
                      (chunk (limit_of q) (page_of q)
                         (by_created_at_desc
                            (tie_rank ses now (params s) matching) matching))));
           ("pagination",
            JObj [ ("page", JNum (page_of q));
                   ("limit", JNum (limit_of q));
                   ("total", JNum (Z.of_nat (List.length matching)));
                   ("totalPages",
                    number (ceil_div (Some (Z.of_nat (List.length matching)))
                                     (limit_of q))) ]) ]).
Proof.
  intros Hleg Hl Ho s matching.
  pose proof (select_outcome ses now (db w) q Hleg Hl Ho) as Hsel.
  pose proof (count_outcome ses now (db w) q Hleg) as Hcnt.
  cbv zeta in Hsel, Hcnt. fold s matching in Hsel, Hcnt.
  unfold get_contacts, bind, pool_query. fold s.
  rewrite (proj1 (store_query_list ses now (db w) q _)). fold s.
  rewrite Hsel. cbn [db].
  rewrite (proj2 (store_query_list ses now (db w) q _)). fold s.
  rewrite Hcnt.
  cbn [nth_error fst snd ret db]. rewrite count_reads_back. reflexivity.
Qed.

(** The response to a list request the engine refuses. *)
Lemma get_contacts_refused (q : Query.request) (w : world database) :
  -9223372036854775808 <= limit_of q <= 9223372036854775807 ->
  -9223372036854775808 <= (page_of q - 1) * limit_of q <= 9223372036854775807 ->
  ~ legible ses q \/ limit_of q < 0 \/ (page_of q - 1) * limit_of q < 0 ->
  exists e,
    fst (get_contacts env _ (Store.query ses now) q w)
    = failure env "Failed to fetch contacts" e.
Proof.
  intros Hl Ho Hbad.
  unfold get_contacts, bind, pool_query.
  rewrite (proj1 (store_query_list ses now (db w) q _)).
  destruct (legible_cases q) as [Hleg|Hn].
  - destruct (select_negative (db w) q Hleg Hl Ho) as (e & ->);
      [destruct Hbad as [Hn|Hneg]; [contradiction | exact Hneg]|].
    cbn [db]. destruct (Store.query ses now (db w) _ _) as [o2 s2].
    exists e. reflexivity.
  - pose proof (select_exec ses now (db w) q) as Hx. cbv zeta in Hx.
    rewrite Hx. cbn [db].
    rewrite (proj2 (store_query_list ses now (db w) q _)).
    destruct (count_rejected (db w) q Hn) as (e & ->).
    destruct (exec_select_contacts _ _ _ _ _ _ _) as [rows|e'];
      [exists e | exists e']; reflexivity.
Qed.

End ListMore.

(** X11.  The texts of the two list statements depend only on which of the
    filters [email], [startDate] and [endDate] the request carries: not on
    their values, and not on [page] or [limit].  No request value ever
    becomes part of a statement's text. *)
Theorem list_texts_ignore_values (q q' : Server.Query.request) :
  TableSpec.carried q = TableSpec.carried q' ->
  Server.query (Server.build_list_statements q)
  = Server.query (Server.build_list_statements q')
  /\ Server.countQuery (Server.build_list_statements q)
     = Server.countQuery (Server.build_list_statements q').
Proof.
  assert (H : forall r,
             Server.query (Server.build_list_statements r)
             = Server.query (Server.build_list_statements
                               (TableSpec.specimen (TableSpec.carried r)))
             /\ Server.countQuery (Server.build_list_statements r)
                = Server.countQuery (Server.build_list_statements
                                       (TableSpec.specimen (TableSpec.carried r)))).
  { intros [page limit [[|? ?]|] [[|? ?]|] [[|? ?]|]]; split; reflexivity. }
  intros Hc. destruct (H q) as [-> ->], (H q') as [-> ->]. now rewrite Hc.
Qed.

Lemma list_texts_ignore_quote :
  TableSpec.carried (Cases.since "2024-01-01")
  = TableSpec.carried (Cases.since "'; DROP TABLE contacts; --")
  /\ Server.query (Server.build_list_statements (Cases.since "2024-01-01"))
     = Server.query (Server.build_list_statements
                       (Cases.since "'; DROP TABLE contacts; --")).
Proof.
  split; [reflexivity|].
  exact (proj1 (list_texts_ignore_values (Cases.since "2024-01-01")
                  (Cases.since "'; DROP TABLE contacts; --") eq_refl)).
Defined.

(** X12.  For a list request whose page, limit and offset
    [(page - 1) * limit] are integers a double holds exactly, the answer is
    200 exactly when the limit and the offset are not negative and the
    filters are text the engine reads (no U+0000 in the e-mail filter,
    date filters it reads as timestamps); every other such request is
    answered 500 [Failed to fetch contacts].  So [page=0] with a positive
    limit is an internal error, not an empty page. *)
Theorem list_status (ses : Pg.session) (now : Z) (env : Server.process_env)
  (q : Server.Query.request) (w : Server.world Pg.database) :
  let page := match Server.Query.page q with Some p => p | None => 1 end in
  let limit := match Server.Query.limit q with Some l => l | None => 10 end in
  let offset := (page - 1) * limit in
  TableSpec.safe page -> TableSpec.safe limit -> TableSpec.safe offset ->
  let r := fst (Server.get_contacts env _ (Store.query ses now) q w) in
  (status r = 200
   <-> 0 <= limit
       /\ 0 <= offset
       /\ ListSpec.clean (Server.Query.email q) = true
       /\ ListSpec.readable ses (Server.Query.startDate q) = true
       /\ ListSpec.readable ses (Server.Query.endDate q) = true)
  /\ (status r <> 200 ->
      status r = 500
      /\ member "error" (body r) = Some (JStr "Failed to fetch contacts")).
Proof.
  intros page limit offset _ Hl Ho r. subst r.
  change page with (Server.page_of q) in *.
  change limit with (Server.limit_of q) in *.
  subst offset. unfold TableSpec.safe in Hl, Ho.
  change (ListSpec.clean (Server.Query.email q) = true
          /\ ListSpec.readable ses (Server.Query.startDate q) = true
          /\ ListSpec.readable ses (Server.Query.endDate q) = true)
    with (TableSpec.legible ses q).
  destruct (legible_cases ses q) as [Hleg|Hn].
  - destruct (Z.le_gt_cases 0 (Server.limit_of q)) as [Hl0|Hl0];
      [destruct (Z.le_gt_cases 0 ((Server.page_of q - 1) * Server.limit_of q))
         as [Ho0|Ho0]|].
    + rewrite (get_contacts_accepted ses now env q w Hleg) by lia.
      cbn [status]. split; [|intros H; now destruct H].
      split; [intros _; auto | reflexivity].
    + destruct (get_contacts_refused ses now env q w) as (e & ->);
        [lia | lia | right; right; exact Ho0 |].
      split; [|intros _; split; reflexivity].
      split; [intros H; discriminate H | intros (_ & H & _); lia].
    + destruct (get_contacts_refused ses now env q w) as (e & ->);
        [lia | lia | right; left; exact Hl0 |].
      split; [|intros _; split; reflexivity].
      split; [intros H; discriminate H | intros (H & _); lia].
  - destruct (get_contacts_refused ses now env q w) as (e & ->);
      [lia | lia | left; exact Hn |].
    split; [|intros _; split; reflexivity].
    split; [intros H; discriminate H | intros (_ & _ & H); contradiction].
Qed.

(** Page 0 of the twelve rows. *)
Lemma list_status_page_zero :
  TableSpec.safe 0 /\ TableSpec.safe 10
  /\ status (fst (Server.get_contacts Examples.production _
                    (Store.query Examples.utc 0)
                    (TableSpec.at_page (Cases.first_page 10) 0)
                    (Server.fresh Examples.twelve_rows))) = 500
  /\ member "error"
       (body (fst (Server.get_contacts Examples.production _
                     (Store.query Examples.utc 0)
                     (TableSpec.at_page (Cases.first_page 10) 0)
                     (Server.fresh Examples.twelve_rows))))
     = Some (JStr "Failed to fetch contacts").
Proof.
  assert (H0 : TableSpec.safe 0) by (unfold TableSpec.safe; lia).
  assert (H10 : TableSpec.safe 10) by (unfold TableSpec.safe; lia).
  assert (Hoff : TableSpec.safe (-10)) by (unfold TableSpec.safe; lia).
  split; [exact H0|]. split; [exact H10|].
  apply (proj2 (list_status Examples.utc 0 Examples.production
                  (TableSpec.at_page (Cases.first_page 10) 0)
                  (Server.fresh Examples.twelve_rows) H0 H10 Hoff)).
  vm_compute. discriminate.
Defined.

Example list_page_zero :
  fst (Server.get_contacts Examples.production _ (Store.query Examples.utc 0)
         (TableSpec.at_page (Cases.first_page 10) 0)
         (Server.fresh Examples.twelve_rows))
  = Response 500 (JObj [("error", JStr "Failed to fetch contacts")]).
Proof. vm_compute. reflexivity. Qed.

(** A date filter that holds U+0000, and an e-mail filter that does. *)
Example list_filters_with_nul :
  map (fun q =>
         status (fst (Server.get_contacts Examples.production _
                        (Store.query Examples.utc 0) q
                        (Server.fresh Examples.twelve_rows))))
      [ Cases.since (String Ascii.zero "");
        {| Server.Query.page := None; Server.Query.limit := None;
           Server.Query.email := Some (String "a" (String Ascii.zero ""));
           Server.Query.startDate := None; Server.Query.endDate := None |} ]
  = [500; 500].
Proof. vm_compute. reflexivity. Qed.

(** X13.  With [limit=0], a page a double holds exactly and filters the
    engine reads, the answer is 200 with no rows, the right [total], and
    [totalPages: null]: the division by zero leaves no number to report. *)
Theorem list_with_limit_zero (ses : Pg.session) (now : Z)
  (env : Server.process_env) (q : Server.Query.request)
  (w : Server.world Pg.database) :
  Server.Query.limit q = Some 0 ->
  TableSpec.safe (match Server.Query.page q with Some p => p | None => 1 end) ->
  ListSpec.clean (Server.Query.email q) = true ->
  ListSpec.readable ses (Server.Query.startDate q) = true ->
  ListSpec.readable ses (Server.Query.endDate q) = true ->
  fst (Server.get_contacts env _ (Store.query ses now) q w) =
    Response 200
      (JObj [ ("success", JBool true);
              ("data", JArr []);
              ("pagination",
               JObj [ ("page",
                       JNum (match Server.Query.page q with
                             | Some p => p
                             | None => 1
                             end));
                      ("limit", JNum 0);
                      ("total",
                       JNum (Z.of_nat
                               (List.length
                                  (filter (ListSpec.matches ses q)
                                          (Pg.contacts (Server.db w))))));
                      ("totalPages", JNull) ]) ]).
Proof.
  intros Hl _ Hc Hs He.
  assert (Hlim : Server.limit_of q = 0) by (unfold Server.limit_of; now rewrite Hl).
  rewrite (get_contacts_accepted ses now env q w (conj Hc (conj Hs He)))
    by (rewrite Hlim; lia).
  unfold TableSpec.chunk. rewrite Hlim. reflexivity.
Qed.

Lemma list_with_limit_zero_twelve :
  Server.Query.limit (Cases.first_page 0) = Some 0
  /\ TableSpec.safe 1
  /\ fst (Server.get_contacts Examples.production _ (Store.query Examples.utc 0)
            (Cases.first_page 0) (Server.fresh Examples.twelve_rows))
     = Response 200
         (JObj [ ("success", JBool true);
                 ("data", JArr []);
                 ("pagination",
                  JObj [ ("page", JNum 1); ("limit", JNum 0);
                         ("total", JNum 12); ("totalPages", JNull) ]) ]).
Proof.
  assert (Hs : TableSpec.safe 1) by (unfold TableSpec.safe; lia).
  split; [reflexivity|]. split; [exact Hs|].
  exact (list_with_limit_zero Examples.utc 0 Examples.production
           (Cases.first_page 0) (Server.fresh Examples.twelve_rows)
           eq_refl Hs eq_refl eq_refl eq_refl).
Defined.

Section PageFacts.
Import Pg Server ListSpec TableSpec.

Lemma firstn_add {A : Type} (a b : nat) (l : list A) :
  firstn (a + b) l = (firstn a l ++ firstn b (skipn a l))%list.
Proof.
  revert l. induction a as [|a IH]; intros l; [reflexivity|].
  destruct l as [|x l]; cbn [Nat.add firstn skipn app].
  - now rewrite firstn_nil.
  - now rewrite IH.
Qed.

(** Pages of [n] rows, one after the other, are the first rows. *)
Lemma chunks_concat {A : Type} (n : nat) (rows : list A) (pages : nat) :
  List.concat (map (fun k => firstn n (skipn (k * n) rows)) (seq 0 pages))
  = firstn (pages * n) rows.
Proof.
  induction pages as [|p IH]; [reflexivity|].
  rewrite seq_S, map_app, concat_app, IH. cbn [map List.concat Nat.add].
  rewrite app_nil_r. cbn [Nat.mul].
  rewrite (Nat.add_comm n (p * n)). symmetry. apply firstn_add.
Qed.

End PageFacts.

(** X14.  The pages of a list partition it.  For a positive limit,
    filters the engine reads, a limit and a total a double holds exactly,
    and matching rows no two of which have the same [created_at], there
    are [totalPages] pages; page [k] is answered with rows
    [(k - 1) * limit] up to [k * limit] of the matching rows ordered newest
    first, and those pages one after the other are exactly the matching
    rows, each once, as long as the table does not change in between. *)
Theorem pages_cover_the_list (ses : Pg.session) (now : Z)
  (env : Server.process_env) (q : Server.Query.request)
  (w : Server.world Pg.database) :
  let limit := match Server.Query.limit q with Some l => l | None => 10 end in
  let matching := filter (ListSpec.matches ses q) (Pg.contacts (Server.db w)) in
  let total := Z.of_nat (List.length matching) in
  let shown r :=
    JObj [ ("id", JNum (Pg.id r)); ("name", JStr (Pg.name r));
           ("email", JStr (Pg.email r));
           ("created_at", JDate (Pg.created_at r)) ] in
  0 < limit ->
  TableSpec.safe limit -> TableSpec.safe total ->
  TableSpec.legible ses q ->
  TableSpec.no_ties matching ->
  exists (sorted : list Pg.row) (totalPages : nat),
    Permutation sorted matching
    /\ StronglySorted ListSpec.newest_first sorted
    /\ (forall k, (k < totalPages)%nat ->
          fst (Server.get_contacts env _ (Store.query ses now)
                 (TableSpec.at_page q (Z.of_nat k + 1)) w) =
            Response 200
              (JObj [ ("success", JBool true);
                      ("data",
                       JArr (map shown
                               (firstn (Z.to_nat limit)
                                  (skipn (k * Z.to_nat limit) sorted))));
                      ("pagination",
                       JObj [ ("page", JNum (Z.of_nat k + 1));
                              ("limit", JNum limit);
                              ("total", JNum total);
                              ("totalPages", JNum (Z.of_nat totalPages)) ]) ]))
    /\ List.concat (map (fun k => firstn (Z.to_nat limit)
                                    (skipn (k * Z.to_nat limit) sorted))
                        (seq 0 totalPages))
       = sorted.
Proof.
  intros limit matching total shown Hl Hsl Hst Hleg Hnt.
  change limit with (Server.limit_of q) in *.
  unfold TableSpec.safe in Hsl, Hst.
  destruct (ceil_div_spec total (Server.limit_of q) Hl) as (tp & Htp & Hlo & Hhi).
  assert (Htp0 : 0 <= tp) by nia.
  set (sorted := Pg.by_created_at_desc (fun _ => 0) matching).
  exists sorted, (Z.to_nat tp).
  split; [apply by_created_at_desc_perm|].
  split; [apply by_created_at_desc_sorted|].
  split.
  - intros k Hk.
    assert (Hoff : 0 <= Z.of_nat k * Server.limit_of q < total) by nia.
    pose proof (get_contacts_accepted ses now env
                  (TableSpec.at_page q (Z.of_nat k + 1)) w) as Hrun.
    cbv zeta in Hrun.
    change (TableSpec.legible ses (TableSpec.at_page q (Z.of_nat k + 1)))
      with (TableSpec.legible ses q) in Hrun.
    change (Server.limit_of (TableSpec.at_page q (Z.of_nat k + 1)))
      with (Server.limit_of q) in Hrun.
    change (Server.page_of (TableSpec.at_page q (Z.of_nat k + 1)))
      with (Z.of_nat k + 1) in Hrun.
    change (filter (ListSpec.matches ses (TableSpec.at_page q (Z.of_nat k + 1)))
                   (Pg.contacts (Server.db w))) with matching in Hrun.
    replace (Z.of_nat k + 1 - 1) with (Z.of_nat k) in Hrun by lia.
    rewrite (Hrun Hleg) by lia. clear Hrun.
    rewrite (by_created_at_desc_no_ties _ (fun _ => 0) matching Hnt).
    fold sorted total. unfold TableSpec.chunk.
    replace (Z.of_nat k + 1 - 1) with (Z.of_nat k) by lia.
    rewrite Z2Nat.inj_mul, Nat2Z.id by lia.
    rewrite Htp. cbn [Server.number]. rewrite Z2Nat.id by lia.
    rewrite map_ext with (g := shown) by reflexivity. reflexivity.
  - rewrite chunks_concat. apply firstn_all2.
    unfold sorted. rewrite by_created_at_desc_length.
    apply Nat2Z.inj_le. rewrite Nat2Z.inj_mul, !Z2Nat.id by lia. exact Hhi.
Qed.

Lemma pages_cover_the_twelve :
  0 < 5
  /\ TableSpec.no_ties (Pg.contacts Examples.twelve_rows)
  /\ exists (sorted : list Pg.row) (totalPages : nat),
       map Pg.id sorted = [12; 11; 10; 9; 8; 7; 6; 5; 4; 3; 2; 1]
       /\ List.concat (map (fun k => firstn 5 (skipn (k * 5) sorted))
                          (seq 0 totalPages))
          = sorted.
Proof.
  assert (H5 : 0 < 5) by lia.
  assert (Hs5 : TableSpec.safe 5) by (unfold TableSpec.safe; lia).
  assert (Hs12 : TableSpec.safe 12) by (unfold TableSpec.safe; lia).
  assert (Hnt : TableSpec.no_ties (Pg.contacts Examples.twelve_rows)).
  { unfold TableSpec.no_ties. cbn.
    repeat (constructor; [cbn; intros H; repeat destruct H as [H|H];
                          try discriminate H; exact H|]).
    constructor. }
  split; [exact H5|]. split; [exact Hnt|].
  destruct (pages_cover_the_list Examples.utc 0 Examples.production
              (Cases.first_page 5) (Server.fresh Examples.twelve_rows)
              H5 Hs5 Hs12 (conj eq_refl (conj eq_refl eq_refl)) Hnt)
    as (sorted & n & Hperm & Hsort & _ & Hcat).
  exists sorted, n. split; [|exact Hcat].
  rewrite (sorted_perm_unique Pg.created_at sorted
             (Pg.by_created_at_desc (fun _ => 0)
                (Pg.contacts Examples.twelve_rows))).
  - reflexivity.
  - exact Hsort.
  - apply by_created_at_desc_sorted.
  - eapply Permutation_NoDup; [|exact Hnt].
    apply Permutation_map. symmetry. exact Hperm.
  - rewrite Hperm. symmetry. apply by_created_at_desc_perm.
Defined.

(** Page 3 of the twelve rows, five to a page. *)
Example pages_last_of_twelve :
  fst (Server.get_contacts Examples.production _ (Store.query Examples.utc 0)
         (TableSpec.at_page (Cases.first_page 5) 3)
         (Server.fresh Examples.twelve_rows))
  = Response 200
      (JObj [ ("success", JBool true);
              ("data",
               JArr [ JObj [ ("id", JNum 2); ("name", JStr "Jo");
                             ("email", JStr "jo@example.com");
                             ("created_at", JDate 2000) ];
                      JObj [ ("id", JNum 1); ("name", JStr "Jo");
                             ("email", JStr "jo@example.com");
                             ("created_at", JDate 1000) ] ]);
              ("pagination",
               JObj [ ("page", JNum 3); ("limit", JNum 5);
                      ("total", JNum 12); ("totalPages", JNum 3) ]) ]).
Proof. vm_compute. reflexivity. Qed.

(** ** Deleting, metrics and health *)

(** X15.  A delete is answered 401 exactly when the process runs in
    production and the [X-API-Key] header differs from [ADMIN_API_KEY];
    the two are compared as they are, so in production with no admin key
    configured a request without the header is let through to the
    store. *)
Theorem delete_refused_iff (env : Server.process_env) (store : Type)
  (pool : store -> string -> list Pg.param -> Pg.outcome * store)
  (req : Server.Delete.request) (w : Server.world store) :
  status (fst (Server.delete_contact env store pool req w)) = 401
  <-> Server.NODE_ENV env = Some "production"
      /\ Server.Delete.x_api_key req <> Server.ADMIN_API_KEY env.
Proof.
  unfold Server.delete_contact, Server.bind, Server.pool_query, Server.ret.
  rewrite <- strict_eq_spec, <- strict_eq_false.
  destruct (Server.strict_eq (Server.NODE_ENV env) (Some "production")),
    (Server.strict_eq (Server.Delete.x_api_key req) (Server.ADMIN_API_KEY env));
    cbn [andb negb fst status]; try (split; [auto | reflexivity]).
  all: destruct (pool _ _ _) as [[[|first rest]|e] s]; cbn [fst status];
    split; try (intros H; discriminate H); intros [H1 H2]; discriminate.
Qed.

(** In production without an admin key, a delete without the header
    reaches the store. *)
Example delete_without_configured_key :
  fst (Server.delete_contact Cases.production_without_key _
         (Store.query Examples.utc 0) (Examples.delete_without_key 3)
         (Server.fresh Examples.twelve_rows))
  = Response 200
      (JObj [ ("success", JBool true);
              ("message", JStr "Contact deleted successfully");
              ("data", JObj [ ("id", JNum 3);
                              ("email", JStr "jo@example.com") ]) ]).
Proof. vm_compute. reflexivity. Qed.

Section MetricsMore.
Import Pg Server.
Variable ses : session.
Variable now : Z.

Lemma indicator_sum (k : Z) (ds : list Z) :
  NoDup ds ->
  list_sum (map (fun d => if k =? d then 1%nat else 0%nat) ds)
  = if in_dec Z.eq_dec k ds then 1%nat else 0%nat.
Proof.
  induction 1 as [|d ds Hd Hnd IH]; [reflexivity|].
  cbn [map list_sum fold_right]. fold (list_sum (map (fun d => if k =? d then 1%nat else 0%nat) ds)).
  rewrite IH.
  destruct (Z.eqb_spec k d) as [->|Hne].
  - destruct (in_dec Z.eq_dec d ds); [contradiction|].
    destruct (in_dec Z.eq_dec d (d :: ds)) as [_|Hn]; [reflexivity|].
    exfalso. apply Hn. now left.
  - destruct (in_dec Z.eq_dec k ds) as [Hin|Hnin];
      destruct (in_dec Z.eq_dec k (d :: ds)) as [Hin'|Hnin']; try reflexivity.
    + exfalso. apply Hnin'. now right.
    + destruct Hin' as [->|Hin']; [congruence | contradiction].
Qed.

(** Counting a list group by group over all its keys counts the list. *)
Lemma groups_add_up {A : Type} (key : A -> Z) (l : list A) (ds : list Z) :
  NoDup ds -> (forall x, In x l -> In (key x) ds) ->
  list_sum (map (fun d => List.length (filter (fun x => key x =? d) l)) ds)
  = List.length l.
Proof.
  intros Hnd. induction l as [|x l IH]; intros Hall.
  - cbn [filter List.length]. clear Hnd Hall.
    induction ds as [|d ds IHd]; [reflexivity|].
    cbn [map list_sum fold_right List.length Nat.add]. exact IHd.
  - cbn [List.length]. rewrite <- IH by (intros y Hy; apply Hall; now right).
    transitivity
      (list_sum (map (fun d => Nat.add (if key x =? d then 1%nat else 0%nat)
                                (List.length (filter (fun x => key x =? d) l))) ds)).
    { f_equal. apply map_ext. intros d. cbn [filter].
      destruct (key x =? d); reflexivity. }
    assert (Hsplit : forall (f g : Z -> nat) (ds : list Z),
               list_sum (map (fun d => (f d + g d)%nat) ds)
               = (list_sum (map f ds) + list_sum (map g ds))%nat).
    { intros f g. induction ds0 as [|d ds0 IHd]; [reflexivity|].
      cbn [map list_sum fold_right]. unfold list_sum in IHd. rewrite IHd. lia. }
    rewrite Hsplit, indicator_sum by exact Hnd.
    destruct (in_dec Z.eq_dec (key x) ds) as [_|Hn]; [reflexivity|].
    exfalso. apply Hn, Hall. now left.
Qed.

Lemma nodup_length_le (l : list string) :
  (List.length (nodup string_dec l) <= List.length l)%nat.
Proof.
  apply NoDup_incl_length; [apply NoDup_nodup|].
  intros x Hx. now apply nodup_In in Hx.
Qed.

Lemma recent_bool (r : row) :
  recent ses now r = (CURRENT_DATE ses now - 30 <=? DATE ses (created_at r)).
Proof.
  destruct (recent ses now r) eqn:E.
  - symmetry. apply Z.leb_le. now apply recent_iff.
  - symmetry. apply Z.leb_gt.
    destruct (Z.lt_ge_cases (DATE ses (created_at r)) (CURRENT_DATE ses now - 30))
      as [H|H]; [exact H|].
    apply recent_iff in H. congruence.
Qed.

Lemma insert_desc_head (x : Z) (l : list Z) :
  Forall (fun y => y < x) l -> insert_desc (fun d => d) x l = x :: l.
Proof.
  destruct 1 as [|y l Hy _]; [reflexivity|].
  cbn [insert_desc]. destruct (Z.ltb_spec y x); [reflexivity | lia].
Qed.

Lemma filter_insert_desc (p : Z -> bool) (x : Z) (l : list Z) :
  StronglySorted (fun a b => a >= b) l ->
  filter p (insert_desc (fun d => d) x l) =
    if p x then insert_desc (fun d => d) x (filter p l) else filter p l.
Proof.
  induction 1 as [|y l Hs IH Hy]; [cbn; now destruct (p x)|].
  cbn [insert_desc]. destruct (Z.ltb_spec y x) as [Hlt|Hge].
  - cbn [filter]. destruct (p x) eqn:Hpx; [|reflexivity].
    destruct (p y) eqn:Hpy.
    + cbn [insert_desc]. destruct (Z.ltb_spec y x); [reflexivity | lia].
    + symmetry. apply insert_desc_head.
      apply Forall_forall. intros z Hz. apply filter_In in Hz.
      rewrite Forall_forall in Hy. specialize (Hy z (proj1 Hz)). lia.
  - cbn [filter]. rewrite IH. destruct (p y) eqn:Hpy, (p x) eqn:Hpx;
      try reflexivity.
    cbn [insert_desc]. destruct (Z.ltb_spec y x); [lia | reflexivity].
Qed.

Lemma filter_order_by_desc (p : Z -> bool) (l : list Z) :
  filter p (order_by_desc (fun d => d) l)
  = order_by_desc (fun d => d) (filter p l).
Proof.
  induction l as [|x l IH]; [reflexivity|].
  cbn [order_by_desc fold_right filter].
  fold (order_by_desc (fun d => d) l).
  rewrite filter_insert_desc
    by (apply (order_by_desc_sorted (fun d : Z => d))).
  rewrite IH. destruct (p x); reflexivity.
Qed.

Lemma filter_nodup (p : Z -> bool) (l : list Z) :
  filter p (nodup Z.eq_dec l) = nodup Z.eq_dec (filter p l).
Proof.
  induction l as [|x l IH]; [reflexivity|].
  cbn [nodup filter].
  destruct (in_dec Z.eq_dec x l) as [Hin|Hnin].
  - destruct (p x) eqn:Hp; [|exact IH].
    cbn [nodup].
    destruct (in_dec Z.eq_dec x (filter p l)) as [_|Hn]; [exact IH|].
    exfalso. apply Hn, filter_In. auto.
  - cbn [filter]. destruct (p x) eqn:Hp; [|exact IH].
    cbn [nodup].
    destruct (in_dec Z.eq_dec x (filter p l)) as [Hin|_].
    + apply filter_In in Hin. tauto.
    + now rewrite IH.
Qed.

End MetricsMore.

(** X16.  The metrics rows account for every contact of the trailing
    thirty days exactly once: their [daily_count]s add up to the number of
    those contacts, and in each row [unique_emails] is at least 1 and at
    most [daily_count]. *)
Theorem metrics_counts_add_up (ses : Pg.session) (now : Z)
  (rows : list Pg.row) :
  let groups := Pg.metrics_groups ses now rows in
  list_sum (map Pg.daily_count groups)
  = List.length (filter (Pg.recent ses now) rows)
  /\ Forall (fun m => (1 <= Pg.unique_emails m <= Pg.daily_count m)%nat) groups.
Proof.
  intros groups. subst groups. unfold Pg.metrics_groups. split.
  - rewrite map_map. cbn [Pg.daily_count].
    apply (groups_add_up (fun r => Pg.DATE ses (Pg.created_at r))).
    + eapply Permutation_NoDup;
        [symmetry; apply order_by_desc_perm | apply NoDup_nodup].
    + intros r Hr. apply order_by_desc_In, nodup_In.
      exact (in_map (fun r0 => Pg.DATE ses (Pg.created_at r0)) _ r Hr).
  - apply Forall_map, Forall_forall. intros d Hd.
    cbn [Pg.unique_emails Pg.daily_count].
    apply metrics_dates in Hd. destruct Hd as (r & Hin & Hrec & Hdate).
    split.
    + assert (Hr : In (Pg.email r)
                      (nodup string_dec
                         (map Pg.email
                            (filter (fun r0 => Pg.DATE ses (Pg.created_at r0) =? d)
                                    (filter (Pg.recent ses now) rows))))).
      { apply nodup_In, in_map, filter_In. split.
        - apply filter_In. auto.
        - now apply Z.eqb_eq. }
      destruct (nodup string_dec _); [destruct Hr | cbn; lia].
    + rewrite <- (length_map Pg.email). apply nodup_length_le.
Qed.

(** X17.  The metrics rows are the rows of the reporting view
    [contacts_summary] for the dates of the trailing thirty days: same
    dates in the same order, same totals, same numbers of distinct
    e-mails. *)
Theorem metrics_are_the_recent_summary (ses : Pg.session) (now : Z)
  (rows : list Pg.row) :
  map InitSql.summary_of (Pg.metrics_groups ses now rows)
  = filter (fun s => Pg.CURRENT_DATE ses now - 30 <=? InitSql.date s)
           (InitSql.contacts_summary ses rows).
Proof.
  unfold Pg.metrics_groups, InitSql.contacts_summary.
  rewrite map_map, filter_map_swap. cbn [InitSql.date].
  rewrite filter_order_by_desc, filter_nodup, filter_map_swap.
  rewrite (filter_ext
             (fun r => Pg.CURRENT_DATE ses now - 30 <=? Pg.DATE ses (Pg.created_at r))
             (Pg.recent ses now))
    by (intros r; symmetry; apply recent_bool).
  apply map_ext_in. intros d Hd.
  apply metrics_dates in Hd. destruct Hd as (r & _ & Hrec & Hdate).
  unfold InitSql.summary_of.
  cbn [Pg.date Pg.total_contacts Pg.unique_emails].
  rewrite metrics_group; [reflexivity|].
  rewrite <- Hdate. now apply recent_iff.
Qed.

(** ** The store down, start-up, the pool and the sample rows *)

Section StoreDown.
Import Pg Server.
Variable V : validator_js.
Variable env : process_env.
Variable store : Type.
Variable pool : store -> string -> list param -> outcome * store.
Variable e : pg_error.
Hypothesis down : forall s text ps, fst (pool s text ps) = Rejected e.

Lemma pool_query_down (text : string) (ps : list param) (w : world store) :
  fst (pool_query store pool text ps w) = Rejected e.
Proof.
  unfold pool_query. specialize (down (db w) text ps).
  destruct (pool (db w) text ps). exact down.
Qed.

Lemma failure_details (what : string) :
  member "details" (body (failure env what e)) = details env e
  /\ member "databaseError" (body (failure env what e)) = None
  /\ status (failure env what e) = 500.
Proof.
  unfold failure, details.
  destruct (strict_eq (NODE_ENV env) (Some "development")); repeat split.
Qed.

End StoreDown.

(** X18.  While the store rejects every statement, no route answers with
    a 2xx status.  The health check answers 503 and puts the store's error
    message in [databaseError] whatever [NODE_ENV] is; every other route
    answers 400, 401, 409 or 500, never with a [databaseError], and a 500
    carries the message in [details] only in development. *)
Theorem store_down (V : validator_js) (env : Server.process_env)
  (store : Type)
  (pool : store -> string -> list Pg.param -> Pg.outcome * store)
  (e : Pg.pg_error)
  (down : forall s text ps, fst (pool s text ps) = Pg.Rejected e)
  (req : Api.request) (w : Server.world store) :
  let r := fst (Api.handle V env store pool req w) in
  match req with
  | Api.GET_health _ =>
      status r = 503
      /\ member "databaseError" (body r) = Some (JStr (Pg.error_message e))
  | _ =>
      In (status r) [400; 401; 409; 500]
      /\ member "databaseError" (body r) = None
      /\ (status r = 500 -> member "details" (body r) = Server.details env e)
  end.
Proof.
  pose proof (failure_details env e) as Hf.
  destruct req as [p|q|i|d|v|]; cbn [Api.handle]; cbv zeta.
  - unfold Server.post_contacts.
    destruct (validationResult V (Server.Post.body p)) as [|err errs].
    + unfold Server.bind.
      pose proof (pool_query_down store pool e down Pg.insert_contact_sql
                    (Server.insert_params V p) w) as H.
      destruct (Server.pool_query _ _ _ _ w) as [o w']. cbn [fst] in H. subst o.
      destruct (Server.strict_eq (Pg.code e) (Some "23505")).
      * cbn. repeat split; [tauto | intros H; discriminate H].
      * unfold Server.ret. cbn [fst].
        destruct (Hf "Failed to save contact") as (H1 & H2 & H3).
        rewrite H3. repeat split; [cbn; tauto | exact H2 | intros _; exact H1].
    + cbn. repeat split; [tauto | intros H; discriminate H].
  - unfold Server.get_contacts, Server.bind. cbv zeta.
    match goal with
    | |- context [Server.pool_query store pool ?t ?ps w] =>
        pose proof (pool_query_down store pool e down t ps w) as H;
        destruct (Server.pool_query store pool t ps w) as [o w']
    end.
    cbn [fst] in H. subst o.
    destruct (Server.pool_query _ _ _ _ w') as [o2 w2].
    unfold Server.ret. cbn [fst].
    destruct (Hf "Failed to fetch contacts") as (H1 & H2 & H3).
    rewrite H3. repeat split; [cbn; tauto | exact H2 | intros _; exact H1].
  - unfold Api.get_contact, Server.bind.
    pose proof (pool_query_down store pool e down Store.select_contact_sql
                  [Pg.PInt i] w) as H.
    destruct (Server.pool_query _ _ _ _ w) as [o w']. cbn [fst] in H. subst o.
    unfold Server.ret. cbn [fst].
    destruct (Hf "Failed to fetch contact") as (H1 & H2 & H3).
    rewrite H3. repeat split; [cbn; tauto | exact H2 | intros _; exact H1].
  - unfold Server.delete_contact. cbv zeta.
    destruct (_ && _).
    + cbn. repeat split; [tauto | intros H; discriminate H].
    + unfold Server.bind.
      pose proof (pool_query_down store pool e down Pg.delete_contact_sql
                    [Pg.PInt (Server.Delete.id d)] w) as H.
      destruct (Server.pool_query _ _ _ _ w) as [o w']. cbn [fst] in H. subst o.
      unfold Server.ret. cbn [fst].
      destruct (Hf "Failed to delete contact") as (H1 & H2 & H3).
      rewrite H3. repeat split; [cbn; tauto | exact H2 | intros _; exact H1].
  - unfold Api.get_health, Server.bind.
    pose proof (pool_query_down store pool e down Store.select_one_sql [] w) as H.
    destruct (Server.pool_query _ _ _ _ w) as [o w']. cbn [fst] in H. subst o.
    split; reflexivity.
  - unfold Server.get_metrics, Server.bind.
    pose proof (pool_query_down store pool e down Pg.metrics_sql [] w) as H.
    destruct (Server.pool_query _ _ _ _ w) as [o w']. cbn [fst] in H. subst o.
    unfold Server.ret. cbn [fst].
    destruct (Hf "Failed to fetch metrics") as (H1 & H2 & H3).
    rewrite H3. repeat split; [cbn; tauto | exact H2 | intros _; exact H1].
Qed.

Lemma store_down_in_production :
  (forall s text ps,
      fst (Examples.rejecting Examples.connection_refused s text ps)
      = Pg.Rejected Examples.connection_refused)
  /\ status (fst (Api.handle example_validator Examples.production unit
                    (Examples.rejecting Examples.connection_refused)
                    (Api.GET_health Cases.vitals) (Server.fresh tt))) = 503
  /\ member "details"
       (body (fst (Api.handle example_validator Examples.production unit
                     (Examples.rejecting Examples.connection_refused)
                     Api.GET_metrics (Server.fresh tt)))) = None.
Proof.
  assert (H : forall s text ps,
             fst (Examples.rejecting Examples.connection_refused s text ps)
             = Pg.Rejected Examples.connection_refused)
    by (intros; reflexivity).
  split; [exact H|]. split.
  - exact (proj1 (store_down example_validator Examples.production unit
                    _ _ H (Api.GET_health Cases.vitals) (Server.fresh tt))).
  - exact (proj2 (proj2 (store_down example_validator Examples.production
                           unit _ _ H Api.GET_metrics (Server.fresh tt)))
             eq_refl).
Defined.

(** X19.  [startServer] ends listening or with [process.exit(1)].  When
    the connection test fails nothing is sent to the store and the process
    exits.  Otherwise the table statement and the two index statements
    are sent in their order, each to the store the one before it left, up
    to and including the first one rejected; the server listens when all
    three are accepted, and the process exits when one is rejected. *)
Theorem start_server (store : Type) (connect : store -> option Pg.pg_error)
  (pool : store -> string -> list Pg.param -> Pg.outcome * store)
  (w : Server.world store) :
  let texts :=
    [ Startup.create_table_sql;
      Startup.create_email_index_sql;
      Startup.create_created_at_index_sql ] in
  let n := StartupSpec.sent store pool texts (Server.db w) in
  Startup.startServer store connect pool w =
    match connect (Server.db w) with
    | Some _ => (Startup.Exit 1, w)
    | None =>
        (if StartupSpec.all_accepted store pool texts (Server.db w)
         then Startup.Listening else Startup.Exit 1,
         {| Server.db := StartupSpec.after store pool (firstn n texts) (Server.db w);
            Server.issued :=
              (Server.issued w ++ map (fun t => (t, [])) (firstn n texts))%list |})
    end.
Proof.
  cbv zeta. unfold Startup.startServer.
  destruct (connect (Server.db w)) as [err|]; [reflexivity|].
  unfold Startup.initializeDatabase, Server.bind, Server.pool_query, Server.ret.
  unfold StartupSpec.all_accepted, StartupSpec.sent.
  destruct (pool (Server.db w) Startup.create_table_sql [])
    as [[rows1|e1] s1] eqn:E1; cbn [Server.db Server.issued];
    [|cbn [firstn map StartupSpec.after fold_left]; rewrite E1; reflexivity].
  destruct (pool s1 Startup.create_email_index_sql [])
    as [[rows2|e2] s2] eqn:E2; cbn [Server.db Server.issued];
    [|cbn [firstn map StartupSpec.after fold_left]; rewrite E1; cbn [snd];
      rewrite E2, <- app_assoc; reflexivity].
  destruct (pool s2 Startup.create_created_at_index_sql [])
    as [[rows3|e3] s3] eqn:E3; cbn [Server.db Server.issued];
    cbn [firstn map StartupSpec.after fold_left]; rewrite E1; cbn [snd];
    rewrite E2; cbn [snd]; rewrite E3, <- !app_assoc; reflexivity.
Qed.

(** A store that takes the three statements, one that cannot be reached,
    one that rejects every statement, and one that rejects the first index
    statement. *)
Example start_server_examples :
  Startup.startServer unit Cases.reachable Cases.accepting (Server.fresh tt)
  = (Startup.Listening,
     {| Server.db := tt;
        Server.issued := [ (Startup.create_table_sql, []);
                           (Startup.create_email_index_sql, []);
                           (Startup.create_created_at_index_sql, []) ] |})
  /\ Startup.startServer unit Cases.unreachable Cases.accepting (Server.fresh tt)
     = (Startup.Exit 1, Server.fresh tt)
  /\ Startup.startServer unit Cases.reachable
       (Examples.rejecting Examples.connection_refused) (Server.fresh tt)
     = (Startup.Exit 1,
        {| Server.db := tt;
           Server.issued := [ (Startup.create_table_sql, []) ] |})
  /\ Startup.startServer unit Cases.reachable
       (Cases.refusing Startup.create_email_index_sql) (Server.fresh tt)
     = (Startup.Exit 1,
        {| Server.db := tt;
           Server.issued := [ (Startup.create_table_sql, []);
                              (Startup.create_email_index_sql, []) ] |}).
Proof. repeat split. Qed.

Section PoolFacts.
Import Startup.

Lemma step_keeps (p : pools) (ev : event) :
  (retries p <= maxRetries)%nat
  /\ (created p + pending p = 1 + retries p)%nat ->
  (retries (step p ev) <= maxRetries)%nat
  /\ (created (step p ev) + pending (step p ev) = 1 + retries (step p ev))%nat.
Proof.
  intros [H1 H2]. destruct ev; cbn [step].
  - destruct (Nat.ltb_spec (retries p) maxRetries);
      cbn [retries created pending]; lia.
  - destruct (pending p) eqn:E; cbn [createPool retries created pending]; lia.
Qed.

Lemma run_keeps (events : list event) (p : pools) :
  (retries p <= maxRetries)%nat
  /\ (created p + pending p = 1 + retries p)%nat ->
  (retries (run events p) <= maxRetries)%nat
  /\ (created (run events p) + pending (run events p)
      = 1 + retries (run events p))%nat.
Proof.
  revert p. unfold run.
  induction events as [|ev events IH]; intros p H; [exact H|].
  cbn [fold_left]. now apply IH, step_keeps.
Qed.

Lemma step_retries_grow (p : pools) (ev : event) :
  (retries p <= retries (step p ev))%nat
  /\ (created p <= created (step p ev))%nat.
Proof.
  destruct ev; cbn [step].
  - destruct (retries p <? maxRetries)%nat; cbn [retries created]; lia.
  - destruct (pending p); cbn [createPool retries created]; lia.
Qed.

Lemma run_created_grows (events : list event) (p : pools) :
  (created p <= created (run events p))%nat.
Proof.
  revert p. unfold run.
  induction events as [|ev events IH]; intros p; [apply Nat.le_refl|].
  cbn [fold_left]. specialize (IH (step p ev)).
  pose proof (step_retries_grow p ev). lia.
Qed.

End PoolFacts.

(** X20.  The retry counter is never reset: whatever errors idle clients
    raise and whenever the reconnect timers fire, [retries] stays at most 5
    and every pool beyond the first was created by a retry, so the process
    creates at most six pools in its life. *)
Theorem pools_are_bounded (events : list Startup.event) :
  let p := Startup.run events Startup.loaded in
  (Startup.retries p <= 5)%nat
  /\ (Startup.created p + Startup.pending p = 1 + Startup.retries p)%nat
  /\ (1 <= Startup.created p <= 6)%nat.
Proof.
  cbv zeta.
  destruct (run_keeps events Startup.loaded) as [H1 H2];
    [cbn; lia|].
  change Startup.maxRetries with 5%nat in H1.
  pose proof (run_created_grows events Startup.loaded) as H3.
  change (Startup.created Startup.loaded) with 1%nat in H3.
  lia.
Qed.

(** Seven errors in a row, every timer firing: six pools, and a seventh
    error changes nothing. *)
Example pools_after_seven_errors :
  Startup.run
    (List.concat (repeat [Startup.idle_client_error; Startup.timeout_elapsed] 7))
    Startup.loaded
  = {| Startup.retries := 5; Startup.created := 6; Startup.pending := 0 |}.
Proof. reflexivity. Qed.

(** X21.  The sample-data statement of [init.sql] always adds both rows
    while the id sequence has two values left: its [ON CONFLICT DO NOTHING]
    has only the primary key to conflict with, and each row takes a fresh
    id.  Run on a table that already holds the samples, it adds them a
    second time. *)
Theorem samples_are_always_added (now : Z) (db : Pg.database)
  (H : StoreSpec.serial_ids db)
  (Hseq : 0 <= Pg.contacts_id_seq db <= 2147483645) :
  let sample i n e m :=
    {| Pg.id := Pg.contacts_id_seq db + i; Pg.name := n; Pg.email := e;
       Pg.message := m; Pg.ip_address := None; Pg.user_agent := None;
       Pg.created_at := now; Pg.updated_at := now |} in
  InitSql.insert_samples now db
  = (Pg.Rows [],
     {| Pg.contacts :=
          (Pg.contacts db
           ++ [ sample 1 "John Doe" "john@example.com"
                  "This is a test message from Docker";
                sample 2 "Jane Smith" "jane@example.com"
                  "Another test message for the contact form" ])%list;
        Pg.contacts_id_seq := Pg.contacts_id_seq db + 2 |})
  /\ StoreSpec.serial_ids (snd (InitSql.insert_samples now db)).
Proof.
  cbv zeta.
  match goal with |- ?a = ?b /\ _ => assert (Hres : a = b) end.
  { unfold InitSql.insert_samples.
    change (forallb InitSql.fits InitSql.sample_values) with true. cbv iota.
    unfold InitSql.sample_values. cbn [InitSql.insert_all].
    unfold InitSql.insert_or_skip at 1.
    destruct (nextval_cases db) as [[_ ->]|[Hno _]];
      [|exfalso; apply Hno; unfold TableSpec.has_next; lia].
    rewrite fresh_id_is_unique by (exact H || reflexivity).
    set (db1 := {| Pg.contacts := _; Pg.contacts_id_seq := _ |}).
    assert (H1 : StoreSpec.serial_ids db1).
    { unfold StoreSpec.serial_ids, db1. cbn [Pg.contacts Pg.contacts_id_seq].
      apply Forall_app. split.
      - eapply Forall_impl; [|exact H]. cbv beta. intros; lia.
      - repeat constructor. cbn [Pg.id]. lia. }
    unfold InitSql.insert_or_skip.
    destruct (nextval_cases db1) as [[_ ->]|[Hno _]];
      [|exfalso; apply Hno; unfold TableSpec.has_next, db1;
        cbn [Pg.contacts_id_seq]; lia].
    rewrite fresh_id_is_unique by (exact H1 || reflexivity).
    unfold db1. cbn [Pg.contacts Pg.contacts_id_seq].
    rewrite <- app_assoc. cbn [app].
    replace (Pg.contacts_id_seq db + 1 + 1) with (Pg.contacts_id_seq db + 2) by lia.
    reflexivity. }
  split; [exact Hres|]. rewrite Hres. cbn [snd].
  unfold StoreSpec.serial_ids. cbn [Pg.contacts Pg.contacts_id_seq].
  apply Forall_app. split.
  - eapply Forall_impl; [|exact H]. cbv beta. intros; lia.
  - repeat constructor; cbn [Pg.id]; lia.
Qed.

Lemma samples_added_twice :
  StoreSpec.serial_ids (snd (InitSql.insert_samples 0 Examples.empty_db))
  /\ 0 <= Pg.contacts_id_seq (snd (InitSql.insert_samples 0 Examples.empty_db))
     <= 2147483645
  /\ map Pg.email
       (Pg.contacts
          (snd (InitSql.insert_samples 5
                  (snd (InitSql.insert_samples 0 Examples.empty_db)))))
     = ["john@example.com"; "jane@example.com";
        "john@example.com"; "jane@example.com"].
Proof.
  assert (H : StoreSpec.serial_ids
                (snd (InitSql.insert_samples 0 Examples.empty_db)))
    by (repeat constructor; cbn; lia).
  assert (Hseq : 0 <= Pg.contacts_id_seq
                        (snd (InitSql.insert_samples 0 Examples.empty_db))
                 <= 2147483645)
    by (cbn; lia).
  split; [exact H|]. split; [exact Hseq|].
  rewrite (proj1 (samples_are_always_added 5 _ H Hseq)). reflexivity.
Defined.

(** With one id left the statement fails: no row is added, and the
    sequence has moved on. *)
Example samples_at_the_last_id :
  InitSql.insert_samples 0 Cases.one_id_left
  = (Pg.sequence_exhausted,
     {| Pg.contacts := []; Pg.contacts_id_seq := 2147483647 |}).
Proof. reflexivity. Qed.

(** ** The form component and the backend together *)

Section FormFacts.
Import Form.

Lemma rtrim_length (s : string) :
  (String.length (rtrim s) <= String.length s)%nat.
Proof.
  induction s as [|a s IH]; [apply Nat.le_refl|].
  cbn [rtrim]. destruct (rtrim s).
  - destruct (is_space a); cbn [String.length]; lia.
  - cbn [String.length] in *. lia.
Qed.

Lemma ltrim_length (s : string) :
  (String.length (ltrim s) <= String.length s)%nat.
Proof.
  induction s as [|a s IH]; [apply Nat.le_refl|].
  cbn [ltrim]. destruct (is_space a); cbn [String.length]; lia.
Qed.

(** Trimming never makes a text longer. *)
Lemma trim_length (s : string) :
  (String.length (trim s) <= String.length s)%nat.
Proof.
  unfold trim. pose proof (rtrim_length (ltrim s)).
  pose proof (ltrim_length s). lia.
Qed.

Lemma eqb_empty (s : string) : (s =? "")%string = isEmpty s.
Proof. destruct s; reflexivity. Qed.

(** The two length checks of the form, once the text is not blank. *)
Lemma validateField_name (s : string) :
  valid (validateField {| id := "name"; type := "text"; value := s |})
  = negb (isEmpty (trim s)) && (2 <=? String.length s)%nat.
Proof.
  unfold validateField. cbn [id type value]. rewrite eqb_empty.
  destruct (isEmpty (trim s)); [reflexivity|].
  change ("text" =? "email")%string with false.
  change ("name" =? "name")%string with true.
  change ("name" =? "message-input")%string with false.
  cbn [andb negb]. rewrite Nat.leb_antisym.
  destruct (String.length s <? 2)%nat; reflexivity.
Qed.

Lemma validateField_message (s : string) :
  valid (validateField {| id := "message-input"; type := "textarea"; value := s |})
  = negb (isEmpty (trim s)) && (10 <=? String.length s)%nat.
Proof.
  unfold validateField. cbn [id type value]. rewrite eqb_empty.
  destruct (isEmpty (trim s)); [reflexivity|].
  change ("textarea" =? "email")%string with false.
  change ("message-input" =? "name")%string with false.
  change ("message-input" =? "message-input")%string with true.
  cbn [andb negb]. rewrite Nat.leb_antisym.
  destruct (String.length s <? 10)%nat; reflexivity.
Qed.

Lemma caught_text (m : string) (c : component) :
  exists text,
    text <> ""
    /\ text = (if (m =? "")%string
               then "Something went wrong. Please try again later." else m)
    /\ caught m c = showMessage text "error" c.
Proof.
  unfold caught. destruct m as [|a m].
  - eexists. repeat split. intros H; discriminate H.
  - eexists. repeat split. intros H; discriminate H.
Qed.

Lemma showMessage_error (text : string) (c : component) :
  text <> "" ->
  messageEl (showMessage text "error" c)
  = {| textContent := text; className := "message error"; display := "block" |}
  /\ timers (showMessage text "error" c) = (timers c ++ [hide_error text])%list.
Proof.
  intros H. unfold showMessage. cbn [messageEl timers].
  destruct text as [|a t]; [now elim H|]. split; reflexivity.
Qed.

End FormFacts.

Section PostReplies.
Import Pg Server.
Variable V : validator_js.
Variable env : process_env.
Variable store : Type.
Variable pool : store -> string -> list param -> outcome * store.

(** The answers of the create route: 201, or a body whose first member
    is the text of [error]. *)
Lemma post_shape (req : Post.request) (w : world store) :
  let r := fst (post_contacts V env store pool req w) in
  status r = 201
  \/ exists m rest,
       body r = JObj (("error", JStr m) :: rest)
       /\ ((status r = 400 /\ m = "Validation failed")
           \/ (status r = 409 /\ m = "Duplicate submission detected")
           \/ (status r = 500 /\ m = "Failed to save contact")).
Proof.
  cbv zeta. unfold post_contacts.
  destruct (validationResult V (Post.body req)) as [|err errs].
  - unfold bind, pool_query, ret.
    destruct (pool (db w) _ _) as [[rows|e] s]; [left; reflexivity|].
    right. destruct (strict_eq (code e) (Some "23505")).
    + do 2 eexists. split; [reflexivity|]. right; left. split; reflexivity.
    + unfold failure, details.
      destruct (strict_eq (NODE_ENV env) (Some "development"));
        do 2 eexists; (split; [reflexivity|]); right; right; split; reflexivity.
  - right. do 2 eexists. split; [reflexivity|]. left. split; reflexivity.
Qed.

End PostReplies.

(** X22.  A name and a message the backend accepts also pass the form's
    own checks: the backend measures the trimmed text between bounds, the
    form the text as typed against the lower bound only. *)
Theorem backend_accepted_passes_form (V : validator_js) (i : Form.inputs)
  (H : validationResult V (Form.to_body i) = []) :
  Form.valid (Form.validateField (Form.nameInput i)) = true
  /\ Form.valid (Form.validateField (Form.messageInput i)) = true.
Proof.
  apply validation_passes in H. destruct H as (Hn & Hm & _ & _).
  cbn [Form.to_body Validator.name Validator.message toString] in Hn, Hm.
  unfold Form.nameInput, Form.messageInput.
  rewrite validateField_name, validateField_message.
  rewrite (isLength_not_empty 2 100 _ ltac:(lia) Hn),
    (isLength_not_empty 10 1000 _ ltac:(lia) Hm).
  apply isLength_spec in Hn, Hm.
  pose proof (trim_length (Form.name i)).
  pose proof (trim_length (Form.message i)).
  split; apply andb_true_iff; split; try reflexivity; apply Nat.leb_le; lia.
Qed.

Lemma backend_accepted_passes_form_jo :
  validationResult example_validator
    (Form.to_body {| Form.name := " Jo "; Form.email := "jo@example.com";
                     Form.message := "0123456789" |}) = []
  /\ Form.valid
       (Form.validateField
          (Form.nameInput {| Form.name := " Jo "; Form.email := "jo@example.com";
                             Form.message := "0123456789" |})) = true.
Proof.
  assert (H : validationResult example_validator
                (Form.to_body {| Form.name := " Jo "; Form.email := "jo@example.com";
                                 Form.message := "0123456789" |}) = [])
    by (vm_compute; reflexivity).
  split; [exact H|].
  exact (proj1 (backend_accepted_passes_form example_validator _ H)).
Defined.

(** The other way round fails: a letter and a blank pass the form, and the
    backend answers 400. *)
Example form_accepts_more :
  fst (Form.validateForm
         {| Form.values := {| Form.name := "a "; Form.email := "jo@example.com";
                              Form.message := "0123456789" |};
            Form.nameError := Form.clearError; Form.emailError := Form.clearError;
            Form.messageError := Form.clearError; Form.charCount := "10";
            Form.messageEl := {| Form.textContent := ""; Form.className := "message";
                                 Form.display := "none" |};
            Form.submitting := false; Form.success := false;
            Form.buttonDisabled := false; Form.buttonHTML := "Send Message";
            Form.fetched := []; Form.dispatched := []; Form.timers := [] |}) = true
  /\ map Validator.msg
       (validationResult example_validator
          (Form.to_body {| Form.name := "a "; Form.email := "jo@example.com";
                           Form.message := "0123456789" |}))
     = ["Name must be between 2 and 100 characters"].
Proof. split; vm_compute; reflexivity. Qed.

(** X23.  [handleSubmit] sends a request exactly when the three fields
    pass and no submission is under way; the request goes to the [api-url]
    attribute, or to [/api/contacts] when that is missing or empty, and
    carries the values as typed.  While that submission is under way a
    second [handleSubmit] sends nothing. *)
Theorem submit_guard (apiUrl : option string) (c : Form.component) :
  let c1 := fst (Form.handleSubmit_begin apiUrl c) in
  let sent := snd (Form.handleSubmit_begin apiUrl c) in
  let url := match apiUrl with
             | Some (String a u) => String a u
             | _ => "/api/contacts"
             end in
  (sent = true <->
   fst (Form.validateForm c) = true /\ Form.submitting c = false)
  /\ Form.fetched c1
     = (if sent then Form.fetched c ++ [(url, Form.values c)]
        else Form.fetched c)%list
  /\ Form.submitting c1 = (sent || Form.submitting c)%bool
  /\ Form.buttonDisabled c1
     = (if sent then true else Form.buttonDisabled c)
  /\ (sent = true ->
      forall again,
        snd (Form.handleSubmit_begin again c1) = false
        /\ Form.fetched (fst (Form.handleSubmit_begin again c1))
           = Form.fetched c1).
Proof.
  cbv zeta. unfold Form.handleSubmit_begin.
  unfold Form.validateForm at 1 2 3 4 5 6.
  cbn [Form.validateForm fst snd Form.submitting Form.values Form.success].
  set (ok := (Form.valid _ && Form.valid _ && Form.valid _)%bool).
  destruct ok eqn:Hok, (Form.submitting c) eqn:Hs;
    cbn [negb orb fst snd Form.fetched Form.submitting Form.buttonDisabled
         Form.setState Form.showMessage Form.values Form.success].
  2:{ repeat split; auto.
      - destruct apiUrl as [[|a u]|]; reflexivity.
      - rewrite orb_true_r. reflexivity.
      - rewrite orb_true_r. reflexivity. }
  all: split; [split; [intros H; discriminate H | intros [H1 H2]; discriminate]|];
    split; [reflexivity|]; split; [now rewrite ?Hs|];
    split; [reflexivity | intros H; discriminate H].
Qed.

(** X24.  Whatever the reply, [handleSubmit] ends with [submitting]
    false and the button enabled and labelled [Send Message].  After an ok
    reply the inputs are empty, the counter is back at 0, the submitted
    values are dispatched once and the thank-you text is shown with no
    timer to hide it.  After anything else the typed values stay, nothing
    is dispatched, and a text that is never empty is shown as an error,
    which its own timer hides when nothing else was shown meanwhile. *)
Theorem submit_always_ends (js : Form.engine) (fd : Form.inputs)
  (r : Form.reply) (c : Form.component) :
  let c' := Form.handleSubmit_end js fd r c in
  Form.submitting c' = false
  /\ Form.buttonDisabled c' = false
  /\ Form.buttonHTML c' = "Send Message"
  /\ Form.fetched c' = Form.fetched c
  /\ match r with
     | Form.parsed true _ =>
         Form.values c'
         = {| Form.name := ""; Form.email := ""; Form.message := "" |}
         /\ Form.charCount c' = "0"
         /\ Form.success c' = true
         /\ Form.dispatched c' = (Form.dispatched c ++ [fd])%list
         /\ Form.timers c' = (Form.timers c ++ [Form.reset_success])%list
         /\ Form.messageEl c'
            = {| Form.textContent :=
                   "Thank you! Your message has been sent successfully.";
                 Form.className := "message success";
                 Form.display := "block" |}
     | _ =>
         Form.values c' = Form.values c
         /\ Form.success c' = Form.success c
         /\ Form.dispatched c' = Form.dispatched c
         /\ exists text,
              text <> ""
              /\ Form.messageEl c'
                 = {| Form.textContent := text;
                      Form.className := "message error";
                      Form.display := "block" |}
              /\ Form.timers c' = (Form.timers c ++ [Form.hide_error text])%list
              /\ Form.display
                   (Form.messageEl (Form.elapsed (Form.hide_error text) c'))
                 = "none"
     end.
Proof.
  assert (Hcaught : forall m,
             let c' := Form.setState false (Form.success (Form.caught m c))
                         (Form.caught m c) in
             Form.values c' = Form.values c
             /\ Form.success c' = Form.success c
             /\ Form.dispatched c' = Form.dispatched c
             /\ exists text,
                  text <> ""
                  /\ Form.messageEl c'
                     = {| Form.textContent := text;
                          Form.className := "message error";
                          Form.display := "block" |}
                  /\ Form.timers c' = (Form.timers c ++ [Form.hide_error text])%list
                  /\ Form.display
                       (Form.messageEl (Form.elapsed (Form.hide_error text) c'))
                     = "none").
  { intros m. cbv zeta.
    destruct (caught_text m c) as (text & Hne & _ & ->).
    destruct (showMessage_error text c Hne) as [Hm Ht].
    repeat split.
    exists text. split; [exact Hne|].
    cbn [Form.setState Form.messageEl Form.timers].
    rewrite Hm, Ht. repeat split.
    unfold Form.elapsed. cbn [Form.messageEl Form.setState].
    rewrite Hm. cbn [Form.textContent]. rewrite String.eqb_refl. reflexivity. }
  cbv zeta. unfold Form.handleSubmit_end.
  destruct r as [m|ok m|[|] data]; repeat split;
    try apply (Hcaught m); try apply (Hcaught (Form.thrown_message js data)).
Qed.

(** X25.  What the form shows after a create, by the status the backend
    answered with: the thank-you text for 201, and otherwise the [error]
    text of the body, which is [Validation failed] for 400, [Duplicate
    submission detected] for 409 and [Failed to save contact] for 500.
    The per-field messages under [details] are never shown. *)
Theorem form_shows_the_answer (V : validator_js) (env : Server.process_env)
  (store : Type)
  (pool : store -> string -> list Pg.param -> Pg.outcome * store)
  (req : Server.Post.request) (w : Server.world store)
  (js : Form.engine) (fd : Form.inputs) (c : Form.component) :
  let r := fst (Server.post_contacts V env store pool req w) in
  let c' := Form.handleSubmit_end js fd (Form.of_response r) c in
  In (status r) [201; 400; 409; 500]
  /\ Form.textContent (Form.messageEl c')
     = (if status r =? 201
        then "Thank you! Your message has been sent successfully."
        else if status r =? 400 then "Validation failed"
        else if status r =? 409 then "Duplicate submission detected"
        else "Failed to save contact")
  /\ Form.className (Form.messageEl c')
     = (if status r =? 201 then "message success" else "message error").
Proof.
  cbv zeta.
  destruct (post_shape V env store pool req w) as [H|(m & rest & Hb & H)];
    cbv zeta in *; unfold Form.of_response, Form.handleSubmit_end.
  - rewrite H. cbn. tauto.
  - rewrite Hb.
    destruct H as [[Hs ->]|[[Hs ->]|[Hs ->]]]; rewrite Hs; cbn; tauto.
Qed.

(** X26.  A submission through the form and the create route, against the
    table: when the form sends it, either exactly one row is stored, with
    the name and the message as typed but trimmed, and the form is emptied
    and reports the typed values in its event; or the table is left as it
    was, and the form keeps the typed values and shows an error.  When the
    form does not send it, only the fields' own error texts change. *)
Theorem submission_round_trip (V : validator_js) (env : Server.process_env)
  (ses : Pg.session) (now : Z) (js : Form.engine)
  (apiUrl ip ua : option string)
  (c : Form.component) (w : Server.world Pg.database) :
  let typed := Form.values c in
  let c1 := fst (Form.handleSubmit_begin apiUrl c) in
  let req := {| Server.Post.body := Form.to_body typed;
                Server.Post.ip := ip; Server.Post.user_agent := ua |} in
  let r := Server.post_contacts V env _ (Store.query ses now) req w in
  let c2 := Form.handleSubmit_end js typed (Form.of_response (fst r)) c1 in
  if snd (Form.handleSubmit_begin apiUrl c) then
    (exists row,
        Pg.contacts (Server.db (snd r))
        = (Pg.contacts (Server.db w) ++ [row])%list
        /\ Pg.name row = trim (Form.name typed)
        /\ Pg.message row = trim (Form.message typed)
        /\ Pg.id row = Pg.contacts_id_seq (Server.db w) + 1
        /\ Form.values c2
           = {| Form.name := ""; Form.email := ""; Form.message := "" |}
        /\ Form.dispatched c2 = (Form.dispatched c ++ [typed])%list
        /\ Form.className (Form.messageEl c2) = "message success")
    \/ (Server.db (snd r) = Server.db w
        /\ Form.values c2 = typed
        /\ Form.dispatched c2 = Form.dispatched c
        /\ Form.className (Form.messageEl c2) = "message error")
  else c1 = snd (Form.validateForm c).
Proof.
  cbv zeta.
  set (req := {| Server.Post.body := _; Server.Post.ip := ip;
                 Server.Post.user_agent := ua |}).
  assert (Hc1 : snd (Form.handleSubmit_begin apiUrl c) = true ->
                Form.values (fst (Form.handleSubmit_begin apiUrl c)) = Form.values c
                /\ Form.dispatched (fst (Form.handleSubmit_begin apiUrl c))
                   = Form.dispatched c).
  { unfold Form.handleSubmit_begin, Form.validateForm.
    destruct (negb _ || _)%bool; [intros H; discriminate H|].
    intros _. split; reflexivity. }
  destruct (snd (Form.handleSubmit_begin apiUrl c)) eqn:Hsent.
  2:{ revert Hsent. unfold Form.handleSubmit_begin.
      destruct (Form.validateForm c) as [ok c0]. cbn [snd].
      destruct (negb ok || Form.submitting c0)%bool; cbn [fst snd];
        [reflexivity | intros H; discriminate H]. }
  destruct (Hc1 eq_refl) as [Hv Hd]. clear Hc1 Hsent.
  remember (fst (Form.handleSubmit_begin apiUrl c)) as c1 eqn:E. clear E.
  destruct (post_cases V env ses now req w) as [(Hge & Hne & Hdb)|(Hval & Hlen & Hr & Hdb)].
  - right. split; [exact Hdb|].
    destruct (post_shape V env _ (Store.query ses now) req w)
      as [H|(m & rest & Hb & H)]; [contradiction|].
    unfold Form.of_response. rewrite Hb.
    assert (Hok : (200 <=? status (fst (Server.post_contacts V env _
                                          (Store.query ses now) req w)))
                  && (status (fst (Server.post_contacts V env _
                                     (Store.query ses now) req w)) <=? 299)
                  = false).
    { apply andb_false_iff. right. apply Z.leb_gt. lia. }
    rewrite Hok.
    destruct H as [[_ ->]|[[_ ->]|[_ ->]]]; cbn; rewrite Hv, Hd; repeat split.
  - left. exists (StoreSpec.inserted now (Server.db w) (Server.insert_params V req)).
    rewrite Hdb, Hr. cbn [Pg.contacts].
    rewrite inserted_fields. cbn [Pg.name Pg.message Pg.id].
    unfold Form.of_response. cbn. rewrite Hd. repeat split.
Qed.
